(** * app.swiftprotocol: the contract-interaction layer of the dashboard

  A shallow embedding of the client-side logic of the invoicing and
  payment-automation dashboard: network registries, provider
  resolution, invoice lookup, allowance sequencing, the payment flows,
  the auto-execution tick and the analytics aggregation.

  Conventions of the embedding:
  - a JavaScript [number] that holds an integer (chain ids, unix
    timestamps, loop counters) is a [Z]; a [bigint] is a [Z];
  - a [number] that is the result of a division ([Number(x) / 10 ** d])
    is an IEEE-754 binary64 value, modelled with the Standard Library's
    [spec_float] at precision 53;
  - an optional or falsy-checked string is an [option string], tested
    with [truthy];
  - everything behind an [await] (wallet, RPC endpoints, contracts) is an
    oracle over an abstract world; write calls and waiting may change the
    world, reads do not;
  - [console.log] calls have no counterpart. *)

From Stdlib Require Import ZArith String Ascii List Bool Lia.
From Stdlib Require Import Permutation Sorted.
From Stdlib Require Import Floats.SpecFloat.
From stdpp Require Import base option list gmap strings pretty.

Local Open Scope string_scope.
Local Open Scope list_scope.
Local Open Scope Z_scope.

(** ** JavaScript values *)

Module Js.

(** [!x] for a [string | undefined | null]: undefined and the empty
    string are falsy. *)
Definition truthy (s : option string) : bool :=
  match s with
  | Some EmptyString => false
  | Some _ => true
  | None => false
  end.

(** [a || b] on optional strings. *)
Definition or_else (a : option string) (b : string) : string :=
  match a with
  | Some s => if truthy a then s else b
  | None => b
  end.

(** [===] on strings. *)
Definition streq (a b : string) : bool := bool_decide (a = b).

(** [String.prototype.toLowerCase], on the ASCII range (addresses are
    hexadecimal ASCII). *)
Definition lower_ascii (c : ascii) : ascii :=
  let n := N_of_ascii c in
  if ((65 <=? n) && (n <=? 90))%N then ascii_of_N (n + 32) else c.

Fixpoint toLowerCase (s : string) : string :=
  match s with
  | EmptyString => EmptyString
  | String c r => String (lower_ascii c) (toLowerCase r)
  end.

(** An object with integer-like keys, in property enumeration order
    (ascending keys). *)
Definition obj (A : Type) := list (Z * A).

Fixpoint get {A} (o : obj A) (k : Z) : option A :=
  match o with
  | [] => None
  | (k', v) :: r => if Z.eqb k' k then Some v else get r k
  end.

(** [Object.values]. *)
Definition values {A} (o : obj A) : list A := map snd o.

(** *** Numbers

    A [number] produced by arithmetic is a binary64 float. *)
Definition number := spec_float.

Definition prec : Z := 53.
Definition emax : Z := 1024.

(** [Number(x)] for a [bigint] or an integer-valued source: the nearest
    binary64 value (ties to even). *)
Definition Number_of_Z (z : Z) : number := binary_normalize prec emax z 0 false.

Definition fdiv (x y : number) : number := SFdiv prec emax x y.
Definition fadd (x y : number) : number := SFadd prec emax x y.
Definition fmul (x y : number) : number := SFmul prec emax x y.
Definition fltb (x y : number) : bool := SFltb x y.
Definition fleb (x y : number) : bool := SFleb x y.

Definition isNaN (x : number) : bool :=
match x with S754_nan => true | _ => false end.

(** [10 ** d] for a non-negative integer [d]: the binary64 value nearest
    to the power (exact up to [d = 22]). *)
Definition pow10 (d : Z) : number := Number_of_Z (10 ^ d).

(** The integer nearest to [m * 2^e * 10^f], the larger one on a tie. *)
Definition scaled_round (m : positive) (e f : Z) : Z :=
let num := Z.pos m * 10 ^ f in
if 0 <=? e then num * 2 ^ e
else (2 * num + 2 ^ (- e)) / 2 ^ (- e + 1).

(** Whether the finite value [m * 2^e] is at least [10^21]. *)
Definition ge_1e21 (m : positive) (e : Z) : bool :=
if 0 <=? e then 10 ^ 21 <=? Z.pos m * 2 ^ e
else 10 ^ 21 * 2 ^ (- e) <=? Z.pos m.

Fixpoint zeros (n : nat) : string :=
match n with
| O => EmptyString
| S k => String "0" (zeros k)
end.

(** Steps 7 to 10 of [Number.prototype.toFixed]: the digits of [n] with
    a decimal point before the last [f] of them. *)
Definition place_point (n : Z) (f : Z) : string :=
let m := pretty (Z.to_N n) in
if f =? 0 then m
else
  let k := String.length m in
  let fn := Z.to_nat f in
  let m' := if (k <=? fn)%nat then zeros (fn + 1 - k) +:+ m else m in
  let k' := String.length m' in
  substring 0 (k' - fn) m' +:+ "." +:+ substring (k' - fn) fn m'.

(** [x.toFixed(f)] for [0 <= f <= 100]. Values of magnitude [10^21] and
    above print in exponent notation, which is not modelled ([None]). *)
Definition toFixed (x : number) (f : Z) : option string :=
match x with
| S754_nan => Some "NaN"
| S754_infinity false => Some "Infinity"
| S754_infinity true => Some "-Infinity"
| S754_zero _ => Some (place_point 0 f)
| S754_finite s m e =>
    if ge_1e21 m e then None
    else Some ((if s then "-" else EmptyString) +:+ place_point (scaled_round m e f) f)
end.

(** *** Dates

    A [Date] is its time value in milliseconds since the epoch; [None] is
    the invalid date. *)
Definition Date := option Z.

(** [new Date(ms)] with the time clip of 8.64e15 ms. *)
Definition mkDate (ms : Z) : Date :=
if (Z.abs ms <=? 8640000000000000) then Some ms else None.

(** Civil date (year, month from 1, day) of a day count since the epoch,
    in the proleptic Gregorian calendar. *)
Definition civil_from_days (days : Z) : Z * Z * Z :=
let z := days + 719468 in
let era := z / 146097 in
let doe := z - era * 146097 in
let yoe := (doe - doe / 1460 + doe / 36524 - doe / 146096) / 365 in
let doy := doe - (365 * yoe + yoe / 4 - yoe / 100) in
let mp := (5 * doy + 2) / 153 in
let d := doy - (153 * mp + 2) / 5 + 1 in
let m := if mp <? 10 then mp + 3 else mp - 9 in
let y := yoe + era * 400 + (if m <=? 2 then 1 else 0) in
(y, m, d).

(** [getUTCFullYear], [getUTCMonth] (from 0) and [getUTCDate]; [None] is
    NaN. *)
Definition getUTCFullYear (d : Date) : option Z :=
(fun ms => fst (fst (civil_from_days (ms / 86400000)))) <$> d.
Definition getUTCMonth (d : Date) : option Z :=
(fun ms => snd (fst (civil_from_days (ms / 86400000))) - 1) <$> d.
Definition getUTCDate (d : Date) : option Z :=
(fun ms => snd (civil_from_days (ms / 86400000))) <$> d.

(** [a === b] on numbers that may be NaN: NaN equals nothing. *)
Definition numeq (a b : option Z) : bool :=
match a, b with
| Some x, Some y => x =? y
| _, _ => false
end.

(** *** Arrays *)

Section Sort.
Context {A : Type} (cmp : A -> A -> Z).

(** [Array.prototype.sort(cmp)] is a stable sort; for a comparator that
    is a consistent ordering its result is the one of this stable
    insertion sort. *)
Fixpoint insert_by (x : A) (l : list A) : list A :=
match l with
| [] => [x]
| y :: r => if cmp x y <=? 0 then x :: y :: r else y :: insert_by x r
end.

Fixpoint sort (l : list A) : list A :=
match l with
| [] => []
| x :: r => insert_by x (sort r)
end.

End Sort.

End Js.

(** ** Shared constants *)

(** [ethers.ZeroAddress]. *)
Definition ZeroAddress : string := "0x0000000000000000000000000000000000000000".
Definition USDC_ADDRESS : string := "0x036CbD53842c5426634e7929541eC2318f3dCF7e".
Definition USDT_ADDRESS : string := "0x9E12AD42c4E4d2acFBADE01a96446e48e6764B98".
Definition USDC_LOGO : string :=
"https://assets.coingecko.com/coins/images/6319/standard/usdc.png?1696506694".
Definition USDT_LOGO : string :=
"https://assets.coingecko.com/coins/images/325/standard/Tether.png?1696501661".
Definition ETH_LOGO : string :=
"https://assets.coingecko.com/coins/images/279/standard/ethereum.png?1696501628".

(** [import.meta.env]: the build-time configuration surface. A variable
  that is not set is [None]. *)
Record Env := {
VITE_INVOICE_CONTRACT_ADDRESS_BASE_SEPOLIA : option string;
VITE_BASEPAY_MORPH : option string;
VITE_CROSSCHAIN_AUTOMATION_BASE_SEPOLIA : option string;
VITE_CROSSCHAIN_AUTOMATION_MORPH_HOLESKY : option string
}.

(** A token entry of a network configuration. *)
Record TokenCfg := {
tk_address : string;
tk_symbol : string;
tk_decimals : Z;
tk_logo : string
}.

(** ** Records read from the contracts *)

(** The positional result of [Payroll.invoices(hash)]. *)
Record RawInvoice := {
inv0 : string;
inv1 : string;
inv2 : Z;
inv3 : Z;
inv4 : bool;
inv5 : string;
inv6 : string;
inv7 : string;
inv8 : Z
}.

Record InvoiceData := {
merchant : string;
token : string;
amount : Z;
dueBy : Z;
isPaid : bool;
memo : string;
logoURI : string;
description : string;
paidAt : Z
}.

Definition mapInvoice (inv : RawInvoice) : InvoiceData := {|
merchant := inv0 inv;
token := inv1 inv;
amount := inv2 inv;
dueBy := inv3 inv;
isPaid := inv4 inv;
memo := inv5 inv;
logoURI := inv6 inv;
description := inv7 inv;
paidAt := inv8 inv
|}.

(** The result of [getPaymentDetails(id)] of the automation contract. *)
Record PaymentDetails := {
pd_creator : string;
pd_totalAmount : Z;
pd_amountPerRecipient : Z;
pd_scheduledTime : Z;
pd_executed : bool
}.

(** [id_] is the field [id]. *)
Record PaymentData := {
id_ : string;
creator : string;
totalAmount : string;
recipients : list string;
amountPerRecipient : string;
scheduledTime : Z;
executed : bool
}.

(** ** Effects *)

Inductive ErrCode :=
| NoCode
| NumCode (n : Z)
| StrCode (s : string).

Record JsError := {
err_message : string;
err_code : ErrCode;
err_reason : option string;
err_data_message : option string
}.

(** [new Error(msg)] *)
Definition mkError (msg : string) : JsError :=
{| err_message := msg; err_code := NoCode; err_reason := None;
   err_data_message := None |}.

Inductive Res (A : Type) :=
| Ok (a : A)
| Err (e : JsError).
Arguments Ok {A} a.
Arguments Err {A} e.

(** Where a call goes. *)
Inductive Provider :=
| Injected                          (* new ethers.BrowserProvider(window.ethereum) *)
| DirectRpc (url : option string)   (* new ethers.JsonRpcProvider(url) *)
| Transport.                        (* new ethers.BrowserProvider(walletClient.transport) *)

(** Who signs a write call. *)
Inductive Via :=
| WalletClient                      (* walletClient.writeContract *)
| Signer (p : Provider).            (* a contract bound to provider.getSigner() *)

(** Read-only requests. Payment ids are passed as the contract binding
    receives them, a number or its decimal string; both are recorded by
    the decimal string. *)
Inductive Call :=
| GetNetwork
| GetCode (addr : string)
| GetSigner
| Invoices (contract hash : string)
| Allowance (tok owner : string) (spender : option string)
| BalanceOf (tok owner : string)
| Decimals (tok : string)
| NextPaymentId (contract : string)
| GetPaymentDetails (contract pid : string)
| GetPaymentRecipients (contract pid : string)
| Owner (contract : string)
| AuthorizedControllers (contract account : string).

(** State-changing contract calls. *)
Inductive Tx :=
| Approve (tok : string) (spender : option string) (amt : Z)
| PayInvoice (contract : option string) (hash : option string) (value : Z)
| CreateInvoiceTx (contract : option string) (hash tok : string) (amountWei : Z)
    (validForSeconds : option Z) (memo' logoURI' description' : string)
| SchedulePaymentWithToken (contract tok : string) (amountRaw : Z)
    (recips : list string) (unixTime : option Z)
| ExecutePaymentNowWithToken (contract tok : string) (amountRaw : Z)
    (recips : list string)
| ExecuteScheduledPayment (contract pid : string).

Inductive ToastKind := TError | TSuccess | TInfo | TWarn | TLoading | TDismiss.

(** React state setters. *)
Inductive StateUpdate :=
| SetLoading (b : bool)
| SetPaying (b : bool)
| SetInvoiceData (inv : InvoiceData)
| SetIsLoadingData (b : bool)
| SetIsLoading (b : bool)
| SetScheduledPayments (l : list PaymentData)
| SetPaymentHistory (l : list PaymentData)
| SetExecutablePayments (s : gset string)
| SetIsSubmitting (b : bool)
| SetInvoiceCreated (b : bool)
| SetInvoiceHash (h : string)
| ResetForm.

(** Work left for a later turn of the event loop. *)
Inductive Deferred :=
| RefreshInvoice (ms : Z)                 (* setTimeout(refresh, ms) *)
| OnConfirmation (pid txHash : string).   (* tx.wait().then(..).catch(..) *)

Inductive Event :=
| Toast (k : ToastKind) (msg : string)
| Read (p : Provider) (c : Call)
| Send (via : Via) (tx : Tx)
| Wait (txHash : string)
| Sleep (ms : Z)
| Set_ (u : StateUpdate)
| Defer (d : Deferred).

(** What the wallet, the RPC endpoints and the contracts answer. Reads
    leave the world as it is; sending, waiting and sleeping may change
    it. *)
Record Oracle (W : Type) := {
o_getNetwork : Provider -> W -> Res Z;
o_getCode : Provider -> string -> W -> Res string;
o_getSigner : Provider -> W -> Res unit;
o_invoices : Provider -> string -> string -> W -> Res RawInvoice;
o_allowance : Provider -> string -> string -> option string -> W -> Res Z;
o_balanceOf : Provider -> string -> string -> W -> Res Z;
o_decimals : Provider -> string -> W -> Res Z;
o_nextPaymentId : Provider -> string -> W -> Res Z;
o_getPaymentDetails : Provider -> string -> string -> W -> Res PaymentDetails;
o_getPaymentRecipients : Provider -> string -> string -> W -> Res (list string);
o_owner : Provider -> string -> W -> Res string;
o_authorizedControllers : Provider -> string -> string -> W -> Res bool;
o_send : Via -> Tx -> W -> Res string * W;
o_wait : string -> W -> Res unit * W;
o_sleep : Z -> W -> W;
o_now : W -> Z;
o_randomHash : W -> string * W
}.
Arguments o_getNetwork {W}.
Arguments o_getCode {W}.
Arguments o_getSigner {W}.
Arguments o_invoices {W}.
Arguments o_allowance {W}.
Arguments o_balanceOf {W}.
Arguments o_decimals {W}.
Arguments o_nextPaymentId {W}.
Arguments o_getPaymentDetails {W}.
Arguments o_getPaymentRecipients {W}.
Arguments o_owner {W}.
Arguments o_authorizedControllers {W}.
Arguments o_send {W}.
Arguments o_wait {W}.
Arguments o_sleep {W}.
Arguments o_now {W}.
Arguments o_randomHash {W}.

(** Library functions of ethers and of the JavaScript runtime that the
    flows call and that are pure. *)
Record Lib := {
parseUnits : string -> Z -> Res Z;
formatUnits : Z -> Z -> string;
isAddress : string -> bool;
trim : string -> string;
Number_of_string : string -> Js.number;
parseInt : string -> option Z;
Date_getTime : string -> option Z;
String_of_error : JsError -> string
}.

(** [ethers.parseEther] is [parseUnits] at 18 decimals. *)
Definition parseEther (lib : Lib) (s : string) : Res Z := parseUnits lib s 18.

(** *** The monad of the flows: world passing, exceptions, and the trace
    of what was done. *)

Definition M (W A : Type) : Type := W -> Res A * W * list Event.

Section Monad.
Context {W : Type}.

Definition ret {A} (a : A) : M W A := fun w => (Ok a, w, []).

Definition throw {A} (e : JsError) : M W A := fun w => (Err e, w, []).

Definition bind {A B} (m : M W A) (k : A -> M W B) : M W B :=
fun w =>
  match m w with
  | (Ok a, w1, t1) => let '(r, w2, t2) := k a w1 in (r, w2, t1 ++ t2)
  | (Err e, w1, t1) => (Err e, w1, t1)
  end.

(** [try { m } catch (e) { h e }] *)
Definition try_catch {A} (m : M W A) (h : JsError -> M W A) : M W A :=
fun w =>
  match m w with
  | (Ok a, w1, t1) => (Ok a, w1, t1)
  | (Err e, w1, t1) => let '(r, w2, t2) := h e w1 in (r, w2, t1 ++ t2)
  end.

(** [try { m } finally { f }], for a finalizer that does not throw. *)
Definition finally {A} (m : M W A) (f : M W unit) : M W A :=
fun w =>
  let '(r, w1, t1) := m w in
  let '(_, w2, t2) := f w1 in
  (r, w2, t1 ++ t2).

Definition emit (e : Event) : M W unit := fun w => (Ok tt, w, [e]).

Definition toast (k : ToastKind) (msg : string) : M W unit := emit (Toast k msg).
Definition set_ (u : StateUpdate) : M W unit := emit (Set_ u).
Definition defer (d : Deferred) : M W unit := emit (Defer d).

(** A read: recorded, answered by the oracle, the world unchanged. *)
Definition read {A} (p : Provider) (c : Call) (ans : W -> Res A) : M W A :=
fun w => (ans w, w, [Read p c]).

Context (O : Oracle W).

Definition getNetwork (p : Provider) : M W Z :=
read p GetNetwork (o_getNetwork O p).
Definition getCode (p : Provider) (a : string) : M W string :=
read p (GetCode a) (o_getCode O p a).
Definition provider_getSigner (p : Provider) : M W unit :=
read p GetSigner (o_getSigner O p).
Definition invoices (p : Provider) (c h : string) : M W RawInvoice :=
read p (Invoices c h) (o_invoices O p c h).
Definition allowance (p : Provider) (t o : string) (s : option string) : M W Z :=
read p (Allowance t o s) (o_allowance O p t o s).
Definition balanceOf (p : Provider) (t o : string) : M W Z :=
read p (BalanceOf t o) (o_balanceOf O p t o).
Definition decimals (p : Provider) (t : string) : M W Z :=
read p (Decimals t) (o_decimals O p t).
Definition nextPaymentId (p : Provider) (c : string) : M W Z :=
read p (NextPaymentId c) (o_nextPaymentId O p c).
Definition getPaymentDetails (p : Provider) (c i : string) : M W PaymentDetails :=
read p (GetPaymentDetails c i) (o_getPaymentDetails O p c i).
Definition getPaymentRecipients (p : Provider) (c i : string) : M W (list string) :=
read p (GetPaymentRecipients c i) (o_getPaymentRecipients O p c i).
Definition owner (p : Provider) (c : string) : M W string :=
read p (Owner c) (o_owner O p c).
Definition authorizedControllers (p : Provider) (c a : string) : M W bool :=
read p (AuthorizedControllers c a) (o_authorizedControllers O p c a).

(** A write call: recorded when it is handed to the signer, whether or
    not the signer then rejects it. *)
Definition send (via : Via) (tx : Tx) : M W string :=
fun w => let '(r, w') := o_send O via tx w in (r, w', [Send via tx]).

(** [await tx.wait()] *)
Definition wait (h : string) : M W unit :=
fun w => let '(r, w') := o_wait O h w in (r, w', [Wait h]).

(** [await new Promise(resolve => setTimeout(resolve, ms))] *)
Definition sleep (ms : Z) : M W unit :=
fun w => (Ok tt, o_sleep O ms w, [Sleep ms]).

(** [Date.now()] *)
Definition now : M W Z := fun w => (Ok (o_now O w), w, []).

Definition randomHash : M W string :=
fun w => let '(h, w') := o_randomHash O w in (Ok h, w', []).

End Monad.

Notation "x <~ m ;; k" := (bind m (fun x => k))
  (at level 100, m at next level, right associativity).
Notation "m ;; k" := (bind m (fun _ => k))
  (at level 100, right associativity).

(** The write calls of a trace, in order. *)
Definition sends (t : list Event) : list Tx :=
omap (fun e => match e with Send _ tx => Some tx | _ => None end) t.

Definition is_approve (tx : Tx) : bool :=
match tx with Approve _ _ _ => true | _ => false end.

(** The toasts of a trace, in order. *)
Definition toasts (t : list Event) : list (ToastKind * string) :=
omap (fun e => match e with Toast k m => Some (k, m) | _ => None end) t.

(** The read requests of a trace, in order. *)
Definition reads (t : list Event) : list (Provider * Call) :=
omap (fun e => match e with Read p c => Some (p, c) | _ => None end) t.

(** [err.message || String(err)] *)
Definition message_or_string (lib : Lib) (e : JsError) : string :=
Js.or_else (Some (err_message e)) (String_of_error lib e).

(** [err.reason || err.message || String(err)] *)
Definition reason_or_message (lib : Lib) (e : JsError) : string :=
match err_reason e with
| Some r => if Js.truthy (Some r) then r else message_or_string lib e
| None => message_or_string lib e
end.

(** ** Network registries

  Each page component carries its own [NETWORK_CONFIGS] table and
  resolves [currentNetwork] from the wallet-reported chain id. *)

(** dashboard.tsx *)
Module Dashboard.

Record NetworkConfig := {
chainId : Z;
name : string;
token : TokenCfg;
contractAddress : option string
}.

Definition BASE_SEPOLIA (env : Env) : NetworkConfig := {|
chainId := 84532;
name := "Base Sepolia";
token := {| tk_address := USDC_ADDRESS; tk_symbol := "USDC";
            tk_decimals := 6; tk_logo := USDC_LOGO |};
contractAddress := VITE_INVOICE_CONTRACT_ADDRESS_BASE_SEPOLIA env
|}.

Definition MORPH_HOLESKY (env : Env) : NetworkConfig := {|
chainId := 2810;
name := "Morph Holesky";
token := {| tk_address := USDT_ADDRESS; tk_symbol := "USDT";
            tk_decimals := 18; tk_logo := USDT_LOGO |};
contractAddress := VITE_BASEPAY_MORPH env
|}.

Definition NETWORK_CONFIGS (env : Env) : Js.obj NetworkConfig :=
[ (2810, MORPH_HOLESKY env); (84532, BASE_SEPOLIA env) ].

(** [NETWORK_CONFIGS[chainId] || NETWORK_CONFIGS[84532]] *)
Definition currentNetwork (env : Env) (chain : Z) : NetworkConfig :=
match Js.get (NETWORK_CONFIGS env) chain with
| Some c => c
| None => default (BASE_SEPOLIA env) (Js.get (NETWORK_CONFIGS env) 84532)
end.

(** An element of [invoiceList]: the mapped tuple and its hash. *)
Record Invoice := {
i_merchant : string;
i_token : string;
i_amount : Z;
i_dueBy : Z;
i_isPaid : bool;
i_memo : string;
i_logoURI : string;
i_description : string;
i_paidAt : Z;
i_hash : string
}.

Definition mapInvoiceWithHash (h : string) (inv : RawInvoice) : Invoice := {|
i_merchant := inv0 inv;
i_token := inv1 inv;
i_amount := inv2 inv;
i_dueBy := inv3 inv;
i_isPaid := inv4 inv;
i_memo := inv5 inv;
i_logoURI := inv6 inv;
i_description := inv7 inv;
i_paidAt := inv8 inv;
i_hash := h
|}.

Inductive LabelPart := WeekdayShort | DayNumeric | MonthShort.

(** What the page takes from the clock, the time zone and the locale of
    the browser: the bucket dates of each period ([getCurrentWeekDays],
    [getPreviousWeekDays], [getLast30Days], [getLast12Months], built from
    [new Date()] in local time) and [toLocaleDateString]. *)
Record Host := {
getCurrentWeekDays : list Js.Date;
getPreviousWeekDays : list Js.Date;
getLast30Days : list Js.Date;
getLast12Months : list Js.Date;
toLocaleDateString : Js.Date -> LabelPart -> string
}.

Definition getDayLabel (host : Host) (d : Js.Date) : string :=
toLocaleDateString host d WeekdayShort.
Definition getDateLabel (host : Host) (d : Js.Date) : string :=
toLocaleDateString host d DayNumeric.
Definition getMonthLabel (host : Host) (d : Js.Date) : string :=
toLocaleDateString host d MonthShort.

(** The two [compareFunction]s. *)
Definition sameUTCDay (paidDate targetDate : Js.Date) : bool :=
Js.numeq (Js.getUTCFullYear paidDate) (Js.getUTCFullYear targetDate)
&& Js.numeq (Js.getUTCMonth paidDate) (Js.getUTCMonth targetDate)
&& Js.numeq (Js.getUTCDate paidDate) (Js.getUTCDate targetDate).

Definition sameUTCMonth (paidDate targetDate : Js.Date) : bool :=
Js.numeq (Js.getUTCFullYear paidDate) (Js.getUTCFullYear targetDate)
&& Js.numeq (Js.getUTCMonth paidDate) (Js.getUTCMonth targetDate).

(** The window of a period: bucket dates, label function, comparison. For
    a period that is none of the four, [dates] stays empty and the
    comparison is never reached. *)
Definition window (host : Host) (selectedPeriod : string)
  : list Js.Date * (Js.Date -> string) * (Js.Date -> Js.Date -> bool) :=
if Js.streq selectedPeriod "This Week" || Js.streq selectedPeriod "Last Week" then
  (if Js.streq selectedPeriod "This Week" then getCurrentWeekDays host
   else getPreviousWeekDays host, getDayLabel host, sameUTCDay)
else if Js.streq selectedPeriod "Last 30 Days" then
  (getLast30Days host, getDateLabel host, sameUTCDay)
else if Js.streq selectedPeriod "Last 12 Months" then
  (getLast12Months host, getMonthLabel host, sameUTCMonth)
else ([], getDayLabel host, fun _ _ => false).

(** [inv.isPaid && inv.paidAt && Number(inv.paidAt) > 0 && !isNaN(Number(inv.paidAt))] *)
Definition paidWithTime (inv : Invoice) : bool :=
i_isPaid inv && negb (i_paidAt inv =? 0) && (0 <? i_paidAt inv).

(** The decimals the aggregation assumes for an invoice token. *)
Definition tokenDecimals (tok : string) : Z :=
if Js.streq tok "0x036CbD53842c5426634e7929541eC2318f3dCF7e" then 6
else if Js.streq tok "0x9E12AD42c4E4d2acFBADE01a96446e48e6764B98" then 18
else 18.

(** The invoices of one bucket. *)
Definition bucket (compareFunction : Js.Date -> Js.Date -> bool)
  (invoiceList : list Invoice) (date : Js.Date) : list Invoice :=
List.filter (fun inv => compareFunction (Js.mkDate (i_paidAt inv * 1000)) date)
  (List.filter paidWithTime invoiceList).

(** The [reduce] of one bucket, from 0. *)
Definition total (invs : list Invoice) : Js.number :=
fold_left
  (fun sum inv =>
     Js.fadd sum (Js.fdiv (Js.Number_of_Z (i_amount inv))
                    (Js.pow10 (tokenDecimals (i_token inv)))))
  invs (S754_zero false).

Record Bar := {
label : string;
value : Js.number;
date : Js.Date
}.

(** The aggregation over a given window. *)
Definition aggregate (dates : list Js.Date) (labelFunction : Js.Date -> string)
  (compareFunction : Js.Date -> Js.Date -> bool) (invoiceList : list Invoice)
  : list Bar :=
map (fun d => {| label := labelFunction d;
                 value := total (bucket compareFunction invoiceList d);
                 date := d |}) dates.

Definition getAnalyticsData (host : Host) (selectedPeriod : string)
  (invoiceList : list Invoice) : list Bar :=
let '(dates, labelFunction, compareFunction) := window host selectedPeriod in
aggregate dates labelFunction compareFunction invoiceList.

End Dashboard.

(** pages/pay/invoice_checkout.tsx *)
Module InvoiceCheckout.

Record TokenInfo := {
symbol : string;
decimals : Z;
logo : string
}.

Record NetworkConfig := {
chainId : Z;
name : string;
contractAddress : option string;
tokens : gmap string TokenInfo
}.

Definition ETH_ADDRESS : string := ZeroAddress.

Definition ETH_INFO : TokenInfo :=
{| symbol := "ETH"; decimals := 18; logo := ETH_LOGO |}.

Definition BASE_SEPOLIA (env : Env) : NetworkConfig := {|
chainId := 84532;
name := "Base Sepolia";
contractAddress := VITE_INVOICE_CONTRACT_ADDRESS_BASE_SEPOLIA env;
tokens :=
  <[ USDC_ADDRESS := {| symbol := "USDC"; decimals := 6; logo := USDC_LOGO |} ]>
  (<[ ETH_ADDRESS := ETH_INFO ]> ∅)
|}.

Definition MORPH_HOLESKY (env : Env) : NetworkConfig := {|
chainId := 2810;
name := "Morph Holesky";
contractAddress := VITE_BASEPAY_MORPH env;
tokens :=
  <[ USDT_ADDRESS := {| symbol := "USDT"; decimals := 18; logo := USDT_LOGO |} ]>
  (<[ ETH_ADDRESS := ETH_INFO ]> ∅)
|}.

Definition NETWORK_CONFIGS (env : Env) : Js.obj NetworkConfig :=
[ (2810, MORPH_HOLESKY env); (84532, BASE_SEPOLIA env) ].

(** [NETWORK_CONFIGS[chainId] || NETWORK_CONFIGS[84532]] *)
Definition currentNetwork (env : Env) (chain : Z) : NetworkConfig :=
match Js.get (NETWORK_CONFIGS env) chain with
| Some c => c
| None => default (BASE_SEPOLIA env) (Js.get (NETWORK_CONFIGS env) 84532)
end.

(** What the component closes over at a render. *)
Record Ctx := {
c_hash : option string;            (* searchParams.get('hash') *)
c_address : option string;         (* useAccount().address *)
c_walletClient : bool;             (* useWalletClient().data is set *)
c_chainId : Z;                     (* useChainId(): the wallet library's chain *)
c_window_ethereum : bool;          (* window.ethereum is set *)
c_contract : bool;                 (* the contract state is not null *)
c_invoiceData : option InvoiceData
}.

(** The direct endpoint of the target chain, as [fetchInvoice] and
    [handlePay] pick it. *)
Definition rpcUrl (chain : Z) : option string :=
if chain =? 2810 then Some "https://rpc-quicknode-holesky.morphl2.io"
else if chain =? 84532 then Some "https://sepolia.base.org"
else None.

(** The endpoint of another network in the secondary lookup. *)
Definition testRpcUrl (chain : Z) : option string :=
if chain =? 84532 then Some "https://sepolia.base.org"
else if chain =? 2810 then Some "https://rpc-quicknode-holesky.morphl2.io"
else None.

(** [inv[0] === ethers.ZeroAddress || inv[0] === '0x00..00'] *)
Definition isZeroMerchant (m : string) : bool :=
Js.streq m ZeroAddress || Js.streq m "0x0000000000000000000000000000000000000000".

(** [contractProvider] of [fetchInvoice]: the injected provider, or the
    direct endpoint of the target chain when the injected provider
    reports another chain. *)
Definition contractProvider (providerChain : Z) (cn : NetworkConfig) : Provider :=
if negb (providerChain =? chainId cn) then
  match rpcUrl (chainId cn) with
  | Some u => DirectRpc (Some u)
  | None => Injected
  end
else Injected.

(** The outcome of the provider selection of [handlePay]. *)
Inductive Resolved :=
| UseProvider (p : Provider)
| NetworkMismatch.

(** [paymentProvider] of [handlePay]. *)
Definition paymentProvider (providerChain wagmiChain : Z) (cn : NetworkConfig)
  : Resolved :=
if negb (providerChain =? chainId cn) then
  if wagmiChain =? chainId cn then
    match rpcUrl (chainId cn) with
    | Some u => UseProvider (DirectRpc (Some u))
    | None => UseProvider Injected
    end
  else NetworkMismatch
else UseProvider Injected.

Definition foundMessage (n : string) : string :=
"Invoice found on " +:+ n +:+ ". Please switch your wallet to " +:+ n
  +:+ " to view this invoice.".

Definition notFoundMessage (n : string) : string :=
"Invoice not found on " +:+ n +:+ ". Please check the invoice hash.".

Definition mismatchMessage (n : string) : string :=
"Network mismatch: Please switch MetaMask to " +:+ n +:+ " to complete payment".

(** [tokenInfo?.symbol || 'Token'] *)
Definition tokenSymbol (cn : NetworkConfig) (tok : string) : string :=
match tokens cn !! tok with
| Some ti => Js.or_else (Some (symbol ti)) "Token"
| None => "Token"
end.

(** [tokenInfo?.decimals || 18] *)
Definition tokenDecimals (cn : NetworkConfig) (tok : string) : Z :=
match tokens cn !! tok with
| Some ti => if decimals ti =? 0 then 18 else decimals ti
| None => 18
end.

(** [Number(invoiceData.amount) / (10 ** tokenDecimals)] *)
Definition scaledAmount (cn : NetworkConfig) (inv : InvoiceData) : Js.number :=
Js.fdiv (Js.Number_of_Z (amount inv)) (Js.pow10 (tokenDecimals cn (token inv))).

(** [amount.toFixed(tokenDecimals === 6 ? 2 : 4)], the amount shown. *)
Definition amountDisplay (cn : NetworkConfig) (inv : InvoiceData) : option string :=
Js.toFixed (scaledAmount cn inv)
  (if tokenDecimals cn (token inv) =? 6 then 2 else 4).

Section Flows.
Context {W : Type} (O : Oracle W) (lib : Lib).

(** The loop over the other networks in [fetchInvoice]: the name of the
    first one whose contract knows the hash. *)
Fixpoint searchOthers (h : string) (nets : list NetworkConfig)
  : M W (option string) :=
match nets with
| [] => ret None
| network :: rest =>
    if negb (Js.truthy (contractAddress network)) then searchOthers h rest
    else
      found <~ try_catch
                 (testInv <~ invoices O (DirectRpc (testRpcUrl (chainId network)))
                               (default EmptyString (contractAddress network)) h ;;
                  ret (negb (Js.streq (inv0 testInv) ZeroAddress)
                       && negb (Js.streq (inv0 testInv)
                                  "0x0000000000000000000000000000000000000000")))
                 (fun _ => ret false) ;;
      if found then ret (Some (name network)) else searchOthers h rest
end.

Definition fetchInvoice (env : Env) (c : Ctx) : M W unit :=
let cn := currentNetwork env (c_chainId c) in
if negb (Js.truthy (c_hash c)) || negb (c_window_ethereum c) then
  set_ (SetLoading false)
else
  let h := default EmptyString (c_hash c) in
  finally
    (try_catch
       (network <~ getNetwork O Injected ;;
        let provider := contractProvider network cn in
        if negb (Js.truthy (contractAddress cn)) then
          toast TError ("Contract not deployed on " +:+ name cn) ;;
          set_ (SetLoading false)
        else
          inv <~ invoices O provider (default EmptyString (contractAddress cn)) h ;;
          if isZeroMerchant (inv0 inv) then
            let otherNetworks :=
              List.filter (fun net => negb (chainId net =? chainId cn))
                (Js.values (NETWORK_CONFIGS env)) in
            foundOnNetwork <~ searchOthers h otherNetworks ;;
            (if Js.truthy foundOnNetwork
             then toast TError (foundMessage (default EmptyString foundOnNetwork))
             else toast TError (notFoundMessage (name cn))) ;;
            set_ (SetLoading false)
          else set_ (SetInvoiceData (mapInvoice inv)))
       (fun _ => toast TError "Failed to load invoice"))
    (set_ (SetLoading false)).

(** The token branch of [handlePay], up to and including the approval.
    The result says whether the flow goes on to the payment ([false] is
    an early [return]). *)
Definition approveStep (cn : NetworkConfig) (c : Ctx) (inv : InvoiceData)
  : M W bool :=
let sym := tokenSymbol cn (token inv) in
network <~ getNetwork O Injected ;;
match paymentProvider network (c_chainId c) cn with
| NetworkMismatch =>
    toast TError (mismatchMessage (name cn)) ;;
    set_ (SetPaying false) ;;
    ret false
| UseProvider provider =>
    checked <~ try_catch
                 (code <~ getCode O provider (token inv) ;;
                  if Js.streq code "0x" then
                    toast TError (sym +:+ " token contract not found on " +:+ name cn) ;;
                    set_ (SetPaying false) ;;
                    ret None
                  else
                    a <~ allowance O provider (token inv)
                           (default EmptyString (c_address c)) (contractAddress cn) ;;
                    ret (Some a))
                 (fun _ =>
                    toast TError ("Failed to check " +:+ sym
                      +:+ " allowance. Please ensure you're on the correct network.") ;;
                    set_ (SetPaying false) ;;
                    ret None) ;;
    match checked with
    | None => ret false
    | Some currentAllowance =>
        if currentAllowance <? amount inv then
          toast TLoading ("Approving " +:+ sym +:+ "...") ;;
          if negb (c_walletClient c) then
            toast TError "Wallet not connected" ;;
            set_ (SetPaying false) ;;
            ret false
          else
            send O WalletClient
              (Approve (token inv) (contractAddress cn) (amount inv)) ;;
            toast TDismiss EmptyString ;;
            ret true
        else ret true
    end
end.

Definition handlePay (env : Env) (c : Ctx) : M W unit :=
let cn := currentNetwork env (c_chainId c) in
match c_invoiceData c with
| None => ret tt
| Some inv =>
    if negb (c_contract c) || negb (Js.truthy (c_address c)) then ret tt
    else
      set_ (SetPaying true) ;;
      finally
        (try_catch
           (go_on <~ (if negb (Js.streq (token inv) ETH_ADDRESS)
                      then approveStep cn c inv
                      else ret true) ;;
            if negb go_on then ret tt
            else if negb (c_walletClient c) then
              toast TError "Wallet not connected" ;;
              set_ (SetPaying false)
            else
              send O WalletClient
                (PayInvoice (contractAddress cn) (c_hash c)
                   (if Js.streq (token inv) ETH_ADDRESS then amount inv else 0)) ;;
              toast TLoading "Processing payment..." ;;
              toast TDismiss EmptyString ;;
              toast TSuccess "Payment successful!" ;;
              defer (RefreshInvoice 3000))
           (fun e =>
              toast TDismiss EmptyString ;;
              toast TError ("Payment failed: " +:+ message_or_string lib e)))
        (set_ (SetPaying false))
end.

(** The callback of the [setTimeout] at the end of [handlePay]. *)
Definition refreshInvoice (env : Env) (c : Ctx) : M W unit :=
let cn := currentNetwork env (c_chainId c) in
try_catch
  (refreshNetwork <~ getNetwork O Injected ;;
   let finalProvider := contractProvider refreshNetwork cn in
   inv <~ invoices O finalProvider (default EmptyString (contractAddress cn))
            (default EmptyString (c_hash c)) ;;
   set_ (SetInvoiceData (mapInvoice inv)))
  (fun _ => ret tt).

End Flows.

End InvoiceCheckout.

(** The invoice creation page (component CreateInvoice). *)
Module CreateInvoice.

Record TokenOption := {
to_name : string;
to_address : string;
to_logo : string
}.

Definition USDC_TOKEN_BASE_SEPOLIA : TokenOption :=
{| to_name := "USDC"; to_address := USDC_ADDRESS; to_logo := USDC_LOGO |}.

Definition USDT_TOKEN_MORPH_HOLESKY : TokenOption :=
{| to_name := "USDT"; to_address := USDT_ADDRESS; to_logo := USDT_LOGO |}.

Record NetworkConfig := {
chainId : Z;
name : string;
contractAddress : option string;
supportedTokens : list TokenOption
}.

Definition BASE_SEPOLIA (env : Env) : NetworkConfig := {|
chainId := 84532;
name := "Base Sepolia";
contractAddress := VITE_INVOICE_CONTRACT_ADDRESS_BASE_SEPOLIA env;
supportedTokens := [USDC_TOKEN_BASE_SEPOLIA]
|}.

Definition MORPH_HOLESKY (env : Env) : NetworkConfig := {|
chainId := 2810;
name := "Morph Holesky";
contractAddress := VITE_BASEPAY_MORPH env;
supportedTokens := [USDT_TOKEN_MORPH_HOLESKY]
|}.

Definition NETWORK_CONFIGS (env : Env) : Js.obj NetworkConfig :=
[ (2810, MORPH_HOLESKY env); (84532, BASE_SEPOLIA env) ].

(** [NETWORK_CONFIGS[chainId] || NETWORK_CONFIGS[84532]] *)
Definition currentNetwork (env : Env) (chain : Z) : NetworkConfig :=
match Js.get (NETWORK_CONFIGS env) chain with
| Some c => c
| None => default (BASE_SEPOLIA env) (Js.get (NETWORK_CONFIGS env) 84532)
end.

Record InvoiceFormData := {
f_merchant : string;
f_token : string;
f_amount : string;
f_validForSeconds : string;
f_memo : string;
f_logoURI : string;
f_description : string
}.

Record Ctx := {
c_address : option string;
c_chainId : Z;
c_contract : bool;               (* the contract state is not null *)
formData : InvoiceFormData
}.

(** The decimals [handleSubmit] picks for an ERC20-style token. *)
Definition tokenDecimals (tok : string) : Z :=
if Js.streq tok "0x036CbD53842c5426634e7929541eC2318f3dCF7e" then 6
else if Js.streq tok "0x9E12AD42c4E4d2acFBADE01a96446e48e6764B98" then 18
else 18.

(** [amountWei] of [handleSubmit]. *)
Definition amountWei (lib : Lib) (fd : InvoiceFormData) : Res Z :=
if Js.streq (f_token fd) ZeroAddress then parseEther lib (f_amount fd)
else parseUnits lib (f_amount fd) (tokenDecimals (f_token fd)).

Section Flows.
Context {W : Type} (O : Oracle W) (lib : Lib).

Definition handleSubmit (env : Env) (c : Ctx) : M W unit :=
let cn := currentNetwork env (c_chainId c) in
let fd := formData c in
if negb (c_contract c) || negb (Js.truthy (c_address c)) then
  toast TError "Error: Wallet not connected or contract not initialized."
else
  set_ (SetIsSubmitting true) ;;
  set_ (SetInvoiceCreated false) ;;
  set_ (SetInvoiceHash EmptyString) ;;
  toast TLoading "Creating invoice..." ;;
  finally
    (try_catch
       (h <~ randomHash O ;;
        toast TInfo ("Generated invoice hash: " +:+ h) ;;
        wei <~ (fun w => (amountWei lib fd, w, [])) ;;
        let validForSeconds := parseInt lib (f_validForSeconds fd) in
        tx <~ send O (Signer Transport)
                (CreateInvoiceTx (contractAddress cn) h
                   (Js.or_else (Some (f_token fd)) (to_address USDC_TOKEN_BASE_SEPOLIA))
                   wei validForSeconds (f_memo fd) (f_logoURI fd) (f_description fd)) ;;
        wait O tx ;;
        set_ (SetInvoiceHash h) ;;
        set_ (SetInvoiceCreated true) ;;
        toast TDismiss EmptyString ;;
        toast TSuccess ("Invoice created successfully! Hash: " +:+ h))
       (fun e =>
          set_ (SetInvoiceCreated false) ;;
          set_ (SetInvoiceHash EmptyString) ;;
          toast TDismiss EmptyString ;;
          toast TError ("Error creating invoice: " +:+ message_or_string lib e)))
    (set_ (SetIsSubmitting false)).

End Flows.

End CreateInvoice.

(** pages/paymentAutomation.tsx *)
Module PaymentAutomation.

Record NetworkConfig := {
chainId : Z;
name : string;
contractAddress : string;
token : TokenCfg
}.

(** The contract address is [import.meta.env.X || '']. *)
Definition BASE_SEPOLIA (env : Env) : NetworkConfig := {|
chainId := 84532;
name := "Base Sepolia";
contractAddress :=
  Js.or_else (VITE_CROSSCHAIN_AUTOMATION_BASE_SEPOLIA env) EmptyString;
token := {| tk_address := USDC_ADDRESS; tk_symbol := "USDC";
            tk_decimals := 6; tk_logo := USDC_LOGO |}
|}.

Definition MORPH_HOLESKY (env : Env) : NetworkConfig := {|
chainId := 2810;
name := "Morph Holesky";
contractAddress :=
  Js.or_else (VITE_CROSSCHAIN_AUTOMATION_MORPH_HOLESKY env) EmptyString;
token := {| tk_address := USDT_ADDRESS; tk_symbol := "USDT";
            tk_decimals := 18; tk_logo := USDT_LOGO |}
|}.

Definition NETWORK_CONFIGS (env : Env) : Js.obj NetworkConfig :=
[ (2810, MORPH_HOLESKY env); (84532, BASE_SEPOLIA env) ].

(** [NETWORK_CONFIGS[chainId] || NETWORK_CONFIGS[84532]] *)
Definition currentNetwork (env : Env) (chain : Z) : NetworkConfig :=
match Js.get (NETWORK_CONFIGS env) chain with
| Some c => c
| None => default (BASE_SEPOLIA env) (Js.get (NETWORK_CONFIGS env) 84532)
end.

(** What the component closes over at a render. *)
Record Ctx := {
c_isConnected : bool;
c_address : option string;
c_chainId : Z;
c_walletClient : bool;
c_amount : string;
c_recipients : list string;
c_scheduled : bool;
c_scheduledDate : string;
c_scheduledPayments : list PaymentData;
c_executablePayments : gset string
}.

(** [a.toLowerCase() === b.toLowerCase()] *)
Definition sameAddress (a b : string) : bool :=
Js.streq (Js.toLowerCase a) (Js.toLowerCase b).

(** The comparator of both sorts: [(a, b) => b.scheduledTime - a.scheduledTime]. *)
Definition newestFirst (a b : PaymentData) : Z :=
scheduledTime b - scheduledTime a.

(** [Date.now() / 1000 > scheduledTime], for the clock reading [nowMs]. *)
Definition overdueAt (nowMs scheduledTime : Z) : bool :=
Js.fltb (Js.Number_of_Z scheduledTime)
  (Js.fdiv (Js.Number_of_Z nowMs) (Js.Number_of_Z 1000)).

(** [Promise.all([a, b])] of two reads: both are issued, the first
    rejection wins. *)
Definition promise_all2 {W A B} (a : M W A) (b : M W B) : M W (A * B) :=
fun w =>
  let '(ra, _, ta) := a w in
  let '(rb, _, tb) := b w in
  match ra, rb with
  | Ok x, Ok y => (Ok (x, y), w, ta ++ tb)
  | Err e, _ => (Err e, w, ta ++ tb)
  | _, Err e => (Err e, w, ta ++ tb)
  end.

Section Flows.
Context {W : Type} (O : Oracle W) (lib : Lib) (env : Env) (c : Ctx).

Definition cn : NetworkConfig := currentNetwork env (c_chainId c).
Definition addr : string := default EmptyString (c_address c).

Definition getSigner : M W unit :=
if negb (c_walletClient c) then throw (mkError "Wallet not connected")
else if negb (Js.truthy (c_address c)) then throw (mkError "No wallet address found")
else if negb (c_chainId c =? chainId cn) then
  throw (mkError ("Please switch to " +:+ name cn +:+ " (Chain ID: "
                    +:+ pretty (chainId cn) +:+ ")"))
else provider_getSigner O Transport.

Definition isPaymentOverdue (scheduledTime : Z) : M W bool :=
n <~ now O ;; ret (overdueAt n scheduledTime).

Definition canExecutePayment (paymentId : string) : M W bool :=
if negb (c_isConnected c) || negb (Js.truthy (c_address c)) then ret false
else
  try_catch
    (getSigner ;;
     paymentDetails <~ getPaymentDetails O Transport (contractAddress cn) paymentId ;;
     if sameAddress (pd_creator paymentDetails) addr then ret true
     else
       owner_ <~ owner O Transport (contractAddress cn) ;;
       if sameAddress owner_ addr then ret true
       else authorizedControllers O Transport (contractAddress cn) addr)
    (fun _ => ret false).

(** The loop of [checkExecutablePayments] inside its [try]: an exception
    leaves the loop with the set built so far. *)
Fixpoint checkLoop (payments : list PaymentData) (executableSet : gset string)
  : M W (gset string) :=
match payments with
| [] => ret executableSet
| payment :: rest =>
    r <~ try_catch
           (overdue <~ isPaymentOverdue (scheduledTime payment) ;;
            if overdue then
              canExecute <~ canExecutePayment (id_ payment) ;;
              ret (Some (if canExecute then {[ id_ payment ]} ∪ executableSet
                         else executableSet))
            else ret (Some executableSet))
           (fun _ => ret None) ;;
    match r with
    | Some s => checkLoop rest s
    | None => ret executableSet
    end
end.

Definition checkExecutablePayments (payments : list PaymentData) : M W unit :=
if negb (c_isConnected c) || negb (Js.truthy (c_address c)) then ret tt
else
  executableSet <~ checkLoop payments ∅ ;;
  set_ (SetExecutablePayments executableSet).

(** One payment as [loadPaymentData] builds it. *)
Definition mkPayment (i : Z) (d : PaymentDetails) (recips : list string)
  : PaymentData := {|
id_ := pretty i;
creator := pd_creator d;
totalAmount := formatUnits lib (pd_totalAmount d) (tk_decimals (token cn));
recipients := recips;
amountPerRecipient :=
  formatUnits lib (pd_amountPerRecipient d) (tk_decimals (token cn));
scheduledTime := pd_scheduledTime d;
executed := pd_executed d
|}.

(** The fetch loop of [loadPaymentData]; a payment whose fetch fails is
    skipped. *)
Fixpoint loadLoop (ids : list Z) (scheduled history : list PaymentData)
  : M W (list PaymentData * list PaymentData) :=
match ids with
| [] => ret (scheduled, history)
| i :: rest =>
    r <~ try_catch
           (paymentDetails <~ getPaymentDetails O Transport (contractAddress cn) (pretty i) ;;
            recips <~ getPaymentRecipients O Transport (contractAddress cn) (pretty i) ;;
            if sameAddress (pd_creator paymentDetails) addr then
              let payment := mkPayment i paymentDetails recips in
              if pd_executed paymentDetails
              then ret (scheduled, history ++ [payment])
              else ret (scheduled ++ [payment], history)
            else ret (scheduled, history))
           (fun _ => ret (scheduled, history)) ;;
    loadLoop rest (fst r) (snd r)
end.

Definition loadPaymentData : M W unit :=
if negb (c_isConnected c) || negb (Js.truthy (c_address c))
   || negb (Js.truthy (Some (contractAddress cn))) || negb (c_walletClient c)
then ret tt
else
  set_ (SetIsLoadingData true) ;;
  try_catch
    (getSigner ;;
     paymentCount <~ nextPaymentId O Transport (contractAddress cn) ;;
     lists <~ loadLoop (seqZ 0 paymentCount) [] [] ;;
     let scheduled := Js.sort newestFirst (fst lists) in
     let history := Js.sort newestFirst (snd lists) in
     set_ (SetScheduledPayments scheduled) ;;
     set_ (SetPaymentHistory history) ;;
     checkExecutablePayments scheduled)
    (fun e =>
       toast TError ("Failed to load payment data: " +:+ message_or_string lib e)) ;;
  set_ (SetIsLoadingData false).

Definition checkTokenBalance (tokenAddress : string) (amountRaw : Z) : M W unit :=
try_catch
  (if negb (Js.truthy (c_address c)) then throw (mkError "Wallet address not available")
   else
     bd <~ promise_all2
             (balanceOf O Transport tokenAddress addr)
             (try_catch (decimals O Transport tokenAddress)
                (fun _ => ret (tk_decimals (token cn)))) ;;
     let balance := fst bd in
     let actualDecimals := snd bd in
     let formattedBalance := formatUnits lib balance actualDecimals in
     if balance <? amountRaw then
       throw (mkError ("Insufficient " +:+ tk_symbol (token cn)
                +:+ " balance. Required: " +:+ formatUnits lib amountRaw actualDecimals
                +:+ ", Available: " +:+ formattedBalance))
     else ret tt)
  (fun err =>
     throw (mkError ("Balance check failed: " +:+ message_or_string lib err))).

Definition approveToken (tokenAddress : string) (amountRaw : Z) : M W unit :=
try_catch
  (if negb (Js.truthy (c_address c)) then throw (mkError "Wallet address not available")
   else
     currentAllowance <~ allowance O Transport tokenAddress addr
                           (Some (contractAddress cn)) ;;
     if currentAllowance <? amountRaw then
       tx <~ send O (Signer Transport)
               (Approve tokenAddress (Some (contractAddress cn)) amountRaw) ;;
       toast TInfo "Approval transaction sent, waiting for confirmation..." ;;
       wait O tx ;;
       newAllowance <~ allowance O Transport tokenAddress addr
                         (Some (contractAddress cn)) ;;
       if newAllowance <? amountRaw then
         throw (mkError ("Approval verification failed. Expected: "
                  +:+ formatUnits lib amountRaw (tk_decimals (token cn))
                  +:+ ", Got: "
                  +:+ formatUnits lib newAllowance (tk_decimals (token cn))))
       else ret tt
     else ret tt)
  (fun err =>
     throw (mkError (tk_symbol (token cn) +:+ " approval failed: "
                       +:+ reason_or_message lib err))).

(** [recipients.filter(addr => addr.trim() !== '' && ethers.isAddress(addr.trim()))] *)
Definition validRecipients : list string :=
List.filter (fun a => negb (Js.streq (trim lib a) EmptyString)
                      && isAddress lib (trim lib a)) (c_recipients c).

Definition invalidAddresses : list string :=
List.filter (fun a => negb (Js.streq (trim lib a) EmptyString)
                      && negb (isAddress lib (trim lib a))) (c_recipients c).

(** The toast of the [catch] of [submitPayment]. *)
Definition submitFailed (err : JsError) : M W unit :=
match err_code err with
| NumCode 4001 => toast TWarn "Transaction cancelled by user"
| NumCode (-32603) =>
    toast TError ("Transaction failed: "
      +:+ match err_data_message err with
          | Some m => Js.or_else (Some m) (err_message err)
          | None => err_message err
          end)
| _ =>
    toast TError ("Transaction failed: "
      +:+ match err_reason err with
          | Some r => if Js.truthy (Some r) then r
                      else Js.or_else (Some (err_message err)) "Unknown error"
          | None => Js.or_else (Some (err_message err)) "Unknown error"
          end)
end.

Definition submitPayment : M W unit :=
set_ (SetIsLoading true) ;;
try_catch
  (if negb (c_isConnected c) || negb (Js.truthy (c_address c))
   then throw (mkError "Wallet not connected")
   else if negb (Js.truthy (Some (c_amount c)))
           || Js.isNaN (Number_of_string lib (c_amount c))
           || Js.fleb (Number_of_string lib (c_amount c)) (S754_zero false)
   then throw (mkError "Invalid amount")
   else if (length validRecipients =? 0)%nat
   then throw (mkError "At least one valid recipient address required")
   else if (0 <? length invalidAddresses)%nat
   then throw (mkError ("Invalid recipient address(es): "
                          +:+ String.concat ", " invalidAddresses))
   else if negb (Js.truthy (Some (contractAddress cn)))
   then throw (mkError ("Contract address not configured for " +:+ name cn))
   else
     getSigner ;;
     let tokenAddress := tk_address (token cn) in
     amountRaw <~ (fun w => (parseUnits lib (c_amount c) (tk_decimals (token cn)), w, [])) ;;
     toast TInfo ("Checking " +:+ tk_symbol (token cn) +:+ " balance...") ;;
     checkTokenBalance tokenAddress amountRaw ;;
     toast TInfo ("Approving " +:+ tk_symbol (token cn) +:+ " spending...") ;;
     approveToken tokenAddress amountRaw ;;
     tx <~ (if c_scheduled c then
              if negb (Js.truthy (Some (c_scheduledDate c)))
              then throw (mkError "Scheduled date required")
              else
                let unixTime :=
                  (fun ms => ms / 1000) <$> Date_getTime lib (c_scheduledDate c) in
                toast TInfo "Scheduling payment..." ;;
                send O (Signer Transport)
                  (SchedulePaymentWithToken (contractAddress cn) tokenAddress
                     amountRaw validRecipients unixTime)
            else
              toast TInfo "Executing payment..." ;;
              send O (Signer Transport)
                (ExecutePaymentNowWithToken (contractAddress cn) tokenAddress
                   amountRaw validRecipients)) ;;
     toast TInfo "Transaction sent, waiting for confirmation..." ;;
     wait O tx ;;
     (if c_scheduled c then toast TSuccess "Payment scheduled successfully!"
      else toast TSuccess "Payment executed successfully!") ;;
     set_ ResetForm ;;
     loadPaymentData)
  submitFailed ;;
set_ (SetIsLoading false).

(** The loop of [autoExecuteOverduePayments], inside its [try]. *)
Fixpoint autoLoop (payments : list PaymentData) : M W unit :=
match payments with
| [] => ret tt
| payment :: rest =>
    overdue <~ isPaymentOverdue (scheduledTime payment) ;;
    (if overdue && bool_decide (id_ payment ∈ c_executablePayments c) then
       getSigner ;;
       tx <~ send O (Signer Transport)
               (ExecuteScheduledPayment (contractAddress cn) (id_ payment)) ;;
       defer (OnConfirmation (id_ payment) tx) ;;
       sleep O 1000
     else ret tt) ;;
    autoLoop rest
end.

Definition autoExecuteOverduePayments : M W unit :=
if negb (c_isConnected c) || negb (Js.truthy (c_address c))
   || (length (c_scheduledPayments c) =? 0)%nat
then ret tt
else try_catch (autoLoop (c_scheduledPayments c)) (fun _ => ret tt).

End Flows.

End PaymentAutomation.


(** ** A small simulated chain, for running the flows on concrete inputs *)

Module Sim.

Record World := {
w_chain : Z;                              (* chain the injected provider reports *)
w_code : string;                          (* code found at a token address *)
w_invoice : Provider -> string -> option RawInvoice;
                                          (* invoice by provider and contract *)
w_allowance : Z;
w_pending : option Z;                     (* an approval that is not mined yet *)
w_balance : Z;
w_payments : list (string * PaymentDetails);
w_owner : string;
w_controllers : list string;
w_now : Z;
w_rejected : list string;                 (* payment ids whose execution is refused *)
w_nonce : Z
}.

Definition rpcFailure : JsError :=
{| err_message := "could not coalesce error"; err_code := NumCode (-32603);
   err_reason := None; err_data_message := None |}.

Definition reverted : JsError :=
{| err_message := "execution reverted"; err_code := StrCode "CALL_EXCEPTION";
   err_reason := Some "execution reverted"; err_data_message := None |}.

Fixpoint assoc {A} (k : string) (l : list (string * A)) : option A :=
match l with
| [] => None
| (k', v) :: r => if Js.streq k k' then Some v else assoc k r
end.

Definition txHash (w : World) : string := "0xtx" +:+ pretty (w_nonce w).

Definition bump (w : World) (pending : option Z) : World :=
{| w_chain := w_chain w; w_code := w_code w; w_invoice := w_invoice w;
   w_allowance := w_allowance w; w_pending := pending;
   w_balance := w_balance w; w_payments := w_payments w;
   w_owner := w_owner w; w_controllers := w_controllers w;
   w_now := w_now w; w_rejected := w_rejected w; w_nonce := w_nonce w + 1 |}.

(** Mining: a pending approval becomes the allowance. *)
Definition mine (w : World) : World :=
{| w_chain := w_chain w; w_code := w_code w; w_invoice := w_invoice w;
   w_allowance := default (w_allowance w) (w_pending w); w_pending := None;
   w_balance := w_balance w; w_payments := w_payments w;
   w_owner := w_owner w; w_controllers := w_controllers w;
   w_now := w_now w; w_rejected := w_rejected w; w_nonce := w_nonce w |}.

Definition tick (ms : Z) (w : World) : World :=
{| w_chain := w_chain w; w_code := w_code w; w_invoice := w_invoice w;
   w_allowance := w_allowance w; w_pending := w_pending w;
   w_balance := w_balance w; w_payments := w_payments w;
   w_owner := w_owner w; w_controllers := w_controllers w;
   w_now := w_now w + ms; w_rejected := w_rejected w; w_nonce := w_nonce w |}.

Definition sim_send (via : Via) (tx : Tx) (w : World) : Res string * World :=
match tx with
| Approve _ _ amt => (Ok (txHash w), bump w (Some amt))
| ExecuteScheduledPayment _ pid =>
    if bool_decide (pid ∈ w_rejected w) then (Err reverted, w)
    else (Ok (txHash w), bump w (w_pending w))
| _ => (Ok (txHash w), bump w (w_pending w))
end.

Definition oracle : Oracle World := {|
o_getNetwork := fun p w =>
  match p with Injected => Ok (w_chain w) | _ => Ok 0 end;
o_getCode := fun _ _ w => Ok (w_code w);
o_getSigner := fun _ _ => Ok tt;
o_invoices := fun p c _ w =>
  match w_invoice w p c with Some r => Ok r | None => Err rpcFailure end;
o_allowance := fun _ _ _ _ w => Ok (w_allowance w);
o_balanceOf := fun _ _ _ w => Ok (w_balance w);
o_decimals := fun _ _ _ => Err rpcFailure;
o_nextPaymentId := fun _ _ w => Ok (Z.of_nat (length (w_payments w)));
o_getPaymentDetails := fun _ _ i w =>
  match assoc i (w_payments w) with Some d => Ok d | None => Err reverted end;
o_getPaymentRecipients := fun _ _ _ _ => Ok [];
o_owner := fun _ _ w => Ok (w_owner w);
o_authorizedControllers := fun _ _ a w => Ok (bool_decide (a ∈ w_controllers w));
o_send := sim_send;
o_wait := fun _ w => (Ok tt, mine w);
o_sleep := tick;
o_now := w_now;
o_randomHash := fun w => ("0xhash", w)
|}.

(** A stand-in for the library: amounts are entered as whole numbers of
    units written in unary with the letter [I]. *)
Definition lib : Lib := {|
parseUnits := fun s d => Ok (Z.of_nat (String.length s) * 10 ^ d);
formatUnits := fun v d => pretty v +:+ "e-" +:+ pretty d;
isAddress := fun s => (String.length s =? 42)%nat;
trim := fun s => s;
Number_of_string := fun s => Js.Number_of_Z (Z.of_nat (String.length s));
parseInt := fun s => Some (Z.of_nat (String.length s));
Date_getTime := fun _ => Some 0;
String_of_error := fun e => "Error: " +:+ err_message e
|}.

Definition env : Env := {|
VITE_INVOICE_CONTRACT_ADDRESS_BASE_SEPOLIA := Some "0xPayrollBase";
VITE_BASEPAY_MORPH := Some "0xPayrollMorph";
VITE_CROSSCHAIN_AUTOMATION_BASE_SEPOLIA := Some "0xAutomationBase";
VITE_CROSSCHAIN_AUTOMATION_MORPH_HOLESKY := Some "0xAutomationMorph"
|}.

Definition alice : string := "0xA11CE00000000000000000000000000000000001".
Definition bob : string := "0xB0B0000000000000000000000000000000000002".
Definition carol : string := "0xCA20100000000000000000000000000000000003".

Definition noInvoice : RawInvoice := {|
inv0 := ZeroAddress; inv1 := ZeroAddress; inv2 := 0; inv3 := 0; inv4 := false;
inv5 := EmptyString; inv6 := EmptyString; inv7 := EmptyString; inv8 := 0
|}.

(** An unpaid invoice of 1 USDC to [bob]. *)
Definition usdcInvoice : RawInvoice := {|
inv0 := bob; inv1 := USDC_ADDRESS; inv2 := 1000000; inv3 := 0; inv4 := false;
inv5 := "memo"; inv6 := EmptyString; inv7 := "one dollar"; inv8 := 0
|}.

Definition world0 : World := {|
w_chain := 84532;
w_code := "0x6080";
w_invoice := fun _ _ => Some noInvoice;
w_allowance := 0;
w_pending := None;
w_balance := 5000000;
w_payments := [];
w_owner := carol;
w_controllers := [];
w_now := 1700000000000;
w_rejected := [];
w_nonce := 0
|}.

Definition with_chain (n : Z) (w : World) : World :=
{| w_chain := n; w_code := w_code w; w_invoice := w_invoice w;
   w_allowance := w_allowance w; w_pending := w_pending w;
   w_balance := w_balance w; w_payments := w_payments w;
   w_owner := w_owner w; w_controllers := w_controllers w;
   w_now := w_now w; w_rejected := w_rejected w; w_nonce := w_nonce w |}.


Definition with_invoices (f : Provider -> string -> option RawInvoice)
  (w : World) : World :=
{| w_chain := w_chain w; w_code := w_code w; w_invoice := f;
   w_allowance := w_allowance w; w_pending := w_pending w;
   w_balance := w_balance w; w_payments := w_payments w;
   w_owner := w_owner w; w_controllers := w_controllers w;
   w_now := w_now w; w_rejected := w_rejected w; w_nonce := w_nonce w |}.

Definition with_payments (l : list (string * PaymentDetails))
  (rejected : list string) (w : World) : World :=
{| w_chain := w_chain w; w_code := w_code w; w_invoice := w_invoice w;
   w_allowance := w_allowance w; w_pending := w_pending w;
   w_balance := w_balance w; w_payments := l;
   w_owner := w_owner w; w_controllers := w_controllers w;
   w_now := w_now w; w_rejected := rejected; w_nonce := w_nonce w |}.

(** The checkout page opened on invoice [0xabc] with the wallet of
    [alice] on chain [chain]. *)
Definition checkout (chain : Z) (inv : option InvoiceData) : InvoiceCheckout.Ctx :=
{| InvoiceCheckout.c_hash := Some "0xabc";
   InvoiceCheckout.c_address := Some alice;
   InvoiceCheckout.c_walletClient := true;
   InvoiceCheckout.c_chainId := chain;
   InvoiceCheckout.c_window_ethereum := true;
   InvoiceCheckout.c_contract := true;
   InvoiceCheckout.c_invoiceData := inv |}.

(** The automation page of [account] on chain [chain]. *)
Definition automation (account : string) (chain : Z)
  (scheduled : list PaymentData) (executable : gset string)
  : PaymentAutomation.Ctx :=
{| PaymentAutomation.c_isConnected := true;
   PaymentAutomation.c_address := Some account;
   PaymentAutomation.c_chainId := chain;
   PaymentAutomation.c_walletClient := true;
   PaymentAutomation.c_amount := "III";
   PaymentAutomation.c_recipients := [bob];
   PaymentAutomation.c_scheduled := false;
   PaymentAutomation.c_scheduledDate := EmptyString;
   PaymentAutomation.c_scheduledPayments := scheduled;
   PaymentAutomation.c_executablePayments := executable |}.

(** Two payments of [alice], both due in 2023. *)
Definition details0 : PaymentDetails :=
{| pd_creator := alice; pd_totalAmount := 2000000;
   pd_amountPerRecipient := 1000000; pd_scheduledTime := 1690000000;
   pd_executed := false |}.

Definition details1 : PaymentDetails :=
{| pd_creator := alice; pd_totalAmount := 3000000;
   pd_amountPerRecipient := 3000000; pd_scheduledTime := 1695000000;
   pd_executed := false |}.

Definition details2 : PaymentDetails :=
{| pd_creator := alice; pd_totalAmount := 1000000;
   pd_amountPerRecipient := 1000000; pd_scheduledTime := 1680000000;
   pd_executed := true |}.

Definition payment (i : string) (d : PaymentDetails) : PaymentData :=
{| id_ := i; creator := pd_creator d;
   totalAmount := pretty (pd_totalAmount d); recipients := [];
   amountPerRecipient := pretty (pd_amountPerRecipient d);
   scheduledTime := pd_scheduledTime d; executed := pd_executed d |}.

(** The same configuration without the Morph contract address. *)
Definition env_no_morph : Env := {|
VITE_INVOICE_CONTRACT_ADDRESS_BASE_SEPOLIA := Some "0xPayrollBase";
VITE_BASEPAY_MORPH := None;
VITE_CROSSCHAIN_AUTOMATION_BASE_SEPOLIA := Some "0xAutomationBase";
VITE_CROSSCHAIN_AUTOMATION_MORPH_HOLESKY := Some "0xAutomationMorph"
|}.

(** The invoice exists on Morph Holesky only. *)
Definition onMorphOnly (p : Provider) (contract : string) : option RawInvoice :=
if Js.streq contract "0xPayrollMorph" then Some usdcInvoice else Some noInvoice.

(** Three payments of [alice] on the contract; the execution of payment
    0 is refused. *)
Definition world_pay : World :=
with_payments [("0", details0); ("1", details1); ("2", details2)] ["0"] world0.

Definition pay0 : PaymentData := payment "0" details0.
Definition pay1 : PaymentData := payment "1" details1.

Definition alice_page : PaymentAutomation.Ctx :=
automation alice 84532 [pay0; pay1] ({[ "0" ]} ∪ {[ "1" ]}).

Definition bob_page : PaymentAutomation.Ctx :=
automation bob 84532 [pay0; pay1] ∅.

(** Two browsers that agree on the last 30 days and on date labels and
    differ in the current week. *)
Definition label (d : Js.Date) (part : Dashboard.LabelPart) : string :=
match part with
| Dashboard.WeekdayShort => "day"
| Dashboard.DayNumeric => default "NaN" (pretty <$> Js.getUTCDate d)
| Dashboard.MonthShort => default "NaN" (pretty <$> Js.getUTCMonth d)
end.

Definition hostA : Dashboard.Host := {|
Dashboard.getCurrentWeekDays := [Js.mkDate 1699833600000];
Dashboard.getPreviousWeekDays := [];
Dashboard.getLast30Days := [Js.mkDate 1699920000000; Js.mkDate 1700006400000];
Dashboard.getLast12Months := [];
Dashboard.toLocaleDateString := label
|}.

Definition hostB : Dashboard.Host := {|
Dashboard.getCurrentWeekDays := [];
Dashboard.getPreviousWeekDays := [];
Dashboard.getLast30Days := [Js.mkDate 1699920000000; Js.mkDate 1700006400000];
Dashboard.getLast12Months := [];
Dashboard.toLocaleDateString := label
|}.

(** A paid invoice of 2.5 USDC, paid on 2023-11-14 (UTC). *)
Definition paidInvoice : Dashboard.Invoice := {|
Dashboard.i_merchant := bob; Dashboard.i_token := USDC_ADDRESS;
Dashboard.i_amount := 2500000; Dashboard.i_dueBy := 0;
Dashboard.i_isPaid := true; Dashboard.i_memo := "memo";
Dashboard.i_logoURI := EmptyString; Dashboard.i_description := "paid";
Dashboard.i_paidAt := 1699999999; Dashboard.i_hash := "0xabc"
|}.

End Sim.

(** ** Statements about traces *)


(** The write calls of [CreateInvoice.handleSubmit]: only [createInvoice],
    with the amount [amountWei]. *)
Definition createInvoiceCall (lib : Lib) (fd : CreateInvoice.InvoiceFormData)
  (tx : Tx) : Prop :=
  match tx with
  | CreateInvoiceTx _ _ tok wei _ _ _ _ =>
      CreateInvoice.amountWei lib fd = Ok wei
      /\ tok = Js.or_else (Some (CreateInvoice.f_token fd)) USDC_ADDRESS
  | _ => False
  end.

(** The write calls of [PaymentAutomation.submitPayment]: an approval or
    the payment, for the network token and the entered amount scaled by
    the decimals configured for that token. *)
Definition automationCall (lib : Lib) (env : Env) (c : PaymentAutomation.Ctx)
  (tx : Tx) : Prop :=
  let tk := PaymentAutomation.token (PaymentAutomation.cn env c) in
  match tx with
  | Approve tok _ amt
  | SchedulePaymentWithToken _ tok amt _ _
  | ExecutePaymentNowWithToken _ tok amt _ =>
      tok = tk_address tk
      /\ parseUnits lib (PaymentAutomation.c_amount c) (tk_decimals tk) = Ok amt
  | _ => False
  end.


(** A request that only reads. *)
Definition is_read (e : Event) : Prop :=
  match e with Read _ _ => True | _ => False end.


Section LoadedPayments.
Context {W : Type} (O : Oracle W) (lib : Lib) (env : Env)
  (c : PaymentAutomation.Ctx).

(** The payment that the fetch of id [i] contributes at world [w]: the
    details and recipients as read, when both reads succeed and the
    creator is the connected account. *)
Definition fetched (w : W) (i : Z) : option PaymentData :=
  let contract := PaymentAutomation.contractAddress (PaymentAutomation.cn env c) in
  match o_getPaymentDetails O Transport contract (pretty i) w,
        o_getPaymentRecipients O Transport contract (pretty i) w with
  | Ok d, Ok r =>
      if PaymentAutomation.sameAddress (pd_creator d) (PaymentAutomation.addr c)
      then Some (PaymentAutomation.mkPayment lib env c i d r)
      else None
  | _, _ => None
  end.

(** The loaded payments, in id order, for a payment count [n]. *)
Definition loaded (w : W) (n : Z) : list PaymentData :=
  omap (fetched w) (seqZ 0 n).

(** What [canExecutePayment] answers for a payment id at world [w], once
    the signer is available. *)
Definition mayExecute (w : W) (pid : string) : bool :=
  let contract := PaymentAutomation.contractAddress (PaymentAutomation.cn env c) in
  let a := PaymentAutomation.addr c in
  match o_getPaymentDetails O Transport contract pid w with
  | Ok d =>
      if PaymentAutomation.sameAddress (pd_creator d) a then true
      else
        match o_owner O Transport contract w with
        | Ok o =>
            if PaymentAutomation.sameAddress o a then true
            else
              match o_authorizedControllers O Transport contract a w with
              | Ok b => b
              | Err _ => false
              end
        | Err _ => false
        end
  | Err _ => false
  end.

(** Whether [getSigner] succeeds at world [w]. *)
Definition signerAvailable (w : W) : bool :=
  PaymentAutomation.c_walletClient c
  && Js.truthy (PaymentAutomation.c_address c)
  && (PaymentAutomation.c_chainId c
      =? PaymentAutomation.chainId (PaymentAutomation.cn env c))
  && match o_getSigner O Transport w with Ok _ => true | Err _ => false end.

End LoadedPayments.

(** The state updates of a trace, in order. *)
Definition updates (t : list Event) : list StateUpdate :=
  omap (fun e => match e with Set_ u => Some u | _ => None end) t.

Section ExecutableSet.
Context {W : Type} (O : Oracle W) (env : Env) (c : PaymentAutomation.Ctx).

(** The answer of [canExecutePayment] at world [w]. *)
Definition canExecuteAt (w : W) (pid : string) : bool :=
  PaymentAutomation.c_isConnected c
  && Js.truthy (PaymentAutomation.c_address c)
  && signerAvailable O env c w
  && mayExecute O env c w pid.

(** The set that the loop of [checkExecutablePayments] builds at [w]. *)
Fixpoint executableAt (w : W) (payments : list PaymentData) (acc : gset string)
  : gset string :=
  match payments with
  | [] => acc
  | p :: rest =>
      executableAt w rest
        (if PaymentAutomation.overdueAt (o_now O w) (scheduledTime p)
            && canExecuteAt w (id_ p)
         then {[ id_ p ]} ∪ acc else acc)
  end.

End ExecutableSet.

Section SecondaryLookup.
Context {W : Type} (O : Oracle W).

(** A network whose contract address is configured. *)
Definition configured (net : InvoiceCheckout.NetworkConfig) : bool :=
  Js.truthy (InvoiceCheckout.contractAddress net).

(** The secondary lookup of [h] on [net]. *)
Definition lookupOn (h : string) (net : InvoiceCheckout.NetworkConfig)
  : Provider * Call :=
  (DirectRpc (InvoiceCheckout.testRpcUrl (InvoiceCheckout.chainId net)),
   Invoices (default EmptyString (InvoiceCheckout.contractAddress net)) h).

(** Whether the secondary lookup finds the invoice on [net] at world [w]:
    the network is configured, the read succeeds and the merchant is not
    the zero address. *)
Definition foundOn (h : string) (w : W) (net : InvoiceCheckout.NetworkConfig)
  : bool :=
  configured net
  && match o_invoices O
             (DirectRpc (InvoiceCheckout.testRpcUrl (InvoiceCheckout.chainId net)))
             (default EmptyString (InvoiceCheckout.contractAddress net)) h w with
     | Ok inv => negb (InvoiceCheckout.isZeroMerchant (inv0 inv))
     | Err _ => false
     end.

(** The networks that the loop looks at: the configured ones, up to and
    including the first on which the invoice is found. *)
Fixpoint visited (h : string) (w : W) (nets : list InvoiceCheckout.NetworkConfig)
  : list InvoiceCheckout.NetworkConfig :=
  match nets with
  | [] => []
  | net :: rest =>
      if configured net then
        if foundOn h w net then [net] else net :: visited h w rest
      else visited h w rest
  end.

End SecondaryLookup.

(** The other registered networks, in table order. *)
Definition otherNetworks (env : Env) (cn : InvoiceCheckout.NetworkConfig)
  : list InvoiceCheckout.NetworkConfig :=
  List.filter
    (fun net => negb (InvoiceCheckout.chainId net =? InvoiceCheckout.chainId cn))
    (Js.values (InvoiceCheckout.NETWORK_CONFIGS env)).

(** An event that is a [tx.wait()]. *)
Definition is_wait (e : Event) : bool :=
  match e with Wait _ => true | _ => false end.

(** The payment call of [submitPayment] for the scaled amount. *)
Definition paymentCall (lib : Lib) (env : Env) (c : PaymentAutomation.Ctx)
  (amountRaw : Z) : Tx :=
  let cn := PaymentAutomation.cn env c in
  if PaymentAutomation.c_scheduled c then
    SchedulePaymentWithToken (PaymentAutomation.contractAddress cn)
      (tk_address (PaymentAutomation.token cn)) amountRaw
      (PaymentAutomation.validRecipients lib c)
      ((fun ms => ms / 1000)
         <$> Date_getTime lib (PaymentAutomation.c_scheduledDate c))
  else
    ExecutePaymentNowWithToken (PaymentAutomation.contractAddress cn)
      (tk_address (PaymentAutomation.token cn)) amountRaw
      (PaymentAutomation.validRecipients lib c).

(** [writes m Q P]: every write call that [m] issues satisfies [P], and a
    normal result of [m] satisfies [Q]. *)
Definition writes {W A} (m : M W A) (Q : A -> Prop) (P : Tx -> Prop) : Prop :=
  forall w, (forall a, (m w).1.1 = Ok a -> Q a) /\ Forall P (sends (m w).2).

(** [quiet m]: [m] leaves the world as it is and its trace holds read
    requests only. *)
Definition quiet {W A} (m : M W A) : Prop :=
  forall w, (m w).1.2 = w /\ Forall is_read (m w).2.

(** ** Further functions of the pages *)

(** pages/paymentAutomation.tsx: the recipient fields of the form. Each
    function gives the next value of the [recipients] state. *)
Module AutomationForm.

(** [newRecipients[idx] = value] on a copy. For an index past the end
    JavaScript leaves holes in the array; that array is not a list of
    strings and is [None] here (the page only passes the index of a
    rendered field). *)
Definition handleRecipientChange (idx : nat) (value : string)
  (recipients : list string) : option (list string) :=
if (idx <? length recipients)%nat then Some (<[idx := value]> recipients)
else if (idx =? length recipients)%nat then Some (recipients ++ [value])
else None.

Definition addRecipient (recipients : list string) : list string :=
recipients ++ [EmptyString].

(** [recipients.filter((_, i) => i !== idx)], unless one field is left. *)
Definition removeRecipient (idx : nat) (recipients : list string) : list string :=
if (length recipients =? 1)%nat then recipients
else delete idx recipients.

End AutomationForm.

(** pages/paymentAutomation.tsx: manual execution and the authorization
    status. *)
Module AutomationExecute.

Section Flows.
Context {W : Type} (O : Oracle W) (lib : Lib) (env : Env)
  (c : PaymentAutomation.Ctx).

(** [Date.now() / 1000 < Number(scheduledTime)] *)
Definition notYetDue (nowMs scheduledTime : Z) : bool :=
Js.fltb (Js.fdiv (Js.Number_of_Z nowMs) (Js.Number_of_Z 1000))
  (Js.Number_of_Z scheduledTime).

(** The toast of the [catch] of [executeScheduledPayment]. *)
Definition executeFailed (err : JsError) : M W unit :=
match err_code err with
| NumCode 4001 => toast TWarn "Transaction cancelled by user"
| NumCode (-32603) =>
    toast TError ("Execution failed: "
      +:+ match err_data_message err with
          | Some m => Js.or_else (Some m) (err_message err)
          | None => err_message err
          end)
| StrCode "CALL_EXCEPTION" =>
    toast TError "Execution failed: You may not be authorized to execute this payment or the payment requirements are not met"
| _ =>
    toast TError ("Execution failed: "
      +:+ match err_reason err with
          | Some r => if Js.truthy (Some r) then r
                      else Js.or_else (Some (err_message err)) "Unknown error"
          | None => Js.or_else (Some (err_message err)) "Unknown error"
          end)
end.

(** The body of the [try] of [executeScheduledPayment]; the result says
    whether control reaches the end of the function ([false] is an early
    [return]). *)
Definition executeBody (paymentId : string) : M W bool :=
canExecute <~ PaymentAutomation.canExecutePayment O env c paymentId ;;
if negb canExecute then
  toast TError "You are not authorized to execute this payment. Only the payment creator, contract owner, or authorized controllers can execute it." ;;
  set_ (SetIsLoading false) ;;
  ret false
else
  PaymentAutomation.getSigner O env c ;;
  paymentDetails <~ getPaymentDetails O Transport
                      (PaymentAutomation.contractAddress (PaymentAutomation.cn env c))
                      paymentId ;;
  if pd_executed paymentDetails then
    toast TError "Payment has already been executed" ;;
    set_ (SetIsLoading false) ;;
    ret false
  else
    n <~ now O ;;
    if notYetDue n (pd_scheduledTime paymentDetails) then
      toast TError "Payment time has not been reached yet" ;;
      set_ (SetIsLoading false) ;;
      ret false
    else
      toast TInfo "Executing scheduled payment..." ;;
      tx <~ send O (Signer Transport)
              (ExecuteScheduledPayment
                 (PaymentAutomation.contractAddress (PaymentAutomation.cn env c))
                 paymentId) ;;
      toast TInfo "Transaction sent, waiting for confirmation..." ;;
      wait O tx ;;
      toast TSuccess "Payment executed successfully!" ;;
      PaymentAutomation.loadPaymentData O lib env c ;;
      ret true.

Definition executeScheduledPayment (paymentId : string) : M W unit :=
if negb (PaymentAutomation.c_isConnected c)
   || negb (Js.truthy (PaymentAutomation.c_address c))
then ret tt
else
  set_ (SetIsLoading true) ;;
  go_on <~ try_catch (executeBody paymentId)
             (fun err => executeFailed err ;; ret true) ;;
  if go_on then set_ (SetIsLoading false) else ret tt.

(** [loadAuthorizationStatus]. The result is the pair that the function
    leaves in the states [isOwner] and [isAuthorized]; [None] when the
    function returns before touching them. *)
Definition loadAuthorizationStatus : M W (option (bool * bool)) :=
if negb (PaymentAutomation.c_isConnected c)
   || negb (Js.truthy (PaymentAutomation.c_address c))
   || negb (Js.truthy (Some (PaymentAutomation.contractAddress
                               (PaymentAutomation.cn env c))))
   || negb (PaymentAutomation.c_walletClient c)
then ret None
else
  try_catch
    (PaymentAutomation.getSigner O env c ;;
     owner_ <~ owner O Transport
                 (PaymentAutomation.contractAddress (PaymentAutomation.cn env c)) ;;
     let userIsOwner :=
       PaymentAutomation.sameAddress owner_ (PaymentAutomation.addr c) in
     userIsAuthorized <~ authorizedControllers O Transport
                           (PaymentAutomation.contractAddress
                              (PaymentAutomation.cn env c))
                           (PaymentAutomation.addr c) ;;
     ret (Some (userIsOwner, userIsAuthorized || userIsOwner)))
    (fun _ => ret (Some (false, false))).

End Flows.

End AutomationExecute.

(** pages/transactions.tsx *)
Module Transactions.

Definition CREATE_INVOICE_SELECTOR : string := "0x09f6d5e8".
Definition PAY_INVOICE_SELECTOR : string := "0xf8a8a076".

(** [VITE_INVOICE_CONTRACT_ADDRESS_BASE_SEPOLIA?.toLowerCase()] *)
Definition PAYROLL_CONTRACT_ADDRESS (env : Env) : option string :=
Js.toLowerCase <$> VITE_INVOICE_CONTRACT_ADDRESS_BASE_SEPOLIA env.

(** The fields of a listed transaction that the classification reads; a
    missing [to] or [from] is [None]. *)
Record Transaction := {
tx_from : option string;
tx_to : option string;
tx_input : string
}.

Inductive TxType := CreatedInvoice | PaidInvoice | Received | Sent | Other.

(** [s.startsWith(p)] *)
Definition startsWith (s p : string) : bool := String.prefix p s.

(** [a === b] where either side may be undefined. *)
Definition same (a b : option string) : bool := bool_decide (a = b).

Definition getTxType (env : Env) (tx : Transaction) (wallet : string) : TxType :=
let to := Js.toLowerCase <$> tx_to tx in
let from := Js.toLowerCase <$> tx_from tx in
if same to (PAYROLL_CONTRACT_ADDRESS env)
   && startsWith (tx_input tx) CREATE_INVOICE_SELECTOR then CreatedInvoice
else if same to (PAYROLL_CONTRACT_ADDRESS env)
        && startsWith (tx_input tx) PAY_INVOICE_SELECTOR then PaidInvoice
else if same to (Some wallet) && negb (same from (PAYROLL_CONTRACT_ADDRESS env))
then Received
else if same from (Some wallet) && negb (same to (PAYROLL_CONTRACT_ADDRESS env))
then Sent
else Other.

(** The type shown for a row: the wallet is [address?.toLowerCase() || '']. *)
Definition rowType (env : Env) (tx : Transaction) (address : option string)
  : TxType :=
getTxType env tx
  (Js.or_else (Js.toLowerCase <$> address) EmptyString).

End Transactions.

(** dashboard.tsx: the two effects that load the balance and the invoices
    of the connected account. Both only read from the chain; a run is
    described by the requests it makes and the state updates it performs,
    in order, for the answers that the chain gives in one state [w]. *)
Module DashboardFetch.

Inductive Request :=
| ReqNetwork
| ReqCode (addr : string)
| ReqBalance (account : string)
| ReqBalanceOf (tok account : string)
| ReqDecimals (tok : string)
| ReqInvoicesByMerchant (contract merchant : string)
| ReqInvoice (contract hash : string).

(** [null] is [None] in the two counters. *)
Inductive Update :=
| SetLoadingBalance (b : bool)
| SetTokenBalance (s : string)
| SetLoadingInvoices (b : bool)
| SetActiveInvoices (n : option nat)
| SetTotalInvoices (n : option nat)
| SetInvoiceList (l : list Dashboard.Invoice).

Inductive Event :=
| Asked (p : Provider) (r : Request)
| Did (u : Update).

(** The answers that the oracle of the other pages does not give. *)
Record Extra (W : Type) := {
o_getBalance : Provider -> string -> W -> Res Z;
o_getInvoicesByMerchant : Provider -> string -> string -> W -> Res (list string);
(* typeof Pay_roll.getInvoicesByMerchant === 'function' *)
hasGetInvoicesByMerchant : bool
}.
Arguments o_getBalance {W}.
Arguments o_getInvoicesByMerchant {W}.
Arguments hasGetInvoicesByMerchant {W}.

(** What the component closes over at a render. *)
Record Ctx := {
c_address : option string;
c_chainId : Z;
c_window_ethereum : bool
}.

(** A computation that can throw, with the trace of what it did. *)
Definition R (A : Type) : Type := Res A * list Event.

Definition ret {A} (a : A) : R A := (Ok a, []).

Definition bind {A B} (m : R A) (k : A -> R B) : R B :=
match m with
| (Ok a, t1) => let '(r, t2) := k a in (r, t1 ++ t2)
| (Err e, t1) => (Err e, t1)
end.

Definition try_catch {A} (m : R A) (h : JsError -> R A) : R A :=
match m with
| (Ok a, t1) => (Ok a, t1)
| (Err e, t1) => let '(r, t2) := h e in (r, t1 ++ t2)
end.

Definition finally {A} (m : R A) (f : R unit) : R A :=
let '(r, t1) := m in (r, t1 ++ snd f).

Definition ask {A} (p : Provider) (r : Request) (ans : Res A) : R A :=
(ans, [Asked p r]).

Definition did (u : Update) : R unit := (Ok tt, [Did u]).

Notation "x <- m ;; k" := (bind m (fun x => k))
  (at level 100, m at next level, right associativity).
Notation "m ;;; k" := (bind m (fun _ => k))
  (at level 100, right associativity).

(** [ethers.formatEther] is [formatUnits] at 18 decimals. *)
Definition formatEther (lib : Lib) (v : Z) : string := formatUnits lib v 18.

(** The provider of the token and invoice reads when the injected
    provider reports [network]: a direct endpoint exists for Morph Holesky
    only. *)
Definition contractProvider (network : Z) (cn : Dashboard.NetworkConfig)
  : Provider :=
if negb (network =? Dashboard.chainId cn) then
  if Dashboard.chainId cn =? 2810
  then DirectRpc (Some "https://rpc-quicknode-holesky.morphl2.io")
  else Injected
else Injected.

(** [Promise.all] over the hashes: every request is issued; one rejection
    rejects the whole. *)
Fixpoint all {A} (l : list (R A)) : R (list A) :=
match l with
| [] => ret []
| m :: rest =>
    let '(r, t) := m in
    let '(rs, ts) := all rest in
    (match r, rs with
     | Ok a, Ok l' => Ok (a :: l')
     | Err e, _ => Err e
     | _, Err e => Err e
     end, t ++ ts)
end.

(** [Promise.all([a, b])]: both requests are issued. *)
Definition all2 {A B} (a : R A) (b : R B) : R (A * B) :=
let '(ra, ta) := a in
let '(rb, tb) := b in
(match ra, rb with
 | Ok x, Ok y => Ok (x, y)
 | Err e, _ => Err e
 | _, Err e => Err e
 end, ta ++ tb).

Section Flows.
Context {W : Type} (O : Oracle W) (X : Extra W) (lib : Lib) (env : Env)
  (c : Ctx) (w : W).

Definition cn : Dashboard.NetworkConfig :=
Dashboard.currentNetwork env (c_chainId c).
Definition addr : string := default EmptyString (c_address c).
Definition tok : string := tk_address (Dashboard.token cn).

(** The body of the [try] of [fetchBalance]. *)
Definition balanceBody : R unit :=
network <- ask Injected ReqNetwork (o_getNetwork O Injected w) ;;
if negb (network =? Dashboard.chainId cn)
   && negb (c_chainId c =? Dashboard.chainId cn)
then did (SetTokenBalance "Network mismatch")
else
  tokenFound <-
    (if network =? Dashboard.chainId cn then
       code <- ask Injected (ReqCode tok) (o_getCode O Injected tok w) ;;
       if Js.streq code "0x" then
         ethBalance <- ask Injected (ReqBalance addr)
                         (o_getBalance X Injected addr w) ;;
         did (SetTokenBalance (formatEther lib ethBalance
                                 +:+ " ETH (USDT not found)")) ;;;
         ret false
       else ret true
     else ret true) ;;
  if negb tokenFound then ret tt
  else
    let p := contractProvider network cn in
    bd <- all2 (ask p (ReqBalanceOf tok addr) (o_balanceOf O p tok addr w))
            (try_catch (ask p (ReqDecimals tok) (o_decimals O p tok w))
               (fun _ => ret (tk_decimals (Dashboard.token cn)))) ;;
    did (SetTokenBalance
           (formatUnits lib (fst bd) (snd bd)
            +:+ " " +:+ tk_symbol (Dashboard.token cn))).

Definition fetchBalance : R unit :=
if negb (Js.truthy (c_address c)) || negb (c_window_ethereum c) then ret tt
else
  did (SetLoadingBalance true) ;;;
  finally
    (try_catch balanceBody
       (fun _ => did (SetTokenBalance "Error loading balance")))
    (did (SetLoadingBalance false)).

(** The three updates that empty the invoice panel. *)
Definition noInvoices : R unit :=
did (SetActiveInvoices (Some 0%nat)) ;;;
did (SetTotalInvoices (Some 0%nat)) ;;;
did (SetInvoiceList []).

Definition contract : string :=
default EmptyString (Dashboard.contractAddress cn).

(** The inner [try] of [fetchActiveInvoices]. *)
Definition listInvoices (p : Provider) : R unit :=
(if negb (hasGetInvoicesByMerchant X)
 then (Err (mkError "Function not available in this contract version"), [])
 else ret tt) ;;;
invoiceHashes <- ask p (ReqInvoicesByMerchant contract addr)
                   (o_getInvoicesByMerchant X p contract addr w) ;;
invoices_ <- all (map (fun h =>
                bind (ask p (ReqInvoice contract h) (o_invoices O p contract h w))
                  (fun inv => ret (Dashboard.mapInvoiceWithHash h inv)))
              invoiceHashes) ;;
let active := length (List.filter (fun i => negb (Dashboard.i_isPaid i)) invoices_) in
let total := length invoices_ in
did (SetActiveInvoices (Some active)) ;;;
did (SetTotalInvoices (Some total)) ;;;
did (SetInvoiceList invoices_).

(** The body of the outer [try] of [fetchActiveInvoices]; [false] is an
    early [return]. *)
Definition invoicesBody : R bool :=
network <- ask Injected ReqNetwork (o_getNetwork O Injected w) ;;
if negb (network =? Dashboard.chainId cn)
   && negb (c_chainId c =? Dashboard.chainId cn)
then
  noInvoices ;;; did (SetLoadingInvoices false) ;;; ret false
else
  let p := contractProvider network cn in
  code <- ask p (ReqCode contract) (o_getCode O p contract w) ;;
  if Js.streq code "0x" then
    noInvoices ;;; did (SetLoadingInvoices false) ;;; ret false
  else
    try_catch (listInvoices p) (fun _ => noInvoices) ;;;
    ret true.

Definition fetchActiveInvoices : R unit :=
if negb (Js.truthy (c_address c)) || negb (c_window_ethereum c)
   || negb (Js.truthy (Dashboard.contractAddress cn))
then ret tt
else
  did (SetLoadingInvoices true) ;;;
  go_on <- try_catch invoicesBody
             (fun _ =>
                did (SetActiveInvoices None) ;;;
                did (SetTotalInvoices None) ;;;
                did (SetInvoiceList []) ;;;
                ret true) ;;
  if go_on then did (SetLoadingInvoices false) else ret tt.

End Flows.

End DashboardFetch.

(** [still m]: [m] leaves the world as it is and issues no write call. *)
Definition still {W A} (m : M W A) : Prop :=
  forall w, (m w).1.2 = w /\ sends (m w).2 = [].

(** The last state update of a trace. *)
Definition lastUpdate (t : list Event) : option StateUpdate :=
  last (updates t).

(** The input checks of [submitPayment], made before any request. *)
Definition inputInvalid (lib : Lib) (env : Env) (c : PaymentAutomation.Ctx) : bool :=
  negb (PaymentAutomation.c_isConnected c)
  || negb (Js.truthy (PaymentAutomation.c_address c))
  || negb (Js.truthy (Some (PaymentAutomation.c_amount c)))
  || Js.isNaN (Number_of_string lib (PaymentAutomation.c_amount c))
  || Js.fleb (Number_of_string lib (PaymentAutomation.c_amount c)) (S754_zero false)
  || (length (PaymentAutomation.validRecipients lib c) =? 0)%nat
  || (0 <? length (PaymentAutomation.invalidAddresses lib c))%nat
  || negb (Js.truthy (Some (PaymentAutomation.contractAddress
                              (PaymentAutomation.cn env c)))).

Definition is_allowance_read (r : Provider * Call) : bool :=
  match r with (_, Allowance _ _ _) => true | _ => false end.

(** A listed transaction with its two addresses in lower case. *)
Definition lowerAddresses (tx : Transactions.Transaction)
  : Transactions.Transaction :=
  {| Transactions.tx_from := Js.toLowerCase <$> Transactions.tx_from tx;
     Transactions.tx_to := Js.toLowerCase <$> Transactions.tx_to tx;
     Transactions.tx_input := Transactions.tx_input tx |}.

(** One change of the [recipients] state of the automation form: an edit
    of a rendered field, a field added, a field removed, or the reset
    after a successful submission. *)
Inductive FormStep : list string -> list string -> Prop :=
| step_change idx value l l' :
    AutomationForm.handleRecipientChange idx value l = Some l' ->
    FormStep l l'
| step_add l : FormStep l (AutomationForm.addRecipient l)
| step_remove idx l : FormStep l (AutomationForm.removeRecipient idx l)
| step_reset l : FormStep l [EmptyString].

(** The states of [recipients] that the form can reach. *)
Definition reachableRecipients (l : list string) : Prop :=
  rtc FormStep [EmptyString] l.

(** [clears u m]: the handler [m] never throws, and if it touches the
    state of the page at all, its last update is [u]. *)
Definition clears {W} (u : StateUpdate) (m : M W unit) : Prop :=
  forall w, (m w).1.1 = Ok tt
            /\ (updates (m w).2 = [] \/ lastUpdate (m w).2 = Some u).

(** [ends u m]: [m] never throws and its last state update is [u]. *)
Definition ends {W} (u : StateUpdate) (m : M W unit) : Prop :=
  forall w, (m w).1.1 = Ok tt /\ lastUpdate (m w).2 = Some u.

(** [safe m]: [m] never throws. *)
Definition safe {W} (m : M W unit) : Prop :=
  forall w, (m w).1.1 = Ok tt.

(** The state updates and the requests of a run on the dashboard, in
    order. *)
Definition dashUpdates (t : list DashboardFetch.Event)
  : list DashboardFetch.Update :=
  omap (fun e => match e with DashboardFetch.Did u => Some u | _ => None end) t.

Definition dashRequests (t : list DashboardFetch.Event)
  : list (Provider * DashboardFetch.Request) :=
  omap (fun e => match e with
                 | DashboardFetch.Asked p r => Some (p, r)
                 | _ => None
                 end) t.

(** The number of unpaid invoices of a list. *)
Definition unpaid (l : list Dashboard.Invoice) : nat :=
  length (List.filter (fun i => negb (Dashboard.i_isPaid i)) l).

(** The only direct endpoint of the dashboard. *)
Definition morphEndpoint : Provider :=
  DirectRpc (Some "https://rpc-quicknode-holesky.morphl2.io").

(** Where a request of the dashboard may go: to the injected provider;
    or, for a request other than the chain id, to the Morph Holesky
    endpoint, when the wallet library reports Morph Holesky and the
    injected provider reports another chain. *)
Definition dashboardSource {W} (O : Oracle W) (c : DashboardFetch.Ctx) (w : W)
    (pr : Provider * DashboardFetch.Request) : Prop :=
  pr.1 = Injected
  \/ pr.1 = morphEndpoint
     /\ pr.2 <> DashboardFetch.ReqNetwork
     /\ DashboardFetch.c_chainId c = 2810
     /\ exists network, o_getNetwork O Injected w = Ok network
                        /\ network <> 2810.

(** ** Further inputs for the simulated chain *)
Module SimMore.

(** The automation page before a wallet is connected. *)
Definition offline_page : PaymentAutomation.Ctx :=
{| PaymentAutomation.c_isConnected := false;
   PaymentAutomation.c_address := None;
   PaymentAutomation.c_chainId := 84532;
   PaymentAutomation.c_walletClient := false;
   PaymentAutomation.c_amount := "III";
   PaymentAutomation.c_recipients := [Sim.bob];
   PaymentAutomation.c_scheduled := false;
   PaymentAutomation.c_scheduledDate := EmptyString;
   PaymentAutomation.c_scheduledPayments := [];
   PaymentAutomation.c_executablePayments := ∅ |}.

Definition with_balance (b : Z) (w : Sim.World) : Sim.World :=
{| Sim.w_chain := Sim.w_chain w; Sim.w_code := Sim.w_code w;
   Sim.w_invoice := Sim.w_invoice w;
   Sim.w_allowance := Sim.w_allowance w; Sim.w_pending := Sim.w_pending w;
   Sim.w_balance := b; Sim.w_payments := Sim.w_payments w;
   Sim.w_owner := Sim.w_owner w; Sim.w_controllers := Sim.w_controllers w;
   Sim.w_now := Sim.w_now w; Sim.w_rejected := Sim.w_rejected w;
   Sim.w_nonce := Sim.w_nonce w |}.

(** A wallet holding 1 USDC. *)
Definition poor_world : Sim.World := with_balance 1000000 Sim.world0.

(** A chain whose token never records an approval: the allowance reads
    as zero whatever was approved. *)
Definition stubborn : Oracle Sim.World := {|
o_getNetwork := o_getNetwork Sim.oracle;
o_getCode := o_getCode Sim.oracle;
o_getSigner := o_getSigner Sim.oracle;
o_invoices := o_invoices Sim.oracle;
o_allowance := fun _ _ _ _ _ => Ok 0;
o_balanceOf := o_balanceOf Sim.oracle;
o_decimals := o_decimals Sim.oracle;
o_nextPaymentId := o_nextPaymentId Sim.oracle;
o_getPaymentDetails := o_getPaymentDetails Sim.oracle;
o_getPaymentRecipients := o_getPaymentRecipients Sim.oracle;
o_owner := o_owner Sim.oracle;
o_authorizedControllers := o_authorizedControllers Sim.oracle;
o_send := o_send Sim.oracle;
o_wait := o_wait Sim.oracle;
o_sleep := o_sleep Sim.oracle;
o_now := o_now Sim.oracle;
o_randomHash := o_randomHash Sim.oracle
|}.

(** An unpaid invoice of 0.001 of the native asset to [bob]. *)
Definition ethInvoice : RawInvoice := {|
inv0 := Sim.bob; inv1 := ZeroAddress; inv2 := 1000000000000000; inv3 := 0;
inv4 := false; inv5 := "memo"; inv6 := EmptyString; inv7 := "tip"; inv8 := 0
|}.

(** The automation page of [carol], the owner of the contract. *)
Definition carol_page : PaymentAutomation.Ctx :=
Sim.automation Sim.carol 84532 [Sim.pay0; Sim.pay1] ∅.

(** The invoice form of [alice]: 2 USDC, valid for four seconds. *)
Definition create_page : CreateInvoice.Ctx :=
{| CreateInvoice.c_address := Some Sim.alice;
   CreateInvoice.c_chainId := 84532;
   CreateInvoice.c_contract := true;
   CreateInvoice.formData :=
     {| CreateInvoice.f_merchant := Sim.alice;
        CreateInvoice.f_token := USDC_ADDRESS;
        CreateInvoice.f_amount := "II";
        CreateInvoice.f_validForSeconds := "IIII";
        CreateInvoice.f_memo := "memo";
        CreateInvoice.f_logoURI := EmptyString;
        CreateInvoice.f_description := "two dollars" |} |}.

(** The dashboard of [alice] with the wallet library on Base Sepolia. *)
Definition dashboard : DashboardFetch.Ctx :=
{| DashboardFetch.c_address := Some Sim.alice;
   DashboardFetch.c_chainId := 84532;
   DashboardFetch.c_window_ethereum := true |}.

(** A merchant with one invoice and no native balance. *)
Definition extra : DashboardFetch.Extra Sim.World :=
{| DashboardFetch.o_getBalance := fun _ _ _ => Ok 0;
   DashboardFetch.o_getInvoicesByMerchant := fun _ _ _ _ => Ok ["0xabc"];
   DashboardFetch.hasGetInvoicesByMerchant := true |}.

(** The injected provider still reports chain 1. *)
Definition world_on_mainnet : Sim.World := Sim.with_chain 1 Sim.world0.

(** The automation page of [alice] with the wallet on chain 1, which the
    table of the page does not list. *)
Definition mainnet_page : PaymentAutomation.Ctx :=
Sim.automation Sim.alice 1 [Sim.pay0; Sim.pay1] ({[ "0" ]} ∪ {[ "1" ]}).

End SimMore.
(** * Properties *)

(** ** The network registries *)

Lemma streq_true (a b : string) : Js.streq a b = true <-> a = b.
Proof. unfold Js.streq. apply bool_decide_eq_true. Qed.

Lemma streq_false (a b : string) : Js.streq a b = false <-> a <> b.
Proof. unfold Js.streq. apply bool_decide_eq_false. Qed.

Lemma streq_refl (a : string) : Js.streq a a = true.
Proof. by apply streq_true. Qed.

(** C7. For every integer chain id each page resolves [currentNetwork] to
    the entry of its static table when the id is a key of the table, and
    to the Base Sepolia entry otherwise; resolution is a total function;
    the Base Sepolia entry of each table carries its token. *)
Theorem currentNetwork_resolves (env : Env) (chain : Z) :
  match Js.get (Dashboard.NETWORK_CONFIGS env) chain with
  | Some c => Dashboard.currentNetwork env chain = c /\ Dashboard.chainId c = chain
  | None => Dashboard.currentNetwork env chain = Dashboard.BASE_SEPOLIA env
  end
  /\ match Js.get (CreateInvoice.NETWORK_CONFIGS env) chain with
     | Some c => CreateInvoice.currentNetwork env chain = c
                 /\ CreateInvoice.chainId c = chain
     | None => CreateInvoice.currentNetwork env chain = CreateInvoice.BASE_SEPOLIA env
     end
  /\ match Js.get (InvoiceCheckout.NETWORK_CONFIGS env) chain with
     | Some c => InvoiceCheckout.currentNetwork env chain = c
                 /\ InvoiceCheckout.chainId c = chain
     | None => InvoiceCheckout.currentNetwork env chain
               = InvoiceCheckout.BASE_SEPOLIA env
     end
  /\ match Js.get (PaymentAutomation.NETWORK_CONFIGS env) chain with
     | Some c => PaymentAutomation.currentNetwork env chain = c
                 /\ PaymentAutomation.chainId c = chain
     | None => PaymentAutomation.currentNetwork env chain
               = PaymentAutomation.BASE_SEPOLIA env
     end
  /\ (Js.get (Dashboard.NETWORK_CONFIGS env) chain = None
      <-> chain <> 2810 /\ chain <> 84532)
  /\ Dashboard.name (Dashboard.BASE_SEPOLIA env) = "Base Sepolia"
  /\ Dashboard.token (Dashboard.BASE_SEPOLIA env)
     = {| tk_address := USDC_ADDRESS; tk_symbol := "USDC"; tk_decimals := 6;
          tk_logo := USDC_LOGO |}
  /\ CreateInvoice.supportedTokens (CreateInvoice.BASE_SEPOLIA env)
     = [CreateInvoice.USDC_TOKEN_BASE_SEPOLIA]
  /\ InvoiceCheckout.tokens (InvoiceCheckout.BASE_SEPOLIA env) !! USDC_ADDRESS
     = Some {| InvoiceCheckout.symbol := "USDC"; InvoiceCheckout.decimals := 6;
               InvoiceCheckout.logo := USDC_LOGO |}
  /\ PaymentAutomation.token (PaymentAutomation.BASE_SEPOLIA env)
     = {| tk_address := USDC_ADDRESS; tk_symbol := "USDC"; tk_decimals := 6;
          tk_logo := USDC_LOGO |}.
Proof.
  unfold Dashboard.currentNetwork, CreateInvoice.currentNetwork,
    InvoiceCheckout.currentNetwork, PaymentAutomation.currentNetwork.
  cbn [Js.get Dashboard.NETWORK_CONFIGS CreateInvoice.NETWORK_CONFIGS
       InvoiceCheckout.NETWORK_CONFIGS PaymentAutomation.NETWORK_CONFIGS].
  destruct (Z.eqb_spec 2810 chain) as [<-|Hm].
  - cbn. repeat split; try reflexivity; try discriminate; intros [? ?]; congruence.
  - destruct (Z.eqb_spec 84532 chain) as [<-|Hb].
    + cbn. repeat split; try reflexivity; try discriminate; intros [? ?]; congruence.
    + cbn. repeat split; try reflexivity; congruence.
Qed.

(** ** A logic for the write calls of a flow *)

Section Writes.
Context {W : Type} (O : Oracle W).

Lemma sends_app (t1 t2 : list Event) : sends (t1 ++ t2) = sends t1 ++ sends t2.
Proof. unfold sends. apply omap_app. Qed.

Lemma writes_weaken {A} (m : M W A) (Q Q' : A -> Prop) P :
  writes m Q P -> (forall a, Q a -> Q' a) -> writes m Q' P.
Proof. intros H HQ w. destruct (H w) as [H1 H2]. split; auto. Qed.

Lemma writes_ret {A} (a : A) (Q : A -> Prop) P : Q a -> writes (ret (W:=W) a) Q P.
Proof. intros HQ w. cbn. split; [intros ? [= <-]; done | constructor]. Qed.

Lemma writes_throw {A} e (Q : A -> Prop) P : writes (throw (W:=W) e) Q P.
Proof. intros w. cbn. split; [discriminate | constructor]. Qed.

Lemma writes_pure {A} (r : Res A) P :
  writes (fun w : W => (r, w, [])) (fun a => r = Ok a) P.
Proof. intros w. cbn. split; [done | constructor]. Qed.

Lemma writes_bind {A B} (m : M W A) (k : A -> M W B) Q Q' P :
  writes m Q P -> (forall a, Q a -> writes (k a) Q' P) -> writes (bind m k) Q' P.
Proof.
  intros Hm Hk w. unfold bind. destruct (Hm w) as [H1 H2].
  destruct (m w) as [[[a|e] w1] t1]; cbn in *.
  - destruct (Hk a (H1 a eq_refl) w1) as [H3 H4].
    destruct (k a w1) as [[r w2] t2]; cbn in *.
    split; [done|]. rewrite sends_app. by apply Forall_app.
  - split; [discriminate | done].
Qed.

Lemma writes_try_catch {A} (m : M W A) h (Q : A -> Prop) P :
  writes m Q P -> (forall e, writes (h e) Q P) -> writes (try_catch m h) Q P.
Proof.
  intros Hm Hh w. unfold try_catch. destruct (Hm w) as [H1 H2].
  destruct (m w) as [[[a|e] w1] t1]; cbn in *.
  - split; done.
  - destruct (Hh e w1) as [H3 H4].
    destruct (h e w1) as [[r w2] t2]; cbn in *.
    split; [done|]. rewrite sends_app. by apply Forall_app.
Qed.

Lemma writes_finally {A} (m : M W A) f (Q : A -> Prop) P :
  writes m Q P -> writes f (fun _ => True) P -> writes (finally m f) Q P.
Proof.
  intros Hm Hf w. unfold finally. destruct (Hm w) as [H1 H2].
  destruct (m w) as [[r w1] t1]; cbn in *.
  destruct (Hf w1) as [_ H4]. destruct (f w1) as [[r2 w2] t2]; cbn in *.
  split; [done|]. rewrite sends_app. by apply Forall_app.
Qed.

Lemma writes_toast k s P : writes (toast (W:=W) k s) (fun _ => True) P.
Proof. intros w. cbn. split; [done | constructor]. Qed.

Lemma writes_set u P : writes (set_ (W:=W) u) (fun _ => True) P.
Proof. intros w. cbn. split; [done | constructor]. Qed.

Lemma writes_defer d P : writes (defer (W:=W) d) (fun _ => True) P.
Proof. intros w. cbn. split; [done | constructor]. Qed.

Lemma writes_read {A} p c (ans : W -> Res A) P :
  writes (read p c ans) (fun _ => True) P.
Proof. intros w. cbn. split; [done | constructor]. Qed.

Lemma writes_send via tx (P : Tx -> Prop) :
  P tx -> writes (send O via tx) (fun _ => True) P.
Proof.
  intros HP w. unfold send. destruct (o_send O via tx w) as [r w']. cbn.
  split; [done | by repeat constructor].
Qed.

Lemma writes_wait h P : writes (wait O h) (fun _ => True) P.
Proof.
  intros w. unfold wait. destruct (o_wait O h w) as [r w']. cbn.
  split; [done | constructor].
Qed.

Lemma writes_sleep ms P : writes (sleep O ms) (fun _ => True) P.
Proof. intros w. cbn. split; [done | constructor]. Qed.

Lemma writes_now P : writes (now O) (fun _ => True) P.
Proof. intros w. cbn. split; [done | constructor]. Qed.

Lemma writes_randomHash P : writes (randomHash O) (fun _ => True) P.
Proof.
  intros w. unfold randomHash. destruct (o_randomHash O w) as [h w']. cbn.
  split; [done | constructor].
Qed.

Lemma writes_promise_all2 {A B} (a : M W A) (b : M W B) P :
  writes a (fun _ => True) P -> writes b (fun _ => True) P ->
  writes (PaymentAutomation.promise_all2 a b) (fun _ => True) P.
Proof.
  intros Ha Hb w. unfold PaymentAutomation.promise_all2.
  destruct (Ha w) as [_ H1]. destruct (Hb w) as [_ H2].
  destruct (a w) as [[ra wa] ta]. destruct (b w) as [[rb wb] tb]. cbn in *.
  split; [done|].
  assert (Forall P (sends (ta ++ tb))) by (rewrite sends_app; by apply Forall_app).
  destruct ra, rb; done.
Qed.

End Writes.

(** Steps of a flow that issue no write call of their own. *)
Ltac quiet_step :=
  first
    [ apply writes_toast | apply writes_set | apply writes_defer
    | apply writes_read | apply writes_wait | apply writes_sleep
    | apply writes_now | apply writes_randomHash | apply writes_throw
    | apply writes_ret; exact I ].

Ltac writes_step :=
  first
    [ quiet_step
    | eapply writes_bind; [| intros ? ?]
    | apply writes_try_catch; [| intros ?]
    | apply writes_finally
    | apply writes_promise_all2
    | eapply writes_weaken; [quiet_step | intros; exact I] ].

Ltac writes_branch :=
  match goal with
  | |- writes (if ?b then _ else _) _ _ => destruct b
  | |- writes (match ?x with _ => _ end) _ _ => destruct x
  end.

Ltac writes_quiet :=
  repeat first
    [ writes_branch
    | quiet_step
    | eapply writes_bind with (Q := fun _ => True); [| intros ? _]
    | apply writes_try_catch; [| intros ?]
    | apply writes_finally
    | apply writes_promise_all2 ].

(** ** Flows of the automation page that only read *)

Section AutomationReads.
Context {W : Type} (O : Oracle W) (lib : Lib) (env : Env)
  (c : PaymentAutomation.Ctx) (P : Tx -> Prop).

Lemma getSigner_writes :
  writes (PaymentAutomation.getSigner O env c) (fun _ => True) P.
Proof. unfold PaymentAutomation.getSigner, provider_getSigner. writes_quiet. Qed.

Lemma canExecutePayment_writes pid :
  writes (PaymentAutomation.canExecutePayment O env c pid) (fun _ => True) P.
Proof.
  unfold PaymentAutomation.canExecutePayment, getPaymentDetails, owner,
    authorizedControllers.
  writes_quiet; try apply getSigner_writes.
Qed.

Lemma checkLoop_writes payments acc :
  writes (PaymentAutomation.checkLoop O env c payments acc) (fun _ => True) P.
Proof.
  revert acc. induction payments as [|p rest IH]; intros acc; cbn.
  - writes_quiet.
  - unfold PaymentAutomation.isPaymentOverdue.
    writes_quiet; try apply canExecutePayment_writes; apply IH.
Qed.

Lemma checkExecutablePayments_writes payments :
  writes (PaymentAutomation.checkExecutablePayments O env c payments)
    (fun _ => True) P.
Proof.
  unfold PaymentAutomation.checkExecutablePayments.
  writes_quiet; apply checkLoop_writes.
Qed.

Lemma loadLoop_writes ids s h :
  writes (PaymentAutomation.loadLoop O lib env c ids s h) (fun _ => True) P.
Proof.
  revert s h. induction ids as [|i rest IH]; intros s h; cbn.
  - writes_quiet.
  - unfold getPaymentDetails, getPaymentRecipients.
    writes_quiet; apply IH.
Qed.

Lemma loadPaymentData_writes :
  writes (PaymentAutomation.loadPaymentData O lib env c) (fun _ => True) P.
Proof.
  unfold PaymentAutomation.loadPaymentData, nextPaymentId.
  writes_quiet;
    first [ apply getSigner_writes | apply loadLoop_writes
          | apply checkExecutablePayments_writes ].
Qed.

Lemma checkTokenBalance_writes tok amt :
  writes (PaymentAutomation.checkTokenBalance O lib env c tok amt)
    (fun _ => True) P.
Proof.
  unfold PaymentAutomation.checkTokenBalance, balanceOf, decimals.
  writes_quiet.
Qed.

Lemma approveToken_writes tok amt :
  P (Approve tok (Some (PaymentAutomation.contractAddress
                          (PaymentAutomation.cn env c))) amt) ->
  writes (PaymentAutomation.approveToken O lib env c tok amt) (fun _ => True) P.
Proof.
  intros HP. unfold PaymentAutomation.approveToken, allowance.
  writes_quiet. by apply writes_send.
Qed.

End AutomationReads.

(** ** Units of the submitted amounts *)

Lemma handleSubmit_writes {W} (O : Oracle W) lib env c :
  writes (CreateInvoice.handleSubmit O lib env c) (fun _ => True)
    (createInvoiceCall lib (CreateInvoice.formData c)).
Proof.
  unfold CreateInvoice.handleSubmit.
  destruct (negb (CreateInvoice.c_contract c)
            || negb (Js.truthy (CreateInvoice.c_address c))); [quiet_step|].
  do 4 (eapply writes_bind with (Q := fun _ => True); [quiet_step | intros ? _]).
  apply writes_finally; [|quiet_step].
  apply writes_try_catch; [|intros e; writes_quiet].
  do 2 (eapply writes_bind with (Q := fun _ => True); [quiet_step | intros ? _]).
  eapply writes_bind; [apply writes_pure | intros wei Hwei].
  eapply writes_bind with (Q := fun _ => True);
    [apply writes_send; by split | intros ? _].
  writes_quiet.
Qed.

Lemma submitPayment_writes {W} (O : Oracle W) lib env c :
  writes (PaymentAutomation.submitPayment O lib env c) (fun _ => True)
    (automationCall lib env c).
Proof.
  unfold PaymentAutomation.submitPayment.
  eapply writes_bind with (Q := fun _ => True); [quiet_step | intros ? _].
  eapply writes_bind with (Q := fun _ => True); [| intros ? _; quiet_step].
  apply writes_try_catch;
    [| intros e; unfold PaymentAutomation.submitFailed; writes_quiet].
  repeat (writes_branch; [quiet_step|]).
  eapply writes_bind with (Q := fun _ => True);
    [apply getSigner_writes | intros ? _].
  eapply writes_bind; [apply writes_pure | intros amountRaw Hraw].
  eapply writes_bind with (Q := fun _ => True); [quiet_step | intros ? _].
  eapply writes_bind with (Q := fun _ => True);
    [apply checkTokenBalance_writes | intros ? _].
  eapply writes_bind with (Q := fun _ => True); [quiet_step | intros ? _].
  eapply writes_bind with (Q := fun _ => True);
    [apply approveToken_writes; by split | intros ? _].
  eapply writes_bind with (Q := fun _ => True).
  - repeat writes_branch; try quiet_step;
      (eapply writes_bind with (Q := fun _ => True); [quiet_step | intros ? _]);
      apply writes_send; by split.
  - intros ? _. writes_quiet. apply loadPaymentData_writes.
Qed.

Lemma checkout_network_cases (env : Env) (chain : Z) :
  InvoiceCheckout.currentNetwork env chain = InvoiceCheckout.MORPH_HOLESKY env
  /\ chain = 2810
  \/ InvoiceCheckout.currentNetwork env chain = InvoiceCheckout.BASE_SEPOLIA env
     /\ chain <> 2810.
Proof.
  unfold InvoiceCheckout.currentNetwork.
  cbn [Js.get InvoiceCheckout.NETWORK_CONFIGS].
  destruct (Z.eqb_spec 2810 chain) as [<-|Hm]; [by left|right].
  split; [|congruence]. by destruct (84532 =? chain).
Qed.

Lemma dashboard_network_cases (env : Env) (chain : Z) :
  Dashboard.currentNetwork env chain = Dashboard.MORPH_HOLESKY env /\ chain = 2810
  \/ Dashboard.currentNetwork env chain = Dashboard.BASE_SEPOLIA env
     /\ chain <> 2810.
Proof.
  unfold Dashboard.currentNetwork. cbn [Js.get Dashboard.NETWORK_CONFIGS].
  destruct (Z.eqb_spec 2810 chain) as [<-|Hm]; [by left|right].
  split; [|congruence]. by destruct (84532 =? chain).
Qed.

Lemma displayed_as_1_00 (cn : InvoiceCheckout.NetworkConfig) (inv : InvoiceData) :
  amount inv = 1000000 ->
  InvoiceCheckout.tokenDecimals cn (token inv) = 6 ->
  InvoiceCheckout.amountDisplay cn inv = Some "1.00".
Proof.
  intros Ha Hd. unfold InvoiceCheckout.amountDisplay, InvoiceCheckout.scaledAmount.
  rewrite Ha, Hd. vm_compute. reflexivity.
Qed.

(** C6. Every write call that carries a user-entered amount passes that
    amount scaled by the decimals of its token: invoice creation scales by
    18 for the zero address (the native asset), by 6 for the Base Sepolia
    USDC address, and for every token of a network table by the decimals
    that the table configures; the automation page scales by the decimals
    configured for the network token. An invoice of raw amount 1_000_000 in
    a 6-decimal token is shown as 1.00. *)
Theorem amounts_scaled_by_token_decimals {W : Type} (O : Oracle W) (lib : Lib)
    (env : Env) :
  (forall (c : CreateInvoice.Ctx) (w : W),
      Forall (createInvoiceCall lib (CreateInvoice.formData c))
        (sends (CreateInvoice.handleSubmit O lib env c w).2))
  /\ (forall fd : CreateInvoice.InvoiceFormData,
        (CreateInvoice.f_token fd = ZeroAddress ->
         CreateInvoice.amountWei lib fd = parseUnits lib (CreateInvoice.f_amount fd) 18)
        /\ (CreateInvoice.f_token fd = USDC_ADDRESS ->
            CreateInvoice.amountWei lib fd
            = parseUnits lib (CreateInvoice.f_amount fd) 6))
  /\ (forall (chain : Z) (ti : InvoiceCheckout.TokenInfo)
             (fd : CreateInvoice.InvoiceFormData),
        InvoiceCheckout.tokens (InvoiceCheckout.currentNetwork env chain)
          !! CreateInvoice.f_token fd = Some ti ->
        CreateInvoice.amountWei lib fd
        = parseUnits lib (CreateInvoice.f_amount fd) (InvoiceCheckout.decimals ti))
  /\ (forall (chain : Z) (fd : CreateInvoice.InvoiceFormData),
        CreateInvoice.f_token fd
        = tk_address (Dashboard.token (Dashboard.currentNetwork env chain)) ->
        CreateInvoice.amountWei lib fd
        = parseUnits lib (CreateInvoice.f_amount fd)
            (tk_decimals (Dashboard.token (Dashboard.currentNetwork env chain))))
  /\ (forall (c : PaymentAutomation.Ctx) (w : W),
        Forall (automationCall lib env c)
          (sends (PaymentAutomation.submitPayment O lib env c w).2))
  /\ (forall (cn : InvoiceCheckout.NetworkConfig) (inv : InvoiceData),
        amount inv = 1000000 ->
        InvoiceCheckout.tokenDecimals cn (token inv) = 6 ->
        InvoiceCheckout.amountDisplay cn inv = Some "1.00")
  /\ InvoiceCheckout.amountDisplay (InvoiceCheckout.BASE_SEPOLIA env)
       (mapInvoice Sim.usdcInvoice) = Some "1.00".
Proof.
  assert (Hcases : forall fd : CreateInvoice.InvoiceFormData,
             (CreateInvoice.f_token fd = ZeroAddress ->
              CreateInvoice.amountWei lib fd
              = parseUnits lib (CreateInvoice.f_amount fd) 18)
             /\ (CreateInvoice.f_token fd = USDC_ADDRESS ->
                 CreateInvoice.amountWei lib fd
                 = parseUnits lib (CreateInvoice.f_amount fd) 6)
             /\ (CreateInvoice.f_token fd = USDT_ADDRESS ->
                 CreateInvoice.amountWei lib fd
                 = parseUnits lib (CreateInvoice.f_amount fd) 18)).
  { intros fd. unfold CreateInvoice.amountWei, parseEther.
    repeat split; intros ->; reflexivity. }
  split; [intros c w; apply (handleSubmit_writes O lib env c w)|].
  split; [intros fd; destruct (Hcases fd) as (? & ? & ?); by split|].
  split.
  { intros chain ti fd Hti. destruct (Hcases fd) as (Hz & Hc & Ht).
    destruct (checkout_network_cases env chain) as [[Hn _]|[Hn _]];
      rewrite Hn in Hti;
      cbn [InvoiceCheckout.tokens InvoiceCheckout.MORPH_HOLESKY
           InvoiceCheckout.BASE_SEPOLIA] in Hti;
      apply lookup_insert_Some in Hti as [[Hk <-]|[_ Hti]];
      try (apply lookup_insert_Some in Hti as [[Hk <-]|[_ Hti]]);
      try (by rewrite lookup_empty in Hti);
      cbn; auto. }
  split.
  { intros chain fd Htok. destruct (Hcases fd) as (Hz & Hc & Ht).
    destruct (dashboard_network_cases env chain) as [[Hn _]|[Hn _]];
      rewrite Hn in *; cbn in *; auto. }
  split; [intros c w; apply (submitPayment_writes O lib env c w)|].
  split; [apply displayed_as_1_00|].
  apply displayed_as_1_00; [reflexivity | vm_compute; reflexivity].
Qed.

(** ** The analytics aggregation *)

Lemma window_compare (host1 host2 : Dashboard.Host) (sp : string) :
  (Dashboard.window host1 sp).2 = (Dashboard.window host2 sp).2.
Proof.
  unfold Dashboard.window.
  destruct (Js.streq sp "This Week" || Js.streq sp "Last Week"); [done|].
  destruct (Js.streq sp "Last 30 Days"); [done|].
  by destruct (Js.streq sp "Last 12 Months").
Qed.

Lemma window_label (host1 host2 : Dashboard.Host) (sp : string) :
  (forall d part, Dashboard.toLocaleDateString host1 d part
                  = Dashboard.toLocaleDateString host2 d part) ->
  forall d, (Dashboard.window host1 sp).1.2 d = (Dashboard.window host2 sp).1.2 d.
Proof.
  intros Hloc d. unfold Dashboard.window.
  destruct (Js.streq sp "This Week" || Js.streq sp "Last Week");
    [apply Hloc|].
  destruct (Js.streq sp "Last 30 Days"); [apply Hloc|].
  destruct (Js.streq sp "Last 12 Months"); apply Hloc.
Qed.

Lemma getAnalyticsData_unfold (host : Dashboard.Host) sp invs :
  Dashboard.getAnalyticsData host sp invs
  = Dashboard.aggregate (Dashboard.window host sp).1.1
      (Dashboard.window host sp).1.2 (Dashboard.window host sp).2 invs.
Proof.
  unfold Dashboard.getAnalyticsData.
  by destruct (Dashboard.window host sp) as [[ds lf] cf].
Qed.

Lemma bucket_empty cmp invs d :
  (forall inv, In inv invs -> Dashboard.paidWithTime inv = true ->
     cmp (Js.mkDate (Dashboard.i_paidAt inv * 1000)) d = false) ->
  Dashboard.bucket cmp invs d = [].
Proof.
  intros H. unfold Dashboard.bucket.
  induction invs as [|inv rest IH]; [done|].
  cbn. destruct (Dashboard.paidWithTime inv) eqn:Hp.
  - cbn. rewrite (H inv) by (auto using in_eq).
    apply IH. intros i Hi. apply H. by right.
  - apply IH. intros i Hi. apply H. by right.
Qed.

(** C9. The aggregation is a function of the invoice list and of the
    window: two hosts that give the same bucket dates for the selected
    period and format dates alike produce the same bars, in the same
    order; the bars carry the bucket dates in order; a bucket that no
    paid invoice matches has the value 0. *)
Theorem getAnalyticsData_deterministic (host1 host2 : Dashboard.Host)
    (selectedPeriod : string) (invoiceList : list Dashboard.Invoice) :
  (Dashboard.window host1 selectedPeriod).1.1
  = (Dashboard.window host2 selectedPeriod).1.1 ->
  (forall d part, Dashboard.toLocaleDateString host1 d part
                  = Dashboard.toLocaleDateString host2 d part) ->
  Dashboard.getAnalyticsData host1 selectedPeriod invoiceList
  = Dashboard.getAnalyticsData host2 selectedPeriod invoiceList
  /\ map Dashboard.date (Dashboard.getAnalyticsData host1 selectedPeriod invoiceList)
     = (Dashboard.window host1 selectedPeriod).1.1
  /\ forall b,
       In b (Dashboard.getAnalyticsData host1 selectedPeriod invoiceList) ->
       (forall inv, In inv invoiceList -> Dashboard.paidWithTime inv = true ->
          (Dashboard.window host1 selectedPeriod).2
            (Js.mkDate (Dashboard.i_paidAt inv * 1000)) (Dashboard.date b) = false) ->
       Dashboard.value b = S754_zero false.
Proof.
  intros Hdates Hloc. rewrite !getAnalyticsData_unfold.
  rewrite <- Hdates, <- (window_compare host1 host2).
  unfold Dashboard.aggregate. repeat split.
  - apply map_ext. intros d. f_equal. by apply window_label.
  - rewrite map_map. cbn. apply map_id.
  - intros b Hb Hnone. apply in_map_iff in Hb as (d & <- & Hd). cbn in *.
    by rewrite bucket_empty.
Qed.

(** ** Flows that only read *)

Section Quiet.
Context {W : Type} (O : Oracle W).

Lemma quiet_ret {A} (a : A) : quiet (ret (W:=W) a).
Proof. intros w. cbn. split; [done | constructor]. Qed.

Lemma quiet_throw {A} e : quiet (throw (W:=W) (A:=A) e).
Proof. intros w. cbn. split; [done | constructor]. Qed.

Lemma quiet_read {A} p c (ans : W -> Res A) : quiet (read p c ans).
Proof. intros w. cbn. split; [done | by repeat constructor]. Qed.

Lemma quiet_now : quiet (now O).
Proof. intros w. cbn. split; [done | constructor]. Qed.

Lemma quiet_bind {A B} (m : M W A) (k : A -> M W B) :
  quiet m -> (forall a, quiet (k a)) -> quiet (bind m k).
Proof.
  intros Hm Hk w. unfold bind. destruct (Hm w) as [H1 H2].
  destruct (m w) as [[[a|e] w1] t1]; cbn in *; subst w1.
  - destruct (Hk a w) as [H3 H4].
    destruct (k a w) as [[r w2] t2]; cbn in *.
    split; [done | by apply Forall_app].
  - done.
Qed.

Lemma quiet_try_catch {A} (m : M W A) h :
  quiet m -> (forall e, quiet (h e)) -> quiet (try_catch m h).
Proof.
  intros Hm Hh w. unfold try_catch. destruct (Hm w) as [H1 H2].
  destruct (m w) as [[[a|e] w1] t1]; cbn in *; subst w1.
  - done.
  - destruct (Hh e w) as [H3 H4].
    destruct (h e w) as [[r w2] t2]; cbn in *.
    split; [done | by apply Forall_app].
Qed.

(** A quiet flow run at [w]: its result and its trace of reads. *)
Lemma quiet_run {A} (m : M W A) (w : W) :
  quiet m -> exists r t, m w = (r, w, t) /\ Forall is_read t.
Proof.
  intros H. destruct (H w) as [H1 H2].
  destruct (m w) as [[r w1] t]; cbn in *; subst. eauto.
Qed.

End Quiet.

Ltac quiet_branch :=
  match goal with
  | |- quiet (if ?b then _ else _) => destruct b
  | |- quiet (match ?x with _ => _ end) => destruct x
  end.

Ltac quiet_auto :=
  repeat first
    [ quiet_branch
    | apply quiet_ret | apply quiet_throw | apply quiet_read | apply quiet_now
    | apply quiet_bind; [| intros ?]
    | apply quiet_try_catch; [| intros ?] ].

Section AutomationQuiet.
Context {W : Type} (O : Oracle W) (lib : Lib) (env : Env)
  (c : PaymentAutomation.Ctx).

Lemma getSigner_quiet : quiet (PaymentAutomation.getSigner O env c).
Proof. unfold PaymentAutomation.getSigner, provider_getSigner. quiet_auto. Qed.

Lemma canExecutePayment_quiet pid :
  quiet (PaymentAutomation.canExecutePayment O env c pid).
Proof.
  unfold PaymentAutomation.canExecutePayment, getPaymentDetails, owner,
    authorizedControllers.
  quiet_auto. apply getSigner_quiet.
Qed.

Lemma checkLoop_quiet payments acc :
  quiet (PaymentAutomation.checkLoop O env c payments acc).
Proof.
  revert acc. induction payments as [|p rest IH]; intros acc; cbn.
  - quiet_auto.
  - unfold PaymentAutomation.isPaymentOverdue.
    quiet_auto; try apply canExecutePayment_quiet; apply IH.
Qed.

Lemma loadLoop_quiet ids s h :
  quiet (PaymentAutomation.loadLoop O lib env c ids s h).
Proof.
  revert s h. induction ids as [|i rest IH]; intros s h; cbn.
  - quiet_auto.
  - unfold getPaymentDetails, getPaymentRecipients. quiet_auto; apply IH.
Qed.

(** [getSigner] succeeds exactly when the signer is available. *)
Lemma getSigner_result (w : W) :
  match (PaymentAutomation.getSigner O env c w).1.1 with
  | Ok _ => signerAvailable O env c w = true
  | Err _ => signerAvailable O env c w = false
  end.
Proof.
  unfold PaymentAutomation.getSigner, signerAvailable, provider_getSigner, read.
  destruct (PaymentAutomation.c_walletClient c); cbn; [|done].
  destruct (Js.truthy (PaymentAutomation.c_address c)); cbn; [|done].
  destruct (PaymentAutomation.c_chainId c =? _); cbn; [|done].
  by destruct (o_getSigner O Transport w).
Qed.


End AutomationQuiet.

(** ** Sorting *)

Section SortFacts.
Context {A : Type} (cmp : A -> A -> Z) (le : A -> A -> Prop).
Hypothesis cmp_le : forall a b, cmp a b <= 0 <-> le a b.
Hypothesis le_total : forall a b, le a b \/ le b a.
Hypothesis le_trans : forall a b c, le a b -> le b c -> le a c.





End SortFacts.



(** ** The executable set *)

Lemma updates_app (t1 t2 : list Event) :
  updates (t1 ++ t2) = updates t1 ++ updates t2.
Proof. unfold updates. apply omap_app. Qed.

Lemma updates_set (u : StateUpdate) (t : list Event) :
  updates (Set_ u :: t) = u :: updates t.
Proof. reflexivity. Qed.

Lemma updates_read p c (t : list Event) : updates (Read p c :: t) = updates t.
Proof. reflexivity. Qed.

Lemma updates_toast k m (t : list Event) : updates (Toast k m :: t) = updates t.
Proof. reflexivity. Qed.

Lemma updates_nil : updates [] = [].
Proof. reflexivity. Qed.

Ltac updates_norm :=
  repeat first
    [ rewrite updates_app | rewrite updates_set | rewrite updates_read
    | rewrite updates_toast | rewrite updates_nil ].

Lemma updates_reads (t : list Event) : Forall is_read t -> updates t = [].
Proof.
  induction 1 as [|e t He _ IH]; [done|]. by destruct e.
Qed.

Section Executable.
Context {W : Type} (O : Oracle W) (lib : Lib) (env : Env)
  (c : PaymentAutomation.Ctx).

Lemma canExecutePayment_result (w : W) pid :
  (PaymentAutomation.canExecutePayment O env c pid w).1.1
  = Ok (canExecuteAt O env c w pid).
Proof.
  unfold PaymentAutomation.canExecutePayment, canExecuteAt.
  destruct (PaymentAutomation.c_isConnected c); cbn [negb orb andb]; [|done].
  destruct (Js.truthy (PaymentAutomation.c_address c)); cbn [negb orb andb];
    [|done].
  unfold try_catch, bind at 1.
  pose proof (getSigner_result O env c w) as Hs.
  destruct (getSigner_quiet O env c w) as [Hw _].
  destruct (PaymentAutomation.getSigner O env c w) as [[[u|e] w1] t1];
    cbn in Hs, Hw; subst w1; rewrite Hs; cbn; [|done].
  unfold mayExecute, bind, getPaymentDetails, owner, authorizedControllers,
    read, ret.
  destruct (o_getPaymentDetails O Transport _ pid w) as [d|e]; [|done].
  destruct (PaymentAutomation.sameAddress (pd_creator d) _); [done|].
  destruct (o_owner O Transport _ w) as [o|e]; [|done].
  destruct (PaymentAutomation.sameAddress o _); [done|].
  by destruct (o_authorizedControllers O Transport _ _ w).
Qed.

Lemma checkLoop_result payments : forall acc (w : W),
  (PaymentAutomation.checkLoop O env c payments acc w).1.1
  = Ok (executableAt O env c w payments acc).
Proof.
  induction payments as [|p rest IH]; intros acc w; [done|].
  cbn [PaymentAutomation.checkLoop executableAt].
  unfold bind at 1, try_catch, bind at 1, PaymentAutomation.isPaymentOverdue,
    bind at 1, now, ret.
  cbn [fst snd].
  destruct (PaymentAutomation.overdueAt (o_now O w) (scheduledTime p)); cbn.
  - unfold bind at 1.
    pose proof (canExecutePayment_result w (id_ p)) as Hr.
    destruct (canExecutePayment_quiet O env c (id_ p) w) as [Hw _].
    destruct (PaymentAutomation.canExecutePayment O env c (id_ p) w)
      as [[r w1] t1]; cbn in Hr, Hw; subst w1 r. cbn.
    specialize (IH (if canExecuteAt O env c w (id_ p)
                    then {[id_ p]} ∪ acc else acc) w).
    destruct (PaymentAutomation.checkLoop O env c rest _ w) as [[r w2] t2].
    exact IH.
  - specialize (IH acc w).
    destruct (PaymentAutomation.checkLoop O env c rest acc w) as [[r w2] t2].
    exact IH.
Qed.

(** Membership in the set built by the loop. *)
Lemma executableAt_spec (w : W) payments : forall acc x,
  x ∈ executableAt O env c w payments acc
  <-> x ∈ acc
      \/ exists p, In p payments /\ id_ p = x
           /\ PaymentAutomation.overdueAt (o_now O w) (scheduledTime p) = true
           /\ canExecuteAt O env c w x = true.
Proof.
  induction payments as [|p rest IH]; intros acc x; cbn [executableAt].
  - split; [by left | intros [?|(p & [] & _)]; done].
  - rewrite IH. split.
    + intros [Hx|(q & Hq & Hid & Ho & Hc)].
      * destruct (PaymentAutomation.overdueAt _ _ && canExecuteAt _ _ _ _ _)
          eqn:Hb; [|by left].
        apply elem_of_union in Hx as [Hx|Hx]; [|by left].
        apply elem_of_singleton in Hx as ->.
        apply andb_true_iff in Hb as [Ho Hc]. right. exists p. cbn. auto.
      * right. exists q. cbn. auto.
    + intros [Hx|(q & [<-|Hq] & Hid & Ho & Hc)].
      * left. destruct (_ && _); [apply elem_of_union; by right | done].
      * left. subst x. rewrite Ho, Hc. cbn. apply elem_of_union. left.
        by apply elem_of_singleton.
      * right. exists q. auto.
Qed.

(** The state updates of [checkExecutablePayments]. *)
Lemma checkExecutablePayments_run (w : W) payments :
  exists r t,
    PaymentAutomation.checkExecutablePayments O env c payments w = (r, w, t)
    /\ updates t
       = if negb (PaymentAutomation.c_isConnected c)
            || negb (Js.truthy (PaymentAutomation.c_address c))
         then []
         else [SetExecutablePayments (executableAt O env c w payments ∅)].
Proof.
  unfold PaymentAutomation.checkExecutablePayments.
  destruct (negb (PaymentAutomation.c_isConnected c)
            || negb (Js.truthy (PaymentAutomation.c_address c))).
  - by exists (Ok tt), [].
  - unfold bind.
    pose proof (checkLoop_result payments ∅ w) as Hr.
    destruct (checkLoop_quiet O env c payments ∅ w) as [Hw Ht].
    destruct (PaymentAutomation.checkLoop O env c payments ∅ w)
      as [[r w1] t1]; cbn in Hr, Hw, Ht; subst w1 r. cbn.
    eexists _, _. split; [reflexivity|].
    updates_norm. rewrite updates_reads by done. reflexivity.
Qed.

End Executable.

(** ** Loading the payment lists *)

Section Loading.
Context {W : Type} (O : Oracle W) (lib : Lib) (env : Env)
  (c : PaymentAutomation.Ctx).

Let contract := PaymentAutomation.contractAddress (PaymentAutomation.cn env c).
Let pending (w : W) (n : Z) :=
  Js.sort PaymentAutomation.newestFirst
    (List.filter (fun p => negb (executed p)) (loaded O lib env c w n)).





End Loading.

(** ** Who may execute *)

Section MayExecute.
Context {W : Type} (O : Oracle W) (env : Env) (c : PaymentAutomation.Ctx).

Let contract := PaymentAutomation.contractAddress (PaymentAutomation.cn env c).

(** C8. [checkExecutablePayments] stores one executable set. An overdue
    payment of the list is in that set when the contract names the
    current account as its creator (the wallet being connected on the
    configured network with a signer available); it is not in the set
    when the current account is neither the creator, nor the contract
    owner, nor an authorized controller. *)
Theorem executable_set_creator_or_unrelated (w : W)
    (payments : list PaymentData) (p : PaymentData) (account : string) :
  PaymentAutomation.c_isConnected c = true ->
  PaymentAutomation.c_address c = Some account ->
  Js.truthy (Some account) = true ->
  In p payments ->
  PaymentAutomation.overdueAt (o_now O w) (scheduledTime p) = true ->
  exists s,
    updates (PaymentAutomation.checkExecutablePayments O env c payments w).2
    = [SetExecutablePayments s]
    /\ (signerAvailable O env c w = true ->
        forall d, o_getPaymentDetails O Transport contract (id_ p) w = Ok d ->
        PaymentAutomation.sameAddress (pd_creator d) account = true ->
        id_ p ∈ s)
    /\ ((forall d, o_getPaymentDetails O Transport contract (id_ p) w = Ok d ->
           PaymentAutomation.sameAddress (pd_creator d) account = false) ->
        (forall o, o_owner O Transport contract w = Ok o ->
           PaymentAutomation.sameAddress o account = false) ->
        o_authorizedControllers O Transport contract account w <> Ok true ->
        id_ p ∉ s).
Proof.
  intros Hconn Haddr Htruthy Hin Hover.
  destruct (checkExecutablePayments_run O env c w payments)
    as (r & t & Hrun & Hupd).
  rewrite Hrun. cbn [snd]. rewrite Hupd, Hconn, Haddr, Htruthy. cbn [negb orb].
  eexists. split; [reflexivity|]. split.
  - intros Hs d Hd Hsame. apply executableAt_spec. right. exists p.
    repeat split; [done..|].
    unfold canExecuteAt. rewrite Hconn, Haddr, Htruthy, Hs. cbn [andb].
    unfold mayExecute, PaymentAutomation.addr. fold contract.
    rewrite Hd, Haddr. cbn [from_option id]. by rewrite Hsame.
  - intros Hcreator Howner Hctl Hmem.
    apply executableAt_spec in Hmem as [Hmem|(q & _ & _ & _ & Hcan)];
      [by apply not_elem_of_empty in Hmem|].
    unfold canExecuteAt in Hcan.
    apply andb_true_iff in Hcan as [_ Hcan].
    unfold mayExecute, PaymentAutomation.addr in Hcan. fold contract in Hcan.
    rewrite Haddr in Hcan. cbn [from_option id] in Hcan.
    destruct (o_getPaymentDetails O Transport contract (id_ p) w) as [d|];
      [|done].
    rewrite (Hcreator d eq_refl) in Hcan.
    destruct (o_owner O Transport contract w) as [o|]; [|done].
    rewrite (Howner o eq_refl) in Hcan.
    destruct (o_authorizedControllers O Transport contract account w)
      as [[]|]; done.
Qed.

End MayExecute.

(** ** Provider resolution *)


Section Resolution.
Context {W : Type} (O : Oracle W) (lib : Lib) (env : Env)
  (c : InvoiceCheckout.Ctx).

Let cn := InvoiceCheckout.currentNetwork env (InvoiceCheckout.c_chainId c).




End Resolution.

(** ** Allowance sequencing *)

Section Sequencer.
Context {W : Type} (O : Oracle W) (lib : Lib) (env : Env)
  (c : PaymentAutomation.Ctx).

Let contract := PaymentAutomation.contractAddress (PaymentAutomation.cn env c).
Let account := PaymentAutomation.addr c.


(** With too little allowance [approveToken] approves exactly the amount,
    waits for the receipt, reads the allowance again and fails if it is
    still short. *)
Lemma approveToken_short (w w1 w2 : W) (tok h : string) (amt a a' : Z) :
  Js.truthy (PaymentAutomation.c_address c) = true ->
  o_allowance O Transport tok account (Some contract) w = Ok a ->
  a < amt ->
  o_send O (Signer Transport) (Approve tok (Some contract) amt) w = (Ok h, w1) ->
  o_wait O h w1 = (Ok tt, w2) ->
  o_allowance O Transport tok account (Some contract) w2 = Ok a' ->
  exists r,
    PaymentAutomation.approveToken O lib env c tok amt w
    = (r, w2,
       [Read Transport (Allowance tok account (Some contract));
        Send (Signer Transport) (Approve tok (Some contract) amt);
        Toast TInfo "Approval transaction sent, waiting for confirmation...";
        Wait h;
        Read Transport (Allowance tok account (Some contract))])
    /\ (a' < amt -> exists e, r = Err e)
    /\ (amt <= a' -> r = Ok tt).
Proof.
  intros Ha Hal Hlt Hsend Hwait Hal'. unfold PaymentAutomation.approveToken.
  rewrite Ha. cbn [negb]. fold contract account.
  unfold try_catch, bind, allowance, read, send, wait, toast, emit, throw, ret.
  rewrite Hal. apply Z.ltb_lt in Hlt. rewrite Hlt, Hsend, Hwait, Hal'.
  destruct (Z.ltb_spec a' amt); cbn; eexists; (split; [reflexivity|]);
    split; intros; eauto; lia.
Qed.

(** A call that returns normally leaves enough allowance behind. *)
Lemma approveToken_Ok (w w' : W) (tok : string) (amt : Z) t :
  PaymentAutomation.approveToken O lib env c tok amt w = (Ok tt, w', t) ->
  Js.truthy (PaymentAutomation.c_address c) = true
  /\ exists a, o_allowance O Transport tok account (Some contract) w' = Ok a
               /\ amt <= a.
Proof.
  unfold PaymentAutomation.approveToken.
  destruct (Js.truthy (PaymentAutomation.c_address c)); cbn [negb];
    [|unfold try_catch, throw; discriminate].
  fold contract account.
  unfold try_catch, bind, allowance, read, send, wait, toast, emit, throw, ret.
  destruct (o_allowance O Transport tok account (Some contract) w) as [a|e] eqn:Hal;
    [|discriminate].
  destruct (Z.ltb_spec a amt) as [Hlt|Hge].
  - destruct (o_send O _ _ w) as [[h|e] w1]; [|discriminate].
    destruct (o_wait O h w1) as [[u|e] w2]; [|discriminate].
    destruct (o_allowance O Transport tok account (Some contract) w2)
      as [a'|e] eqn:Hal'; [|discriminate].
    destruct (Z.ltb_spec a' amt) as [Hlt'|Hge']; [discriminate|].
    intros [= <- <-]. split; [done|]. eauto.
  - intros [= <- <-]. split; [done|]. eauto.
Qed.

End Sequencer.

Section CheckoutPay.
Context {W : Type} (O : Oracle W) (lib : Lib) (env : Env)
  (c : InvoiceCheckout.Ctx).

Let cn := InvoiceCheckout.currentNetwork env (InvoiceCheckout.c_chainId c).
Let account := default EmptyString (InvoiceCheckout.c_address c).



End CheckoutPay.

Lemma writes_none {W A} (m : M W A) (Q : A -> Prop) (w : W) :
  writes m Q (fun _ => False) -> sends (m w).2 = [].
Proof.
  intros H. destruct (H w) as [_ Hs].
  destruct (sends (m w).2) as [|tx l]; [done|]. by inversion Hs.
Qed.

Lemma sends_send via tx (t : list Event) : sends (Send via tx :: t) = tx :: sends t.
Proof. reflexivity. Qed.

Lemma sends_other (e : Event) (t : list Event) :
  (forall via tx, e <> Send via tx) -> sends (e :: t) = sends t.
Proof. intros H. destruct e; try reflexivity. by destruct (H via tx). Qed.

Lemma sends_nil : sends [] = [].
Proof. reflexivity. Qed.

Ltac sends_norm :=
  repeat first
    [ rewrite sends_app | rewrite sends_send | rewrite sends_nil
    | rewrite sends_other by discriminate ].

Section AutomationPay.
Context {W : Type} (O : Oracle W) (lib : Lib) (env : Env)
  (c : PaymentAutomation.Ctx).

Let cn := PaymentAutomation.cn env c.
Let contract := PaymentAutomation.contractAddress cn.
Let account := PaymentAutomation.addr c.
Let tok := tk_address (PaymentAutomation.token cn).

Lemma getSigner_run (w : W) :
  signerAvailable O env c w = true ->
  exists t, PaymentAutomation.getSigner O env c w = (Ok tt, w, t)
            /\ sends t = [].
Proof.
  intros Hs. pose proof (getSigner_result O env c w) as Hr.
  destruct (getSigner_quiet O env c w) as [Hw _].
  pose proof (writes_none _ _ w (getSigner_writes O env c (fun _ => False))) as Hn.
  destruct (PaymentAutomation.getSigner O env c w) as [[[[]|e] w1] t];
    cbn in *; subst; [eauto | congruence].
Qed.



End AutomationPay.

(** ** The secondary invoice lookup *)

Lemma isZeroMerchant_streq (m : string) :
  negb (Js.streq m ZeroAddress)
  && negb (Js.streq m "0x0000000000000000000000000000000000000000")
  = negb (InvoiceCheckout.isZeroMerchant m).
Proof.
  unfold InvoiceCheckout.isZeroMerchant, ZeroAddress.
  by destruct (Js.streq m "0x0000000000000000000000000000000000000000").
Qed.

Section Secondary.
Context {W : Type} (O : Oracle W).

Lemma searchOthers_run (h : string) (w : W) nets :
  InvoiceCheckout.searchOthers O h nets w
  = (Ok (InvoiceCheckout.name <$> List.find (foundOn O h w) nets), w,
     map (fun net => Read (lookupOn h net).1 (lookupOn h net).2)
       (visited O h w nets)).
Proof.
  induction nets as [|net rest IH]; [reflexivity|].
  cbn [InvoiceCheckout.searchOthers List.find visited].
  assert (Hf : foundOn O h w net
               = configured net
                 && match o_invoices O
                            (DirectRpc (InvoiceCheckout.testRpcUrl
                                          (InvoiceCheckout.chainId net)))
                            (default EmptyString
                               (InvoiceCheckout.contractAddress net)) h w with
                    | Ok inv => negb (InvoiceCheckout.isZeroMerchant (inv0 inv))
                    | Err _ => false
                    end) by reflexivity.
  rewrite Hf. clear Hf. unfold configured at 1 2 3.
  destruct (Js.truthy (InvoiceCheckout.contractAddress net)); cbn [negb andb];
    [|exact IH].
  unfold bind, try_catch, invoices, read, ret.
  destruct (o_invoices O _ _ h w) as [inv|e].
  - rewrite isZeroMerchant_streq.
    destruct (negb (InvoiceCheckout.isZeroMerchant (inv0 inv))); cbn.
    + reflexivity.
    + by rewrite IH.
  - cbn. by rewrite IH.
Qed.

Lemma visited_all (h : string) (w : W) nets :
  List.find (foundOn O h w) nets = None ->
  visited O h w nets = List.filter configured nets.
Proof.
  induction nets as [|net rest IH]; [done|]. cbn.
  destruct (foundOn O h w net) eqn:Hf; [done|]. intros Hnone.
  destruct (configured net); [f_equal|]; auto.
Qed.

End Secondary.

Lemma toasts_app (t1 t2 : list Event) : toasts (t1 ++ t2) = toasts t1 ++ toasts t2.
Proof. unfold toasts. apply omap_app. Qed.

Lemma reads_app (t1 t2 : list Event) : reads (t1 ++ t2) = reads t1 ++ reads t2.
Proof. unfold reads. apply omap_app. Qed.

Lemma toasts_lookups {A} (f : A -> Provider * Call) (l : list A) :
  toasts (map (fun x => Read (f x).1 (f x).2) l) = [].
Proof. induction l; [done|]. exact IHl. Qed.

Lemma reads_lookups {A} (f : A -> Provider * Call) (l : list A) :
  reads (map (fun x => Read (f x).1 (f x).2) l) = map f l.
Proof.
  induction l as [|x l IH]; [done|]. cbn. destruct (f x). cbn. f_equal. exact IH.
Qed.

Lemma otherNetworks_named (env : Env) cn net :
  In net (otherNetworks env cn) -> Js.truthy (Some (InvoiceCheckout.name net)) = true.
Proof.
  unfold otherNetworks. intros H. apply filter_In in H as [H _].
  cbn in H. destruct H as [<-|[<-|[]]]; reflexivity.
Qed.

Section LookupFacade.
Context {W : Type} (O : Oracle W) (env : Env) (c : InvoiceCheckout.Ctx).

Let cn := InvoiceCheckout.currentNetwork env (InvoiceCheckout.c_chainId c).

(** The trace of [fetchInvoice] when the primary lookup returns the zero
    merchant. *)
Lemma fetchInvoice_not_on_active (w : W) (n : Z) (h a : string) (inv : RawInvoice) :
  InvoiceCheckout.c_hash c = Some h ->
  Js.truthy (Some h) = true ->
  InvoiceCheckout.c_window_ethereum c = true ->
  InvoiceCheckout.contractAddress cn = Some a ->
  Js.truthy (Some a) = true ->
  o_getNetwork O Injected w = Ok n ->
  o_invoices O (InvoiceCheckout.contractProvider n cn) a h w = Ok inv ->
  InvoiceCheckout.isZeroMerchant (inv0 inv) = true ->
  (InvoiceCheckout.fetchInvoice O env c w).2
  = [Read Injected GetNetwork;
     Read (InvoiceCheckout.contractProvider n cn) (Invoices a h)]
    ++ map (fun net => Read (lookupOn h net).1 (lookupOn h net).2)
         (visited O h w (otherNetworks env cn))
    ++ [Toast TError
          (match List.find (foundOn O h w) (otherNetworks env cn) with
           | Some net =>
               if Js.truthy (Some (InvoiceCheckout.name net))
               then InvoiceCheckout.foundMessage (InvoiceCheckout.name net)
               else InvoiceCheckout.notFoundMessage (InvoiceCheckout.name cn)
           | None => InvoiceCheckout.notFoundMessage (InvoiceCheckout.name cn)
           end);
        Set_ (SetLoading false); Set_ (SetLoading false)].
Proof.
  intros Hh Hht He Ha Hat Hn Hinv Hz.
  unfold InvoiceCheckout.fetchInvoice. fold cn. rewrite Hh, Hht, He.
  cbn [negb orb from_option id]. unfold finally, try_catch.
  unfold bind at 1. unfold getNetwork, read at 1. rewrite Hn.
  cbv beta iota zeta. rewrite Ha, Hat. cbn [negb from_option id].
  unfold bind at 1, invoices, read at 1. rewrite Hinv, Hz.
  fold (otherNetworks env cn).
  unfold bind at 1. rewrite searchOthers_run.
  destruct (List.find (foundOn O h w) (otherNetworks env cn)) as [net|];
    cbn [fmap option_fmap option_map];
    [destruct (Js.truthy (Some (InvoiceCheckout.name net)))|];
    cbn; rewrite <- ?app_assoc; reflexivity.
Qed.

(** C4 (amended). When the lookup on the active network returns the zero
    merchant, [fetchInvoice] looks the hash up on the other registered
    networks that have a contract address configured (a network without
    one is skipped) until one of them knows the invoice. If one does, the
    message names that network; otherwise every other configured network
    has been asked before the not-found message is shown. A lookup that
    fails on another network counts as not found there. *)
Theorem secondary_lookup_before_not_found (w : W) (n : Z) (h a : string)
    (inv : RawInvoice) :
  InvoiceCheckout.c_hash c = Some h ->
  Js.truthy (Some h) = true ->
  InvoiceCheckout.c_window_ethereum c = true ->
  InvoiceCheckout.contractAddress cn = Some a ->
  Js.truthy (Some a) = true ->
  o_getNetwork O Injected w = Ok n ->
  o_invoices O (InvoiceCheckout.contractProvider n cn) a h w = Ok inv ->
  InvoiceCheckout.isZeroMerchant (inv0 inv) = true ->
  match List.find (foundOn O h w) (otherNetworks env cn) with
  | Some net =>
      toasts (InvoiceCheckout.fetchInvoice O env c w).2
      = [(TError, InvoiceCheckout.foundMessage (InvoiceCheckout.name net))]
  | None =>
      toasts (InvoiceCheckout.fetchInvoice O env c w).2
      = [(TError, InvoiceCheckout.notFoundMessage (InvoiceCheckout.name cn))]
      /\ forall net, In net (otherNetworks env cn) -> configured net = true ->
           In (lookupOn h net) (reads (InvoiceCheckout.fetchInvoice O env c w).2)
  end.
Proof.
  intros Hh Hht He Ha Hat Hn Hinv Hz.
  rewrite (fetchInvoice_not_on_active w n h a inv) by done.
  rewrite !toasts_app, !reads_app, toasts_lookups, reads_lookups.
  destruct (List.find (foundOn O h w) (otherNetworks env cn)) as [net|] eqn:Hfind.
  - apply find_some in Hfind as [Hin _].
    by rewrite (otherNetworks_named env cn net Hin).
  - split; [reflexivity|]. intros net Hin Hc.
    rewrite (visited_all O h w _ Hfind).
    apply in_or_app. right. apply in_or_app. left.
    apply in_map. apply filter_In. by split.
Qed.

End LookupFacade.

(** ** Approval in the checkout flow *)

Section CheckoutApproval.
Context {W : Type} (O : Oracle W) (lib : Lib) (env : Env)
  (c : InvoiceCheckout.Ctx).

Let cn := InvoiceCheckout.currentNetwork env (InvoiceCheckout.c_chainId c).
Let account := default EmptyString (InvoiceCheckout.c_address c).

(** C2 (the code departs from the claim here). When the allowance read by
    [handlePay] is below the invoice amount, the approval for exactly the
    amount is handed to the wallet and, as soon as the wallet returns its
    hash, the payment is handed over too: the trace has no wait for a
    receipt and no second reading of the allowance, so nothing fails when
    the allowance is still short. *)
Theorem handlePay_pays_without_verifying_approval (w w1 : W) (n a : Z)
    (inv : InvoiceData) (p : Provider) (code h : string) :
  InvoiceCheckout.c_invoiceData c = Some inv ->
  InvoiceCheckout.c_contract c = true ->
  Js.truthy (InvoiceCheckout.c_address c) = true ->
  InvoiceCheckout.c_walletClient c = true ->
  token inv <> InvoiceCheckout.ETH_ADDRESS ->
  o_getNetwork O Injected w = Ok n ->
  InvoiceCheckout.paymentProvider n (InvoiceCheckout.c_chainId c) cn
  = InvoiceCheckout.UseProvider p ->
  o_getCode O p (token inv) w = Ok code ->
  code <> "0x" ->
  o_allowance O p (token inv) account (InvoiceCheckout.contractAddress cn) w = Ok a ->
  a < amount inv ->
  o_send O WalletClient
    (Approve (token inv) (InvoiceCheckout.contractAddress cn) (amount inv)) w
  = (Ok h, w1) ->
  let t := (InvoiceCheckout.handlePay O lib env c w).2 in
  sends t
  = [Approve (token inv) (InvoiceCheckout.contractAddress cn) (amount inv);
     PayInvoice (InvoiceCheckout.contractAddress cn) (InvoiceCheckout.c_hash c) 0]
  /\ reads t
     = [(Injected, GetNetwork); (p, GetCode (token inv));
        (p, Allowance (token inv) account (InvoiceCheckout.contractAddress cn))]
  /\ List.filter is_wait t = [].
Proof.
  intros Hinv Hc Ha Hwc Htok Hn Hp Hcode Hne Hal Hlt Hsend.
  unfold InvoiceCheckout.handlePay. fold cn. rewrite Hinv, Hc, Ha.
  apply streq_false in Htok, Hne. apply Z.ltb_lt in Hlt.
  cbn [negb orb]. rewrite Htok. cbn [negb].
  unfold InvoiceCheckout.approveStep. fold cn account. rewrite Hwc.
  unfold bind, finally, try_catch, getNetwork, getCode, allowance, read, set_,
    toast, defer, emit, ret, send.
  rewrite Hn, Hp, Hcode, Hne, Hal, Hlt. cbn [negb]. rewrite Hsend.
  cbv beta iota delta [negb].
  match goal with
  | |- context [o_send O WalletClient ?pay w1] =>
      destruct (o_send O WalletClient pay w1) as [[h'|e] w2]
  end; cbn; auto.
Qed.

End CheckoutApproval.

(** ** One tick of the auto-execution *)

Section AutoExecution.
Context {W : Type} (O : Oracle W) (env : Env) (c : PaymentAutomation.Ctx).

Let contract := PaymentAutomation.contractAddress (PaymentAutomation.cn env c).

(** C5 (the code departs from the claim here). When the submission of the
    first overdue, executable payment of a tick throws, the tick ends: the
    only write call of the tick is that submission, whatever payments
    follow in the list. *)
Theorem autoExecute_stops_at_first_failure (w w1 : W) (p : PaymentData)
    (rest : list PaymentData) (e : JsError) :
  PaymentAutomation.c_isConnected c = true ->
  Js.truthy (PaymentAutomation.c_address c) = true ->
  PaymentAutomation.c_scheduledPayments c = p :: rest ->
  PaymentAutomation.overdueAt (o_now O w) (scheduledTime p) = true ->
  id_ p ∈ PaymentAutomation.c_executablePayments c ->
  signerAvailable O env c w = true ->
  o_send O (Signer Transport) (ExecuteScheduledPayment contract (id_ p)) w
  = (Err e, w1) ->
  sends (PaymentAutomation.autoExecuteOverduePayments O env c w).2
  = [ExecuteScheduledPayment contract (id_ p)]
  /\ (PaymentAutomation.autoExecuteOverduePayments O env c w).1 = (Ok tt, w1).
Proof.
  intros Hconn Ha Hl Hover Hex Hs Hsend.
  assert (Hrun : exists t,
    PaymentAutomation.autoExecuteOverduePayments O env c w
    = (Ok tt, w1,
       t ++ [Send (Signer Transport) (ExecuteScheduledPayment contract (id_ p))])
    /\ sends t = []).
  { unfold PaymentAutomation.autoExecuteOverduePayments.
    rewrite Hconn, Ha, Hl. cbn [negb orb length Nat.eqb].
    cbn [PaymentAutomation.autoLoop].
    unfold PaymentAutomation.isPaymentOverdue.
    unfold try_catch, bind, now, ret, send.
    cbv beta iota. rewrite Hover. cbn [andb]. rewrite (bool_decide_eq_true_2 _ Hex).
    cbv beta iota. fold contract.
    pose proof (getSigner_result O env c w) as Hr.
    destruct (getSigner_quiet O env c w) as [Hw _].
    pose proof (writes_none _ _ w (getSigner_writes O env c (fun _ => False)))
      as Hn.
    destruct (PaymentAutomation.getSigner O env c w) as [[[[]|e'] w'] t];
      cbn [fst snd] in Hr, Hw, Hn; subst w'; [|congruence].
    rewrite Hsend. cbn [fst snd app]. rewrite !app_nil_r. eauto. }
  destruct Hrun as (t & -> & Ht). cbn [fst snd]. sends_norm. by rewrite Ht.
Qed.

End AutoExecution.


(** * The properties on the simulated chain *)



Lemma handlePay_pays_without_verifying_approval_witness :
  let c := Sim.checkout 84532 (Some (mapInvoice Sim.usdcInvoice)) in
  let w := Sim.world0 in
  let w1 := Sim.bump Sim.world0 (Some 1000000) in
  o_allowance Sim.oracle Injected USDC_ADDRESS Sim.alice (Some "0xPayrollBase") w
  = Ok 0
  /\ o_allowance Sim.oracle Injected USDC_ADDRESS Sim.alice (Some "0xPayrollBase") w1
     = Ok 0
  /\ sends (InvoiceCheckout.handlePay Sim.oracle Sim.lib Sim.env c w).2
     = [Approve USDC_ADDRESS (Some "0xPayrollBase") 1000000;
        PayInvoice (Some "0xPayrollBase") (Some "0xabc") 0]
  /\ List.filter is_wait
       (InvoiceCheckout.handlePay Sim.oracle Sim.lib Sim.env c w).2 = [].
Proof.
  intros c w w1. split; [reflexivity|]. split; [reflexivity|].
  destruct (handlePay_pays_without_verifying_approval Sim.oracle Sim.lib Sim.env
              c w w1 84532 0 (mapInvoice Sim.usdcInvoice) Injected "0x6080" "0xtx0")
    as (Hs & _ & Hw);
    try reflexivity; try (vm_compute; discriminate); try (vm_compute; reflexivity).
  split; [exact Hs | exact Hw].
Defined.

(** C4, as stated, fails when the other registered network has no contract
    address configured: Morph Holesky is registered, the lookup on Base
    Sepolia returns the zero merchant, and not-found is reported without
    any lookup on Morph Holesky. *)
Lemma not_found_without_asking_unconfigured_network :
  let c := Sim.checkout 84532 None in
  let cn := InvoiceCheckout.currentNetwork Sim.env_no_morph
              (InvoiceCheckout.c_chainId c) in
  otherNetworks Sim.env_no_morph cn = [InvoiceCheckout.MORPH_HOLESKY Sim.env_no_morph]
  /\ reads (InvoiceCheckout.fetchInvoice Sim.oracle Sim.env_no_morph c Sim.world0).2
     = [(Injected, GetNetwork); (Injected, Invoices "0xPayrollBase" "0xabc")]
  /\ toasts (InvoiceCheckout.fetchInvoice Sim.oracle Sim.env_no_morph c Sim.world0).2
     = [(TError,
         "Invoice not found on Base Sepolia. Please check the invoice hash.")].
Proof. vm_compute. repeat split. Qed.

Lemma secondary_lookup_before_not_found_witness :
  let c := Sim.checkout 84532 None in
  let w := Sim.with_invoices Sim.onMorphOnly Sim.world0 in
  InvoiceCheckout.isZeroMerchant (inv0 Sim.noInvoice) = true
  /\ toasts (InvoiceCheckout.fetchInvoice Sim.oracle Sim.env c w).2
     = [(TError, InvoiceCheckout.foundMessage "Morph Holesky")].
Proof.
  intros c w. split; [reflexivity|].
  exact (secondary_lookup_before_not_found Sim.oracle Sim.env c w 84532 "0xabc"
           "0xPayrollBase" Sim.noInvoice eq_refl eq_refl eq_refl eq_refl eq_refl
           eq_refl eq_refl eq_refl).
Defined.

Lemma autoExecute_stops_at_first_failure_witness :
  PaymentAutomation.overdueAt (o_now Sim.oracle Sim.world_pay)
    (scheduledTime Sim.pay1) = true
  /\ id_ Sim.pay1 ∈ PaymentAutomation.c_executablePayments Sim.alice_page
  /\ sends (PaymentAutomation.autoExecuteOverduePayments Sim.oracle Sim.env
              Sim.alice_page Sim.world_pay).2
     = [ExecuteScheduledPayment "0xAutomationBase" "0"].
Proof.
  split; [vm_compute; reflexivity|].
  split; [cbn; set_solver|].
  refine (proj1 (autoExecute_stops_at_first_failure Sim.oracle Sim.env
                   Sim.alice_page Sim.world_pay Sim.world_pay Sim.pay0 [Sim.pay1]
                   Sim.reverted eq_refl eq_refl eq_refl _ _ _ _)).
  - vm_compute; reflexivity.
  - cbn; set_solver.
  - vm_compute; reflexivity.
  - vm_compute; reflexivity.
Defined.

Lemma executable_set_creator_or_unrelated_witness :
  exists s,
    updates (PaymentAutomation.checkExecutablePayments Sim.oracle Sim.env
               Sim.alice_page [Sim.pay0; Sim.pay1] Sim.world_pay).2
    = [SetExecutablePayments s]
    /\ id_ Sim.pay0 ∈ s.
Proof.
  destruct (executable_set_creator_or_unrelated Sim.oracle Sim.env Sim.alice_page
              Sim.world_pay [Sim.pay0; Sim.pay1] Sim.pay0 Sim.alice)
    as (s & Hs & Hcreator & _);
    [reflexivity | reflexivity | reflexivity | by left
    | vm_compute; reflexivity |].
  exists s. split; [exact Hs|].
  apply (Hcreator eq_refl Sim.details0); reflexivity.
Defined.

(** The same payments seen from the page of [bob], who is neither their
    creator, nor the owner, nor a controller: none is executable. *)
Lemma unrelated_account_on_sim :
  updates (PaymentAutomation.checkExecutablePayments Sim.oracle Sim.env
             Sim.bob_page [Sim.pay0; Sim.pay1] Sim.world_pay).2
  = [SetExecutablePayments ∅].
Proof. vm_compute. reflexivity. Qed.

Lemma getAnalyticsData_deterministic_witness :
  Dashboard.getAnalyticsData Sim.hostA "Last 30 Days" [Sim.paidInvoice]
  = Dashboard.getAnalyticsData Sim.hostB "Last 30 Days" [Sim.paidInvoice]
  /\ Sim.hostA <> Sim.hostB.
Proof.
  split; [|discriminate].
  exact (proj1 (getAnalyticsData_deterministic Sim.hostA Sim.hostB "Last 30 Days"
                  [Sim.paidInvoice] eq_refl (fun _ _ => eq_refl))).
Defined.

(** * Further properties of the flows *)

(** ** Flows that change nothing on the chain *)

Section Still.
Context {W : Type} (O : Oracle W).

Lemma still_ret {A} (a : A) : still (ret (W:=W) a).
Proof. by intros w. Qed.

Lemma still_throw {A} e : still (throw (W:=W) (A:=A) e).
Proof. by intros w. Qed.

Lemma still_toast k s : still (toast (W:=W) k s).
Proof. by intros w. Qed.

Lemma still_set u : still (set_ (W:=W) u).
Proof. by intros w. Qed.

Lemma still_read {A} p c (ans : W -> Res A) : still (read p c ans).
Proof. by intros w. Qed.

Lemma still_now : still (now O).
Proof. by intros w. Qed.

Lemma still_bind {A B} (m : M W A) (k : A -> M W B) :
  still m -> (forall a, still (k a)) -> still (bind m k).
Proof.
  intros Hm Hk w. unfold bind. destruct (Hm w) as [H1 H2].
  destruct (m w) as [[[a|e] w1] t1]; cbn [fst snd] in *; subst w1; [|done].
  destruct (Hk a w) as [H3 H4].
  destruct (k a w) as [[r w2] t2]; cbn [fst snd] in *.
  split; [done|]. by rewrite sends_app, H2, H4.
Qed.

Lemma still_try_catch {A} (m : M W A) h :
  still m -> (forall e, still (h e)) -> still (try_catch m h).
Proof.
  intros Hm Hh w. unfold try_catch. destruct (Hm w) as [H1 H2].
  destruct (m w) as [[[a|e] w1] t1]; cbn [fst snd] in *; subst w1; [done|].
  destruct (Hh e w) as [H3 H4].
  destruct (h e w) as [[r w2] t2]; cbn [fst snd] in *.
  split; [done|]. by rewrite sends_app, H2, H4.
Qed.

Lemma still_finally {A} (m : M W A) f :
  still m -> still f -> still (finally m f).
Proof.
  intros Hm Hf w. unfold finally. destruct (Hm w) as [H1 H2].
  destruct (m w) as [[r w1] t1]; cbn [fst snd] in *; subst w1.
  destruct (Hf w) as [H3 H4].
  destruct (f w) as [[r2 w2] t2]; cbn [fst snd] in *.
  split; [done|]. by rewrite sends_app, H2, H4.
Qed.

Lemma quiet_still {A} (m : M W A) : quiet m -> still m.
Proof.
  intros H w. destruct (H w) as [H1 H2]. split; [done|].
  induction H2 as [|e t He _ IH]; [done|]. by destruct e.
Qed.

End Still.

(** The write calls of composed flows. *)
Section SendsOf.
Context {W : Type}.

Lemma sends_bind {A B} (m : M W A) (k : A -> M W B) w :
  sends (bind m k w).2
  = sends (m w).2
    ++ match m w with
       | (Ok a, w1, _) => sends (k a w1).2
       | (Err _, _, _) => []
       end.
Proof.
  unfold bind. destruct (m w) as [[[a|e] w1] t1]; cbn [fst snd].
  - destruct (k a w1) as [[r w2] t2]. cbn [fst snd]. apply sends_app.
  - by rewrite app_nil_r.
Qed.

Lemma sends_bind_still {A B} (m : M W A) (k : A -> M W B) w :
  still m ->
  sends (bind m k w).2
  = match (m w).1.1 with Ok a => sends (k a w).2 | Err _ => [] end.
Proof.
  intros Hm. rewrite sends_bind. destruct (Hm w) as [Hw Hs]. rewrite Hs.
  destruct (m w) as [[[a|e] w1] t1]; cbn [fst snd] in *; by subst.
Qed.

Lemma sends_try_catch {A} (m : M W A) (h : JsError -> M W A) w :
  sends (try_catch m h w).2
  = sends (m w).2
    ++ match m w with
       | (Ok _, _, _) => []
       | (Err e, w1, _) => sends (h e w1).2
       end.
Proof.
  unfold try_catch. destruct (m w) as [[[a|e] w1] t1]; cbn [fst snd].
  - by rewrite app_nil_r.
  - destruct (h e w1) as [[r w2] t2]. cbn [fst snd]. apply sends_app.
Qed.

Lemma sends_try_catch_still {A} (m : M W A) (h : JsError -> M W A) w :
  (forall e, still (h e)) ->
  sends (try_catch m h w).2 = sends (m w).2.
Proof.
  intros Hh. rewrite sends_try_catch.
  destruct (m w) as [[[a|e] w1] t1]; cbn [fst snd]; rewrite ?app_nil_r;
    [done|]. destruct (Hh e w1) as [_ ->]. by rewrite app_nil_r.
Qed.

Lemma sends_then_still {A B} (m : M W A) (k : A -> M W B) w :
  (forall a, still (k a)) ->
  sends (bind m k w).2 = sends (m w).2.
Proof.
  intros Hk. rewrite sends_bind.
  destruct (m w) as [[[a|e] w1] t1]; cbn [fst snd]; rewrite ?app_nil_r;
    [|done]. destruct (Hk a w1) as [_ ->]. by rewrite app_nil_r.
Qed.

End SendsOf.

Ltac still_branch :=
  match goal with
  | |- still (if ?b then _ else _) => destruct b
  | |- still (match ?x with _ => _ end) => destruct x
  end.

Ltac still_auto :=
  repeat first
    [ still_branch
    | apply still_ret | apply still_throw | apply still_toast | apply still_set
    | apply still_read | apply still_now
    | apply still_bind; [| intros ?]
    | apply still_try_catch; [| intros ?]
    | apply still_finally ].

Section StillFlows.
Context {W : Type} (O : Oracle W) (lib : Lib) (env : Env).

Lemma checkExecutablePayments_still c payments :
  still (PaymentAutomation.checkExecutablePayments O env c payments).
Proof.
  unfold PaymentAutomation.checkExecutablePayments.
  still_auto. apply quiet_still, checkLoop_quiet.
Qed.

Lemma loadPaymentData_still c : still (PaymentAutomation.loadPaymentData O lib env c).
Proof.
  unfold PaymentAutomation.loadPaymentData, nextPaymentId.
  still_auto;
    first [ apply quiet_still, getSigner_quiet
          | apply quiet_still, loadLoop_quiet
          | apply checkExecutablePayments_still ].
Qed.

Lemma searchOthers_still h nets : still (InvoiceCheckout.searchOthers O h nets).
Proof.
  intros w. rewrite searchOthers_run. cbn [fst snd]. split; [done|].
  induction (visited O h w nets) as [|net l IH]; [done|]. exact IH.
Qed.

Lemma fetchInvoice_still c : still (InvoiceCheckout.fetchInvoice O env c).
Proof.
  unfold InvoiceCheckout.fetchInvoice, getNetwork, invoices.
  still_auto. apply searchOthers_still.
Qed.

Lemma refreshInvoice_still c : still (InvoiceCheckout.refreshInvoice O env c).
Proof.
  unfold InvoiceCheckout.refreshInvoice, getNetwork, invoices. still_auto.
Qed.

Lemma loadAuthorizationStatus_still c :
  still (AutomationExecute.loadAuthorizationStatus O env c).
Proof.
  unfold AutomationExecute.loadAuthorizationStatus, owner, authorizedControllers.
  still_auto. apply quiet_still, getSigner_quiet.
Qed.

(** X1. The flows that load and look up leave the chain alone: loading the
    payment lists, checking the executable set, asking whether a payment
    may be executed, loading the authorization status, looking an invoice
    up and refreshing it issue no write call and leave the world as it
    was, whatever the wallet and the endpoints answer. *)
Theorem loading_and_lookup_never_write :
  (forall c (w : W),
      (PaymentAutomation.loadPaymentData O lib env c w).1.2 = w
      /\ sends (PaymentAutomation.loadPaymentData O lib env c w).2 = [])
  /\ (forall c payments (w : W),
        (PaymentAutomation.checkExecutablePayments O env c payments w).1.2 = w
        /\ sends (PaymentAutomation.checkExecutablePayments O env c payments w).2
           = [])
  /\ (forall c pid (w : W),
        (PaymentAutomation.canExecutePayment O env c pid w).1.2 = w
        /\ sends (PaymentAutomation.canExecutePayment O env c pid w).2 = [])
  /\ (forall c (w : W),
        (AutomationExecute.loadAuthorizationStatus O env c w).1.2 = w
        /\ sends (AutomationExecute.loadAuthorizationStatus O env c w).2 = [])
  /\ (forall c (w : W),
        (InvoiceCheckout.fetchInvoice O env c w).1.2 = w
        /\ sends (InvoiceCheckout.fetchInvoice O env c w).2 = [])
  /\ (forall c (w : W),
        (InvoiceCheckout.refreshInvoice O env c w).1.2 = w
        /\ sends (InvoiceCheckout.refreshInvoice O env c w).2 = []).
Proof.
  split; [intros c; apply loadPaymentData_still|].
  split; [intros c p; apply checkExecutablePayments_still|].
  split; [intros c pid; apply quiet_still, canExecutePayment_quiet|].
  split; [intros c; apply loadAuthorizationStatus_still|].
  split; [intros c; apply fetchInvoice_still | intros c; apply refreshInvoice_still].
Qed.

End StillFlows.

(** ** Submitting a payment on the automation page *)

Section SubmitPayment.
Context {W : Type} (O : Oracle W) (lib : Lib) (env : Env)
  (c : PaymentAutomation.Ctx).

Let cn := PaymentAutomation.cn env c.
Let contract := PaymentAutomation.contractAddress cn.
Let account := PaymentAutomation.addr c.
Let tok := tk_address (PaymentAutomation.token cn).

Ltac invalid_input H :=
  unfold inputInvalid, PaymentAutomation.submitPayment;
  unfold bind, try_catch, set_, emit, throw;
  intros H;
  destruct (negb (PaymentAutomation.c_isConnected c)
            || negb (Js.truthy (PaymentAutomation.c_address c)));
    cbn [orb] in H; [cbn; eauto|];
  destruct (negb (Js.truthy (Some (PaymentAutomation.c_amount c))));
    cbn [orb] in H |- *; [cbn; eauto|];
  destruct (Js.isNaN _); cbn [orb] in H |- *; [cbn; eauto|];
  destruct (Js.fleb _ _); cbn [orb] in H |- *; [cbn; eauto|];
  destruct (length (PaymentAutomation.validRecipients lib c) =? 0)%nat;
    cbn [orb] in H |- *; [cbn; eauto|];
  destruct (0 <? length (PaymentAutomation.invalidAddresses lib c))%nat;
    cbn [orb] in H |- *; [cbn; eauto|];
  rewrite H; cbn; eauto.

(** Invalid input leads to no write call. *)
Lemma submitPayment_invalid_sends (w : W) :
  inputInvalid lib env c = true ->
  sends (PaymentAutomation.submitPayment O lib env c w).2 = [].
Proof. invalid_input H. Qed.

(** X2. Invalid input never reaches the network: when one of the input
    checks of [submitPayment] fails (wallet not connected, amount empty,
    not a number or not positive, no valid recipient, a malformed
    recipient, no contract address for the network), the whole run is the
    busy flag set, one error toast, and the busy flag cleared: no read
    request and no write call. *)
Theorem submitPayment_rejects_invalid_input (w : W) :
  inputInvalid lib env c = true ->
  exists msg,
    PaymentAutomation.submitPayment O lib env c w
    = (Ok tt, w,
       [Set_ (SetIsLoading true); Toast TError msg; Set_ (SetIsLoading false)]).
Proof.
  unfold inputInvalid, PaymentAutomation.submitPayment. fold cn contract.
  unfold bind, try_catch, set_, emit, throw.
  intros H.
  destruct (negb (PaymentAutomation.c_isConnected c)
            || negb (Js.truthy (PaymentAutomation.c_address c))) eqn:H1;
    cbn [orb] in H; [cbn; eauto|].
  destruct (negb (Js.truthy (Some (PaymentAutomation.c_amount c)))) eqn:H2;
    cbn [orb] in H |- *; [cbn; eauto|].
  destruct (Js.isNaN _) eqn:H3; cbn [orb] in H |- *; [cbn; eauto|].
  destruct (Js.fleb _ _) eqn:H4; cbn [orb] in H |- *; [cbn; eauto|].
  destruct (length (PaymentAutomation.validRecipients lib c) =? 0)%nat eqn:H5;
    cbn [orb] in H |- *; [cbn; eauto|].
  destruct (0 <? length (PaymentAutomation.invalidAddresses lib c))%nat eqn:H6;
    cbn [orb] in H |- *; [cbn; eauto|].
  rewrite H. cbn. eauto.
Qed.

Lemma inputInvalid_false :
  inputInvalid lib env c = false ->
  PaymentAutomation.c_isConnected c = true
  /\ Js.truthy (PaymentAutomation.c_address c) = true
  /\ Js.truthy (Some (PaymentAutomation.c_amount c)) = true
  /\ Js.isNaN (Number_of_string lib (PaymentAutomation.c_amount c)) = false
  /\ Js.fleb (Number_of_string lib (PaymentAutomation.c_amount c))
       (S754_zero false) = false
  /\ (length (PaymentAutomation.validRecipients lib c) =? 0)%nat = false
  /\ (0 <? length (PaymentAutomation.invalidAddresses lib c))%nat = false
  /\ Js.truthy (Some contract) = true.
Proof.
  unfold inputInvalid. fold cn contract. intros H.
  repeat (apply orb_false_iff in H as [H ?]).
  repeat match goal with
         | H : negb _ = false |- _ => apply negb_false_iff in H
         end.
  by repeat split.
Qed.

(** The run of [submitPayment] up to the balance check, with too little
    balance. *)
Lemma submitPayment_insufficient_balance (w : W) (amountRaw b : Z) :
  inputInvalid lib env c = false ->
  signerAvailable O env c w = true ->
  parseUnits lib (PaymentAutomation.c_amount c)
    (tk_decimals (PaymentAutomation.token cn)) = Ok amountRaw ->
  o_balanceOf O Transport tok account w = Ok b ->
  b < amountRaw ->
  exists t msg,
    PaymentAutomation.getSigner O env c w = (Ok tt, w, t)
    /\ PaymentAutomation.submitPayment O lib env c w
       = (Ok tt, w,
          [Set_ (SetIsLoading true)] ++ t
          ++ [Toast TInfo ("Checking " +:+ tk_symbol (PaymentAutomation.token cn)
                            +:+ " balance...");
              Read Transport (BalanceOf tok account);
              Read Transport (Decimals tok);
              Toast TError ("Transaction failed: Balance check failed: Insufficient "
                            +:+ msg);
              Set_ (SetIsLoading false)]).
Proof.
  intros Hin Hs Hparse Hb Hlt.
  apply inputInvalid_false in Hin
    as (Hconn & Haddr & Hamt & Hnan & Hpos & Hvalid & Hinvalid & Hca).
  destruct (getSigner_run O env c w Hs) as (t1 & Hrun1 & Hs1).
  unfold PaymentAutomation.submitPayment. fold cn contract tok.
  rewrite Hconn, Haddr, Hamt, Hnan, Hpos, Hvalid, Hinvalid, Hca.
  cbn [negb orb].
  unfold PaymentAutomation.checkTokenBalance. rewrite Haddr. cbn [negb].
  fold cn account.
  unfold bind, try_catch, set_, toast, emit, throw,
    PaymentAutomation.promise_all2, balanceOf, decimals, read, ret.
  rewrite Hrun1, Hparse, Hb. apply Z.ltb_lt in Hlt.
  destruct (o_decimals O Transport tok w) as [d|e]; cbn [fst snd];
    rewrite Hlt; cbn; rewrite <- ?app_assoc; cbn; eauto.
Qed.

(** X3. The balance is checked before anything is approved or paid: when
    the token balance of the account is below the entered amount,
    [submitPayment] reads the balance and stops with an error toast; it
    issues no write call and never reads the allowance. *)
Theorem submitPayment_checks_balance_first (w : W) (amountRaw b : Z) :
  inputInvalid lib env c = false ->
  signerAvailable O env c w = true ->
  parseUnits lib (PaymentAutomation.c_amount c)
    (tk_decimals (PaymentAutomation.token cn)) = Ok amountRaw ->
  o_balanceOf O Transport tok account w = Ok b ->
  b < amountRaw ->
  let t := (PaymentAutomation.submitPayment O lib env c w).2 in
  sends t = []
  /\ List.filter is_allowance_read (reads t) = []
  /\ In (Transport, BalanceOf tok account) (reads t)
  /\ exists msg, last (toasts t) = Some (TError, msg).
Proof.
  intros Hin Hs Hparse Hb Hlt.
  destruct (submitPayment_insufficient_balance w amountRaw b Hin Hs Hparse Hb Hlt)
    as (t1 & msg & Hrun1 & ->).
  pose proof (getSigner_quiet O env c w) as [_ Hq]. rewrite Hrun1 in Hq.
  cbn [fst snd] in *.
  assert (Hsends : sends t1 = []).
  { destruct (getSigner_run O env c w Hs) as (t' & Hrun' & Hs').
    rewrite Hrun1 in Hrun'. by injection Hrun' as <-. }
  assert (Hreads : List.filter is_allowance_read (reads t1) = []).
  { unfold PaymentAutomation.getSigner, throw, provider_getSigner, read in Hrun1.
    repeat match type of Hrun1 with
           | (if ?b then _ else _) _ = _ => destruct b
           end; injection Hrun1 as _ <-; reflexivity. }
  repeat split.
  - sends_norm. by rewrite Hsends.
  - rewrite !reads_app, !List.filter_app, Hreads. reflexivity.
  - rewrite !reads_app. apply in_or_app. right. apply in_or_app. right.
    cbn. by left.
  - eexists. rewrite !toasts_app.
    match goal with
    | |- last (_ ++ _ ++ toasts [Toast ?k1 ?m1; _; _; Toast ?k2 ?m2; _]) = _ =>
        change (toasts [Toast k1 m1; Read Transport (BalanceOf tok account);
                        Read Transport (Decimals tok); Toast k2 m2;
                        Set_ (SetIsLoading false)])
          with ([(k1, m1)] ++ [(k2, m2)])
    end.
    rewrite !app_assoc. apply last_snoc.
Qed.

Lemma approveToken_sends (w : W) (amt : Z) :
  sends (PaymentAutomation.approveToken O lib env c tok amt w).2 = []
  \/ sends (PaymentAutomation.approveToken O lib env c tok amt w).2
     = [Approve tok (Some contract) amt].
Proof.
  unfold PaymentAutomation.approveToken. fold cn contract account.
  unfold try_catch, bind, allowance, read, send, wait, toast, emit, throw, ret.
  destruct (negb (Js.truthy (PaymentAutomation.c_address c))); [by left|].
  destruct (o_allowance O Transport tok account (Some contract) w) as [a|e];
    [|by left].
  destruct (a <? amt); [|by left].
  destruct (o_send O _ _ w) as [[h|e] w1]; [|by right].
  destruct (o_wait O h w1) as [[u|e] w2]; [|by right].
  destruct (o_allowance O Transport tok account (Some contract) w2) as [a'|e];
    [|by right].
  destruct (a' <? amt); by right.
Qed.

Lemma checkTokenBalance_still (amt : Z) :
  still (PaymentAutomation.checkTokenBalance O lib env c tok amt).
Proof.
  intros w. split.
  - unfold PaymentAutomation.checkTokenBalance, try_catch, bind,
      PaymentAutomation.promise_all2, balanceOf, decimals, read, throw, ret.
    destruct (negb (Js.truthy (PaymentAutomation.c_address c))); [done|].
    destruct (o_balanceOf O Transport tok _ w) as [b|e];
      destruct (o_decimals O Transport tok w) as [d|e']; cbn; try done;
      by destruct (b <? amt).
  - apply (writes_none _ (fun _ => True)), checkTokenBalance_writes.
Qed.

(** The write calls of the part of [submitPayment] after the approval. *)
Lemma submitPayment_tail_sends (w : W) (amountRaw : Z) (k : M W unit) :
  (forall w', sends (k w').2 = []) ->
  let tail :=
    (tx <~ (if PaymentAutomation.c_scheduled c then
              if negb (Js.truthy (Some (PaymentAutomation.c_scheduledDate c)))
              then throw (mkError "Scheduled date required")
              else
                toast TInfo "Scheduling payment..." ;;
                send O (Signer Transport)
                  (SchedulePaymentWithToken contract tok amountRaw
                     (PaymentAutomation.validRecipients lib c)
                     ((fun ms => ms / 1000)
                        <$> Date_getTime lib (PaymentAutomation.c_scheduledDate c)))
            else
              toast TInfo "Executing payment..." ;;
              send O (Signer Transport)
                (ExecutePaymentNowWithToken contract tok amountRaw
                   (PaymentAutomation.validRecipients lib c))) ;;
     toast TInfo "Transaction sent, waiting for confirmation..." ;;
     wait O tx ;;
     (if PaymentAutomation.c_scheduled c
      then toast TSuccess "Payment scheduled successfully!"
      else toast TSuccess "Payment executed successfully!") ;;
     set_ ResetForm ;;
     k) in
  sends (tail w).2 = [] \/ sends (tail w).2 = [paymentCall lib env c amountRaw].
Proof.
  intros Hk tail. subst tail. unfold paymentCall. fold cn contract tok.
  unfold bind, toast, set_, emit, throw, send, wait.
  destruct (PaymentAutomation.c_scheduled c);
    [destruct (negb (Js.truthy (Some (PaymentAutomation.c_scheduledDate c))));
     [by left|]|];
    (destruct (o_send O (Signer Transport) _ w) as [[h|e] w1]; [|by right]);
    (destruct (o_wait O h w1) as [[u|e] w2]; [|by right]);
    specialize (Hk w2); destruct (k w2) as [[r3 w3] t3];
    cbn [fst snd] in *; right; destruct r3; cbn [fst snd];
    sends_norm; by rewrite Hk.
Qed.

(** The write calls of [submitPayment], by the outcome of its approval
    step, which runs in the world the function was started in. *)
Lemma submitPayment_sends (w : W) :
  let s := sends (PaymentAutomation.submitPayment O lib env c w).2 in
  s = []
  \/ exists amountRaw r3 w3 t3,
       parseUnits lib (PaymentAutomation.c_amount c)
         (tk_decimals (PaymentAutomation.token cn)) = Ok amountRaw
       /\ PaymentAutomation.approveToken O lib env c tok amountRaw w
          = (r3, w3, t3)
       /\ ((exists e, r3 = Err e) /\ s = sends t3
           \/ r3 = Ok tt
              /\ (s = sends t3
                  \/ s = sends t3 ++ [paymentCall lib env c amountRaw])).
Proof.
  intros s. subst s.
  destruct (inputInvalid lib env c) eqn:Hin.
  { left. by apply submitPayment_invalid_sends. }
  apply inputInvalid_false in Hin
    as (Hconn & Haddr & Hamt & Hnan & Hpos & Hvalid & Hinvalid & Hca).
  assert (Hfail : forall e, still (PaymentAutomation.submitFailed (W:=W) e)).
  { intros e. unfold PaymentAutomation.submitFailed. still_auto. }
  unfold PaymentAutomation.submitPayment. fold cn contract tok.
  rewrite Hconn, Haddr, Hamt, Hnan, Hpos, Hvalid, Hinvalid, Hca.
  cbn [negb orb].
  rewrite (sends_bind_still (set_ _)) by apply still_set.
  cbn [fst snd set_ emit].
  rewrite sends_then_still by (intros; apply still_set).
  rewrite sends_try_catch_still by exact Hfail.
  (* the signer *)
  rewrite sends_bind_still by apply quiet_still, getSigner_quiet.
  destruct (PaymentAutomation.getSigner O env c w).1.1 as [u1|e1]; [|by left].
  (* the amount *)
  rewrite sends_bind_still by (intros w'; by split).
  cbn [fst snd].
  destruct (parseUnits lib (PaymentAutomation.c_amount c)
              (tk_decimals (PaymentAutomation.token cn))) as [amountRaw|e2]
    eqn:Hparse; [|by left].
  (* the balance *)
  rewrite (sends_bind_still (toast _ _)) by apply still_toast.
  cbn [fst snd toast emit].
  rewrite sends_bind_still by apply checkTokenBalance_still.
  destruct (PaymentAutomation.checkTokenBalance O lib env c tok amountRaw w).1.1
    as [u2|e2]; [|by left].
  (* the approval, then the payment *)
  rewrite (sends_bind_still (toast _ _)) by apply still_toast.
  cbn [fst snd toast emit].
  rewrite sends_bind.
  right. exists amountRaw.
  destruct (PaymentAutomation.approveToken O lib env c tok amountRaw w)
    as [[[[]|e3] w3] t3]; cbn [fst snd]; do 3 eexists;
    (split; [reflexivity|]); (split; [reflexivity|]).
  2:{ left. rewrite app_nil_r. eauto. }
  right. split; [done|].
  pose proof (submitPayment_tail_sends w3 amountRaw
                (PaymentAutomation.loadPaymentData O lib env c)
                (fun w' => proj2 (loadPaymentData_still O lib env c w'))) as Hs4.
  cbv zeta in Hs4.
  destruct Hs4 as [->| ->]; rewrite ?app_nil_r; auto.
Qed.

(** X4. One run of [submitPayment] issues at most one approval and at most
    one payment call, the approval first: its write calls are nothing, the
    approval alone, the payment alone, or the approval followed by the
    payment, and both carry the same scaled amount. *)
Theorem submitPayment_approval_then_payment (w : W) :
  let s := sends (PaymentAutomation.submitPayment O lib env c w).2 in
  s = []
  \/ exists amountRaw,
       parseUnits lib (PaymentAutomation.c_amount c)
         (tk_decimals (PaymentAutomation.token cn)) = Ok amountRaw
       /\ (s = [Approve tok (Some contract) amountRaw]
           \/ s = [paymentCall lib env c amountRaw]
           \/ s = [Approve tok (Some contract) amountRaw;
                   paymentCall lib env c amountRaw]).
Proof.
  intros s. subst s.
  destruct (submitPayment_sends w)
    as [?|(amountRaw & r3 & w3 & t3 & Hparse & Hrun & Hs)]; [by left|].
  pose proof (approveToken_sends w amountRaw) as Hs3.
  rewrite Hrun in Hs3. cbn [fst snd] in Hs3.
  destruct Hs as [[_ ->]|[_ [->| ->]]], Hs3 as [->| ->]; cbn [app];
    try (by left); right; exists amountRaw; auto.
Qed.

(** X5. [submitPayment] pays only out of a verified allowance: with a token
    whose allowance for the contract stays below the amount whatever is
    approved, every write call of the run is an approval; the payment call
    is never submitted. *)
Theorem submitPayment_pays_only_with_allowance (w : W) :
  (forall amountRaw w' a,
     parseUnits lib (PaymentAutomation.c_amount c)
       (tk_decimals (PaymentAutomation.token cn)) = Ok amountRaw ->
     o_allowance O Transport tok account (Some contract) w' = Ok a ->
     a < amountRaw) ->
  Forall (fun tx => is_approve tx = true)
    (sends (PaymentAutomation.submitPayment O lib env c w).2).
Proof.
  intros Hshort.
  destruct (submitPayment_sends w)
    as [->|(amountRaw & r3 & w3 & t3 & Hparse & Hrun & Hs)]; [constructor|].
  pose proof (approveToken_sends w amountRaw) as Hs3.
  rewrite Hrun in Hs3. cbn [fst snd] in Hs3.
  assert (Happ : Forall (fun tx => is_approve tx = true) (sends t3)).
  { destruct Hs3 as [->| ->]; repeat constructor. }
  destruct Hs as [[_ ->]|[-> Hs]]; [done|].
  apply approveToken_Ok in Hrun as (_ & a & Ha & Hle).
  specialize (Hshort _ _ _ Hparse Ha). lia.
Qed.

End SubmitPayment.

(** ** What a tick of the auto-execution submits *)

Section AutoSubmits.
Context {W : Type} (O : Oracle W) (env : Env) (c : PaymentAutomation.Ctx).

Let contract := PaymentAutomation.contractAddress (PaymentAutomation.cn env c).

(** The submission of one payment in the loop. *)
Lemma autoStep_sends (p : PaymentData) (w : W) :
  let step :=
    (PaymentAutomation.getSigner O env c ;;
     tx <~ send O (Signer Transport)
             (ExecuteScheduledPayment contract (id_ p)) ;;
     defer (OnConfirmation (id_ p) tx) ;;
     sleep O 1000) in
  sends (step w).2 = []
  \/ sends (step w).2 = [ExecuteScheduledPayment contract (id_ p)].
Proof.
  intros step. subst step.
  rewrite sends_bind_still by apply quiet_still, getSigner_quiet.
  destruct (PaymentAutomation.getSigner O env c w).1.1 as [[]|e]; [|by left].
  right. unfold bind, send, defer, sleep, emit.
  by destruct (o_send O (Signer Transport) _ w) as [[h|e] w1].
Qed.

Lemma autoLoop_sends (payments : list PaymentData) (w : W) :
  exists l,
    sublist l payments
    /\ Forall (fun p => id_ p ∈ PaymentAutomation.c_executablePayments c) l
    /\ sends (PaymentAutomation.autoLoop O env c payments w).2
       = (fun p => ExecuteScheduledPayment contract (id_ p)) <$> l.
Proof.
  revert w. induction payments as [|p rest IH]; intros w.
  { exists []. by repeat split. }
  cbn [PaymentAutomation.autoLoop].
  rewrite sends_bind_still
    by (unfold PaymentAutomation.isPaymentOverdue; still_auto).
  unfold PaymentAutomation.isPaymentOverdue at 1.
  unfold bind at 1, now, ret at 1. cbn [fst snd].
  rewrite sends_bind.
  destruct (PaymentAutomation.overdueAt (o_now O w) (scheduledTime p)
            && bool_decide (id_ p ∈ PaymentAutomation.c_executablePayments c))
    eqn:Hgo.
  - apply andb_true_iff in Hgo as [_ Hex%bool_decide_eq_true_1].
    fold contract. pose proof (autoStep_sends p w) as Hstep. cbv zeta in Hstep.
    match type of Hstep with
    | sends (?step w).2 = [] \/ _ =>
        destruct (step w) as [[[[]|e] w1] t1]
    end; cbn [fst snd] in Hstep |- *.
    + destruct (IH w1) as (l & Hsub & Hall & ->).
      destruct Hstep as [->| ->].
      * exists l. split; [by apply sublist_cons|]. by split.
      * exists (p :: l). split; [by apply sublist_skip|].
        split; [by constructor|]. reflexivity.
    + rewrite app_nil_r. destruct Hstep as [->| ->].
      * exists []. split; [apply sublist_nil_l|]. by split.
      * exists [p]. split; [apply sublist_skip, sublist_nil_l|].
        split; [by repeat constructor|]. reflexivity.
  - unfold ret. cbn [fst snd]. rewrite sends_nil. cbn [app].
    destruct (IH w) as (l & Hsub & Hall & ->).
    exists l. split; [by apply sublist_cons|]. by split.
Qed.

(** X6. A tick of the auto-execution submits only what the page lists as
    executable: its write calls are [executeScheduledPayment] calls on the
    automation contract for scheduled payments of the page whose id is in
    the executable set, in the order of the list and at most one per entry;
    and the tick itself never throws. *)
Theorem autoExecute_submits_listed_executable (w : W) :
  exists l,
    sublist l (PaymentAutomation.c_scheduledPayments c)
    /\ Forall (fun p => id_ p ∈ PaymentAutomation.c_executablePayments c) l
    /\ sends (PaymentAutomation.autoExecuteOverduePayments O env c w).2
       = (fun p => ExecuteScheduledPayment contract (id_ p)) <$> l
    /\ (PaymentAutomation.autoExecuteOverduePayments O env c w).1.1 = Ok tt.
Proof.
  unfold PaymentAutomation.autoExecuteOverduePayments.
  destruct (negb (PaymentAutomation.c_isConnected c)
            || negb (Js.truthy (PaymentAutomation.c_address c))
            || (length (PaymentAutomation.c_scheduledPayments c) =? 0)%nat).
  { exists []. split; [apply sublist_nil_l|]. by repeat split. }
  destruct (autoLoop_sends (PaymentAutomation.c_scheduledPayments c) w)
    as (l & Hsub & Hall & Hs).
  exists l. split; [done|]. split; [done|]. split.
  - rewrite sends_try_catch_still by (intros; apply still_ret). exact Hs.
  - unfold try_catch, ret.
    by destruct (PaymentAutomation.autoLoop O env c _ w) as [[[[]|e] w1] t1].
Qed.

End AutoSubmits.

(** ** Manual execution of a scheduled payment *)

Section ManualExecution.
Context {W : Type} (O : Oracle W) (lib : Lib) (env : Env)
  (c : PaymentAutomation.Ctx).

Let contract := PaymentAutomation.contractAddress (PaymentAutomation.cn env c).

Lemma executeFailed_still (e : JsError) :
  still (AutomationExecute.executeFailed (W:=W) e).
Proof. unfold AutomationExecute.executeFailed. still_auto. Qed.


End ManualExecution.

(** ** The write calls of the checkout *)

Section CheckoutWrites.
Context {W : Type} (O : Oracle W) (lib : Lib) (env : Env)
  (c : InvoiceCheckout.Ctx).

Let cn := InvoiceCheckout.currentNetwork env (InvoiceCheckout.c_chainId c).
Let account := default EmptyString (InvoiceCheckout.c_address c).


(** X9. Paying a native-asset invoice: [handlePay] makes no read request
    and no approval; its only write call is [payInvoice] with the invoice
    amount attached as value. *)
Theorem handlePay_native (w : W) (inv : InvoiceData) :
  InvoiceCheckout.c_invoiceData c = Some inv ->
  InvoiceCheckout.c_contract c = true ->
  Js.truthy (InvoiceCheckout.c_address c) = true ->
  InvoiceCheckout.c_walletClient c = true ->
  Js.streq (token inv) InvoiceCheckout.ETH_ADDRESS = true ->
  let t := (InvoiceCheckout.handlePay O lib env c w).2 in
  reads t = []
  /\ sends t = [PayInvoice (InvoiceCheckout.contractAddress cn)
                  (InvoiceCheckout.c_hash c) (amount inv)].
Proof.
  intros Hinv Hc Ha Hwc Htok t. subst t.
  unfold InvoiceCheckout.handlePay. fold cn.
  rewrite Hinv, Hc, Ha, Hwc, Htok. cbn [negb orb].
  unfold bind, finally, try_catch, set_, toast, defer, emit, ret, send.
  cbv beta iota delta [negb].
  by destruct (o_send O WalletClient _ w) as [[h|e] w1].
Qed.

End CheckoutWrites.

(** ** What the invoice lookup leaves on the page *)

Section FetchOutcome.
Context {W : Type} (O : Oracle W) (env : Env) (c : InvoiceCheckout.Ctx).

Let cn := InvoiceCheckout.currentNetwork env (InvoiceCheckout.c_chainId c).
Let h := default EmptyString (InvoiceCheckout.c_hash c).
Let contract := default EmptyString (InvoiceCheckout.contractAddress cn).

Lemma updates_lookups {A} (f : A -> Provider * Call) (l : list A) :
  updates (map (fun x => Read (f x).1 (f x).2) l) = [].
Proof. induction l; [done|]. cbn [map]. by rewrite updates_read. Qed.

(** X10. The outcome of [fetchInvoice]. The loading flag is cleared at the
    end of every run. Invoice data is stored exactly when a hash is given,
    a wallet provider is injected, the network has a contract address, and
    the lookup through the provider chosen for the target network returns
    a non-zero merchant; what is stored is that tuple, field by field, and
    no toast is shown in that run. *)
Theorem fetchInvoice_outcome (w : W) :
  let t := (InvoiceCheckout.fetchInvoice O env c w).2 in
  lastUpdate t = Some (SetLoading false)
  /\ (forall d,
        In (SetInvoiceData d) (updates t)
        <-> Js.truthy (InvoiceCheckout.c_hash c) = true
            /\ InvoiceCheckout.c_window_ethereum c = true
            /\ Js.truthy (InvoiceCheckout.contractAddress cn) = true
            /\ exists n raw,
                 o_getNetwork O Injected w = Ok n
                 /\ o_invoices O (InvoiceCheckout.contractProvider n cn)
                      contract h w = Ok raw
                 /\ InvoiceCheckout.isZeroMerchant (inv0 raw) = false
                 /\ d = mapInvoice raw)
  /\ ((exists d, In (SetInvoiceData d) (updates t)) -> toasts t = []).
Proof.
  intros t. subst t. unfold InvoiceCheckout.fetchInvoice. fold cn h contract.
  destruct (Js.truthy (InvoiceCheckout.c_hash c)); cbn [negb orb].
  2:{ cbn. split; [done|]. split; [|by intros [d [[=]|[]]]].
      intros d. split; [by intros [[=]|[]]|by intros [[=] _]]. }
  destruct (InvoiceCheckout.c_window_ethereum c); cbn [negb orb].
  2:{ cbn. split; [done|]. split; [|by intros [d [[=]|[]]]].
      intros d. split; [by intros [[=]|[]]|by intros (_ & [=] & _)]. }
  unfold finally, try_catch, bind, getNetwork, invoices, read, set_, toast,
    emit, ret.
  destruct (o_getNetwork O Injected w) as [n|e] eqn:Hn.
  2:{ cbn. split; [done|]. split; [|by intros [d [[=]|[]]]].
      intros d. split; [by intros [[=]|[]]|].
      by intros (_ & _ & _ & n & raw & [=] & _). }
  destruct (Js.truthy (InvoiceCheckout.contractAddress cn)); cbn [negb].
  2:{ cbn. split; [done|]. split; [|by intros [d [[=]|[[=]|[]]]]].
      intros d. split; [by intros [[=]|[[=]|[]]]|by intros (_ & _ & [=] & _)]. }
  destruct (o_invoices O (InvoiceCheckout.contractProvider n cn) contract h w)
    as [raw|e] eqn:Hraw.
  2:{ cbn. split; [done|]. split; [|by intros [d [[=]|[]]]].
      intros d. split; [by intros [[=]|[]]|].
      intros (_ & _ & _ & n' & raw & [= <-] & Hr & _). congruence. }
  destruct (InvoiceCheckout.isZeroMerchant (inv0 raw)) eqn:Hz.
  - rewrite searchOthers_run. cbv beta iota.
    set (look := map _ _).
    assert (Hlook : updates look = []) by apply updates_lookups.
    clearbody look. unfold lastUpdate.
    destruct (Js.truthy _); cbn [fst snd]; rewrite !updates_app, Hlook; cbn;
      (split; [done|]); (split; [|by intros [d [[=]|[[=]|[]]]]]);
      intros d; (split; [by intros [[=]|[[=]|[]]]|]);
      intros (_ & _ & _ & n' & raw' & [= <-] & Hr & Hz' & _); congruence.
  - cbn. split; [done|]. split; [|done].
    intros d. split.
    + intros [[= <-]|[[=]|[]]]. do 3 (split; [done|]). exists n, raw. eauto.
    + intros (_ & _ & _ & n' & raw' & [= <-] & Hr & _ & ->).
      left. congruence.
Qed.

End FetchOutcome.

(** ** The type shown for a transaction *)

Lemma lower_ascii_idem (a : ascii) :
  Js.lower_ascii (Js.lower_ascii a) = Js.lower_ascii a.
Proof. by destruct a as [[] [] [] [] [] [] [] []]. Qed.

Lemma toLowerCase_idem (s : string) :
  Js.toLowerCase (Js.toLowerCase s) = Js.toLowerCase s.
Proof.
  induction s as [|a s IH]; [done|]. cbn. by rewrite lower_ascii_idem, IH.
Qed.

Lemma same_spec (a b : option string) :
  Transactions.same a b = true <-> a = b.
Proof. unfold Transactions.same. apply bool_decide_eq_true. Qed.

(** X11. The type of a row of the transaction list does not depend on the
    letter case in which the explorer reports the two addresses of the
    transaction nor on the case of the connected address. A row is shown as
    Received only if the transaction goes to the connected address and does
    not come from the invoice contract; as Sent only if it comes from the
    connected address and goes neither to the invoice contract nor to the
    connected address itself. *)
Theorem rowType_classification (env : Env) (tx : Transactions.Transaction)
    (address : option string) :
  let wallet := Js.or_else (Js.toLowerCase <$> address) EmptyString in
  let to := Js.toLowerCase <$> Transactions.tx_to tx in
  let from := Js.toLowerCase <$> Transactions.tx_from tx in
  Transactions.rowType env (lowerAddresses tx) (Js.toLowerCase <$> address)
  = Transactions.rowType env tx address
  /\ (Transactions.rowType env tx address = Transactions.Received ->
      to = Some wallet /\ from <> Transactions.PAYROLL_CONTRACT_ADDRESS env)
  /\ (Transactions.rowType env tx address = Transactions.Sent ->
      from = Some wallet
      /\ to <> Transactions.PAYROLL_CONTRACT_ADDRESS env
      /\ to <> Some wallet).
Proof.
  intros wallet to from. split; [|split].
  - unfold Transactions.rowType, Transactions.getTxType, lowerAddresses.
    cbn [Transactions.tx_to Transactions.tx_from Transactions.tx_input].
    assert (Hl : forall o : option string,
               Js.toLowerCase <$> (Js.toLowerCase <$> o) = Js.toLowerCase <$> o).
    { intros [s|]; [|done]. cbn. by rewrite toLowerCase_idem. }
    by rewrite !Hl.
  - unfold Transactions.rowType, Transactions.getTxType.
    fold wallet to from.
    repeat match goal with
           | |- context [if ?b then _ else _] => destruct b eqn:?
           end; try discriminate.
    intros _.
    match goal with
    | H : _ && _ = true |- _ =>
        apply andb_true_iff in H as [H1%same_spec H2%negb_true_iff]
    end.
    split; [done|]. intros H. apply same_spec in H. congruence.
  - unfold Transactions.rowType, Transactions.getTxType.
    fold wallet to from.
    destruct (Transactions.same to _ && Transactions.startsWith _ _);
      [discriminate|].
    destruct (Transactions.same to _ && Transactions.startsWith _ _);
      [discriminate|].
    destruct (Transactions.same to (Some wallet)
              && negb (Transactions.same from
                         (Transactions.PAYROLL_CONTRACT_ADDRESS env))) eqn:Hr;
      [discriminate|].
    destruct (Transactions.same from (Some wallet)
              && negb (Transactions.same to
                         (Transactions.PAYROLL_CONTRACT_ADDRESS env))) eqn:Hs;
      [|discriminate].
    intros _. apply andb_true_iff in Hs as [Hf%same_spec Ht%negb_true_iff].
    assert (Hto : to <> Transactions.PAYROLL_CONTRACT_ADDRESS env).
    { intros H. apply same_spec in H. congruence. }
    split; [done|]. split; [done|]. intros Htw.
    apply andb_false_iff in Hr as [Hr|Hr].
    + apply same_spec in Htw. congruence.
    + apply negb_false_iff, same_spec in Hr. congruence.
Qed.

(** ** The recipient fields of the automation form *)

Lemma length_delete_ge {A} (l : list A) (i : nat) :
  (length l - 1 <= length (delete i l))%nat.
Proof.
  revert i. induction l as [|x l IH]; intros [|i]; cbn; try lia.
  specialize (IH i). unfold delete in *. lia.
Qed.

Lemma FormStep_nonempty (l l' : list string) :
  FormStep l l' -> (0 < length l)%nat -> (0 < length l')%nat.
Proof.
  intros [idx value l0 l1 Hc|l0|idx l0|l0] Hl.
  - unfold AutomationForm.handleRecipientChange in Hc.
    destruct (idx <? length l0)%nat.
    + injection Hc as <-. by rewrite length_insert.
    + destruct (idx =? length l0)%nat; [|discriminate].
      injection Hc as <-. rewrite length_app. cbn. lia.
  - unfold AutomationForm.addRecipient. rewrite length_app. cbn. lia.
  - unfold AutomationForm.removeRecipient.
    destruct (length l0 =? 1)%nat eqn:H1; [done|].
    apply Nat.eqb_neq in H1.
    pose proof (length_delete_ge l0 idx). lia.
  - cbn. lia.
Qed.

(** X12. The automation form never runs out of recipient fields: from the
    single empty field it starts with, no sequence of edits, added fields,
    removed fields and resets leads to an empty list. *)
Theorem recipients_never_empty (l : list string) :
  reachableRecipients l -> (0 < length l)%nat.
Proof.
  unfold reachableRecipients. intros H.
  revert l H. apply rtc_ind_r; [cbn; lia|].
  eauto using FormStep_nonempty.
Qed.

(** ** The authorization status and the executability check *)

Section Authorization.
Context {W : Type} (O : Oracle W) (lib : Lib) (env : Env)
  (c : PaymentAutomation.Ctx).

Let contract := PaymentAutomation.contractAddress (PaymentAutomation.cn env c).
Let account := PaymentAutomation.addr c.

(** A successful run of [loadAuthorizationStatus], by what it read. *)
Lemma loadAuthorizationStatus_result (w : W) (o a : bool) :
  (AutomationExecute.loadAuthorizationStatus O env c w).1.1 = Ok (Some (o, a)) ->
  a = true ->
  PaymentAutomation.c_isConnected c = true
  /\ Js.truthy (PaymentAutomation.c_address c) = true
  /\ signerAvailable O env c w = true
  /\ exists owner_ b,
       o_owner O Transport contract w = Ok owner_
       /\ o_authorizedControllers O Transport contract account w = Ok b
       /\ o = PaymentAutomation.sameAddress owner_ account
       /\ b || o = true.
Proof.
  unfold AutomationExecute.loadAuthorizationStatus. fold contract account.
  destruct (PaymentAutomation.c_isConnected c); cbn [negb orb]; [|done].
  destruct (Js.truthy (PaymentAutomation.c_address c)); cbn [negb orb]; [|done].
  destruct (negb (Js.truthy (Some contract)) || _); [done|].
  unfold try_catch, bind at 1.
  pose proof (getSigner_result O env c w) as Hs.
  destruct (getSigner_quiet O env c w) as [Hw _].
  destruct (PaymentAutomation.getSigner O env c w) as [[[u|e] w1] t1];
    cbn [fst snd] in Hs, Hw; subst w1;
    [|cbn; intros [= <- <-]; discriminate].
  unfold bind, owner, authorizedControllers, read, ret.
  destruct (o_owner O Transport contract w) as [owner_|e];
    [|cbn; intros [= <- <-]; discriminate].
  destruct (o_authorizedControllers O Transport contract account w) as [b|e];
    [|cbn; intros [= <- <-]; discriminate].
  cbn. intros [= <- <-] Ha. do 3 (split; [done|]). by exists owner_, b.
Qed.

(** X13. The authorization status agrees with the executability check. In
    the pair that [loadAuthorizationStatus] leaves in [isOwner] and
    [isAuthorized], the owner is always authorized; and when it reports the
    account as authorized, [canExecutePayment] answers yes, in the same
    state of the chain, for every payment whose details can be read. *)
Theorem authorization_status_sound (w : W) (o a : bool) :
  (AutomationExecute.loadAuthorizationStatus O env c w).1.1 = Ok (Some (o, a)) ->
  (o = true -> a = true)
  /\ (a = true ->
      forall pid d,
        o_getPaymentDetails O Transport contract pid w = Ok d ->
        (PaymentAutomation.canExecutePayment O env c pid w).1.1 = Ok true).
Proof.
  intros Hrun. split.
  - revert Hrun. unfold AutomationExecute.loadAuthorizationStatus.
    destruct (negb _ || _ || _ || _); [done|].
    unfold try_catch, bind, owner, authorizedControllers, read, ret.
    destruct (PaymentAutomation.getSigner O env c w) as [[[u|e] w1] t1];
      [|cbn; by intros [= <- <-]].
    destruct (o_owner O Transport _ w1) as [owner_|e];
      [|cbn; by intros [= <- <-]].
    destruct (o_authorizedControllers O Transport _ _ w1) as [b|e];
      [|cbn; by intros [= <- <-]].
    cbn. intros [= <- <-] ->. apply orb_true_r.
  - intros Ha pid d Hd.
    destruct (loadAuthorizationStatus_result w o a Hrun Ha)
      as (Hconn & Haddr & Hs & owner_ & b & Ho & Hb & -> & Hor).
    rewrite canExecutePayment_result. f_equal.
    unfold canExecuteAt, mayExecute. fold contract account.
    rewrite Hconn, Haddr, Hs, Hd, Ho, Hb. cbn [andb].
    destruct (PaymentAutomation.sameAddress (pd_creator d) account); [done|].
    destruct (PaymentAutomation.sameAddress owner_ account); [done|].
    by rewrite orb_false_r in Hor.
Qed.

End Authorization.

(** ** What invoice creation leaves on the page *)

Section CreateOutcome.
Context {W : Type} (O : Oracle W) (lib : Lib) (env : Env)
  (c : CreateInvoice.Ctx).

Let cn := CreateInvoice.currentNetwork env (CreateInvoice.c_chainId c).
Let fd := CreateInvoice.formData c.

(** X14. The outcome of [handleSubmit] with a connected wallet. The page
    reports an invoice as created only after the creation transaction was
    sent and its receipt awaited, and the hash it then shows is the hash
    that was sent; in every other run the page ends with no invoice
    reported and an empty hash. The submitting flag is cleared last in
    both cases. *)
Theorem handleSubmit_outcome (w : W) :
  CreateInvoice.c_contract c = true ->
  Js.truthy (CreateInvoice.c_address c) = true ->
  let t := (CreateInvoice.handleSubmit O lib env c w).2 in
  let start := [SetIsSubmitting true; SetInvoiceCreated false;
                SetInvoiceHash EmptyString] in
  (updates t = start ++ [SetInvoiceCreated false; SetInvoiceHash EmptyString;
                         SetIsSubmitting false]
   /\ toasts t <> [] /\ exists msg, last (toasts t) = Some (TError, msg))
  \/ exists h wei tx,
       updates t = start ++ [SetInvoiceHash h; SetInvoiceCreated true;
                             SetIsSubmitting false]
       /\ CreateInvoice.amountWei lib fd = Ok wei
       /\ sends t
          = [CreateInvoiceTx (CreateInvoice.contractAddress cn) h
               (Js.or_else (Some (CreateInvoice.f_token fd))
                  (CreateInvoice.to_address CreateInvoice.USDC_TOKEN_BASE_SEPOLIA))
               wei (parseInt lib (CreateInvoice.f_validForSeconds fd))
               (CreateInvoice.f_memo fd) (CreateInvoice.f_logoURI fd)
               (CreateInvoice.f_description fd)]
       /\ In (Wait tx) t.
Proof.
  intros Hc Ha t start. subst t start.
  unfold CreateInvoice.handleSubmit. fold cn fd. rewrite Hc, Ha.
  cbn [negb orb].
  unfold bind, finally, try_catch, randomHash, set_, toast, emit, send, wait.
  destruct (o_randomHash O w) as [h w1].
  destruct (CreateInvoice.amountWei lib fd) as [wei|e] eqn:Hwei.
  2:{ left. cbn. split; [done|]. split; [done|]. eauto. }
  destruct (o_send O (Signer Transport) _ w1) as [[tx|e] w2].
  2:{ left. cbn. split; [done|]. split; [done|]. eauto. }
  destruct (o_wait O tx w2) as [[[]|e] w3].
  2:{ left. cbn. split; [done|]. split; [done|]. eauto. }
  right. exists h, wei, tx. cbn. split; [done|]. split; [done|].
  split; [done|]. auto 20.
Qed.

End CreateOutcome.

(** ** Handlers never throw and clear their busy flag *)

Lemma lastUpdate_app_r (t1 t2 : list Event) (u : StateUpdate) :
  lastUpdate t2 = Some u -> lastUpdate (t1 ++ t2) = Some u.
Proof.
  unfold lastUpdate. rewrite updates_app, last_app. by intros ->.
Qed.

Lemma lastUpdate_snoc (t : list Event) (u : StateUpdate) :
  lastUpdate (t ++ [Set_ u]) = Some u.
Proof. by apply lastUpdate_app_r. Qed.

Lemma lastUpdate_cons (e : Event) (t : list Event) (u : StateUpdate) :
  lastUpdate t = Some u -> lastUpdate (e :: t) = Some u.
Proof. apply (lastUpdate_app_r [e]). Qed.

Ltac last_update :=
  rewrite ?app_nil_r;
  repeat first
    [ apply lastUpdate_snoc
    | reflexivity
    | apply lastUpdate_app_r
    | apply lastUpdate_cons ].

Section Clears.
Context {W : Type}.

Lemma ends_clears u (m : M W unit) : ends u m -> clears u m.
Proof. intros H w. destruct (H w). auto. Qed.

Lemma ends_set u : ends u (set_ (W:=W) u).
Proof. by intros w. Qed.

Lemma ends_after_set u u0 (k : M W unit) : ends u k -> ends u (set_ u0 ;; k).
Proof.
  intros Hk w. unfold bind, set_, emit. destruct (Hk w) as [Hr Hu].
  destruct (k w) as [[r w1] t1]. cbn [fst snd] in *. subst r.
  split; [done|]. by apply lastUpdate_cons.
Qed.

Lemma ends_after_toast u kd msg (k : M W unit) :
  ends u k -> ends u (toast kd msg ;; k).
Proof.
  intros Hk w. unfold bind, toast, emit. destruct (Hk w) as [Hr Hu].
  destruct (k w) as [[r w1] t1]. cbn [fst snd] in *. subst r.
  split; [done|]. by apply lastUpdate_cons.
Qed.

Lemma ends_finally u (m : M W unit) : safe m -> ends u (finally m (set_ u)).
Proof.
  intros Hm w. unfold finally, set_, emit. specialize (Hm w).
  destruct (m w) as [[r w1] t1]. cbn [fst snd] in *.
  split; [done|apply lastUpdate_snoc].
Qed.

Lemma ends_then_set u (m : M W unit) : safe m -> ends u (m ;; set_ u).
Proof.
  intros Hm w. unfold bind, set_, emit. specialize (Hm w).
  destruct (m w) as [[r w1] t1]. cbn [fst snd] in *. subst r.
  split; [done|apply lastUpdate_snoc].
Qed.

Lemma safe_try_catch (m : M W unit) (h : JsError -> M W unit) :
  (forall e, safe (h e)) -> safe (try_catch m h).
Proof.
  intros Hh w. unfold try_catch.
  destruct (m w) as [[[[]|e] w1] t1]; [done|].
  specialize (Hh e w1). by destruct (h e w1) as [[r w2] t2].
Qed.

Lemma safe_toast kd msg : safe (toast (W:=W) kd msg).
Proof. by intros w. Qed.

Lemma safe_ret : safe (ret (W:=W) tt).
Proof. by intros w. Qed.

Lemma safe_after_toast kd msg (k : M W unit) : safe k -> safe (toast kd msg ;; k).
Proof.
  intros Hk w. unfold bind, toast, emit. specialize (Hk w).
  by destruct (k w) as [[r w1] t1].
Qed.

Lemma safe_after_set u (k : M W unit) : safe k -> safe (set_ u ;; k).
Proof.
  intros Hk w. unfold bind, set_, emit. specialize (Hk w).
  by destruct (k w) as [[r w1] t1].
Qed.

End Clears.

Section Busy.
Context {W : Type} (O : Oracle W) (lib : Lib) (env : Env).

Lemma submitFailed_safe (e : JsError) :
  safe (PaymentAutomation.submitFailed (W:=W) e).
Proof.
  intros w. unfold PaymentAutomation.submitFailed, toast, emit.
  repeat match goal with
         | |- context [match ?x with _ => _ end] => destruct x
         end; reflexivity.
Qed.

Lemma executeFailed_safe (e : JsError) :
  safe (AutomationExecute.executeFailed (W:=W) e).
Proof.
  intros w. unfold AutomationExecute.executeFailed, toast, emit.
  repeat match goal with
         | |- context [match ?x with _ => _ end] => destruct x
         end; reflexivity.
Qed.

Lemma handlePay_clears c :
  clears (SetPaying false) (InvoiceCheckout.handlePay O lib env c).
Proof.
  unfold InvoiceCheckout.handlePay.
  destruct (InvoiceCheckout.c_invoiceData c) as [inv|];
    [|intros w; split; [done|by left]].
  destruct (negb (InvoiceCheckout.c_contract c) || _);
    [intros w; split; [done|by left]|].
  apply ends_clears, ends_after_set, ends_finally, safe_try_catch.
  intros e. apply safe_after_toast, safe_toast.
Qed.

Lemma submitPayment_clears c :
  clears (SetIsLoading false) (PaymentAutomation.submitPayment O lib env c).
Proof.
  unfold PaymentAutomation.submitPayment.
  apply ends_clears, ends_after_set, ends_then_set, safe_try_catch.
  apply submitFailed_safe.
Qed.

Lemma handleSubmit_clears c :
  clears (SetIsSubmitting false) (CreateInvoice.handleSubmit O lib env c).
Proof.
  unfold CreateInvoice.handleSubmit.
  destruct (negb (CreateInvoice.c_contract c) || _);
    [intros w; split; [done|by left]|].
  apply ends_clears. do 3 apply ends_after_set.
  apply ends_after_toast, ends_finally, safe_try_catch.
  intros e. do 2 apply safe_after_set. apply safe_after_toast, safe_toast.
Qed.

Lemma fetchInvoice_clears c :
  clears (SetLoading false) (InvoiceCheckout.fetchInvoice O env c).
Proof.
  unfold InvoiceCheckout.fetchInvoice.
  destruct (negb (Js.truthy (InvoiceCheckout.c_hash c)) || _).
  - apply ends_clears, ends_set.
  - apply ends_clears, ends_finally, safe_try_catch.
    intros e. apply safe_toast.
Qed.

Lemma loadPaymentData_clears c :
  clears (SetIsLoadingData false) (PaymentAutomation.loadPaymentData O lib env c).
Proof.
  unfold PaymentAutomation.loadPaymentData.
  destruct (negb (PaymentAutomation.c_isConnected c) || _ || _ || _);
    [intros w; split; [done|by left]|].
  apply ends_clears, ends_after_set, ends_then_set, safe_try_catch.
  intros e. apply safe_toast.
Qed.

Lemma executeBody_false c pid (w w' : W) t :
  AutomationExecute.executeBody O lib env c pid w = (Ok false, w', t) ->
  lastUpdate t = Some (SetIsLoading false).
Proof.
  unfold AutomationExecute.executeBody.
  unfold bind at 1.
  destruct (PaymentAutomation.canExecutePayment O env c pid w)
    as [[[[]|e] w1] t1]; cbn [negb]; [| |discriminate].
  2:{ unfold bind, toast, set_, emit, ret. intros [= <- <-]. last_update. }
  unfold bind at 1.
  destruct (PaymentAutomation.getSigner O env c w1) as [[[[]|e] w2] t2];
    [|discriminate].
  unfold bind at 1, getPaymentDetails, read.
  destruct (o_getPaymentDetails O Transport _ pid w2) as [d|e]; [|discriminate].
  destruct (pd_executed d).
  { unfold bind, toast, set_, emit, ret. intros [= <- <-]. last_update. }
  unfold bind at 1, now.
  destruct (AutomationExecute.notYetDue _ _).
  { unfold bind, toast, set_, emit, ret. intros [= <- <-]. last_update. }
  unfold bind at 1, toast at 1, emit. unfold bind at 1, send.
  destruct (o_send O (Signer Transport) _ w2) as [[h|e] w3]; [|discriminate].
  unfold bind at 1, toast at 1, emit. unfold bind at 1, wait.
  destruct (o_wait O h w3) as [[[]|e] w4]; [|discriminate].
  unfold bind at 1, toast at 1, emit. unfold bind at 1.
  destruct (PaymentAutomation.loadPaymentData O lib env c w4)
    as [[[[]|e] w5] t5]; discriminate.
Qed.

Lemma executeScheduledPayment_clears c pid :
  clears (SetIsLoading false)
    (AutomationExecute.executeScheduledPayment O lib env c pid).
Proof.
  unfold AutomationExecute.executeScheduledPayment.
  destruct (negb (PaymentAutomation.c_isConnected c) || _);
    [intros w; split; [done|by left]|].
  intros w. unfold clears, bind, try_catch, set_, emit, ret.
  destruct (AutomationExecute.executeBody O lib env c pid w)
    as [[[[]|e] w1] t1] eqn:Hbody.
  - cbn [fst snd]. split; [done|right]. last_update.
  - apply executeBody_false in Hbody. cbn [fst snd].
    split; [done|right]. rewrite app_nil_r. by apply lastUpdate_cons.
  - pose proof (executeFailed_safe e w1) as Hf.
    destruct (AutomationExecute.executeFailed e w1) as [[r w2] t2].
    cbn [fst snd] in Hf. subst r. cbn [fst snd].
    split; [done|right]. last_update.
Qed.

(** X15. The handlers of the pages never throw, and none leaves its busy
    flag set: whatever the wallet and the chain answer, paying an invoice,
    submitting or executing a payment, creating an invoice, looking an
    invoice up and loading the payment lists return normally, and if the
    run touched the state of the page at all, its last update clears the
    flag that the run had raised. *)
Theorem handlers_clear_their_busy_flag :
  (forall c, clears (SetPaying false) (InvoiceCheckout.handlePay O lib env c))
  /\ (forall c, clears (SetIsLoading false)
                  (PaymentAutomation.submitPayment O lib env c))
  /\ (forall c pid, clears (SetIsLoading false)
                      (AutomationExecute.executeScheduledPayment O lib env c pid))
  /\ (forall c, clears (SetIsSubmitting false)
                  (CreateInvoice.handleSubmit O lib env c))
  /\ (forall c, clears (SetLoading false) (InvoiceCheckout.fetchInvoice O env c))
  /\ (forall c, clears (SetIsLoadingData false)
                  (PaymentAutomation.loadPaymentData O lib env c)).
Proof.
  split; [apply handlePay_clears|]. split; [apply submitPayment_clears|].
  split; [apply executeScheduledPayment_clears|].
  split; [apply handleSubmit_clears|].
  split; [apply fetchInvoice_clears|apply loadPaymentData_clears].
Qed.

End Busy.

(** ** Which invoices the analytics count *)

Lemma paidWithTime_spec (inv : Dashboard.Invoice) :
  Dashboard.paidWithTime inv
  = Dashboard.i_isPaid inv && (0 <? Dashboard.i_paidAt inv).
Proof.
  unfold Dashboard.paidWithTime.
  destruct (Dashboard.i_isPaid inv); [|done]. cbn [andb].
  destruct (Z.ltb_spec 0 (Dashboard.i_paidAt inv)) as [H|H];
    [|apply andb_false_r].
  rewrite andb_true_r. apply negb_true_iff, Z.eqb_neq. lia.
Qed.

Lemma bucket_of_paid cmp (invs : list Dashboard.Invoice) d :
  Dashboard.bucket cmp
    (List.filter (fun inv => Dashboard.i_isPaid inv
                             && (0 <? Dashboard.i_paidAt inv)) invs) d
  = Dashboard.bucket cmp invs d.
Proof.
  unfold Dashboard.bucket. f_equal.
  induction invs as [|inv rest IH]; [done|].
  cbn [List.filter]. rewrite <- paidWithTime_spec.
  destruct (Dashboard.paidWithTime inv) eqn:Hp; [|exact IH].
  cbn [List.filter]. by rewrite Hp, IH.
Qed.

(** X16. The analytics count paid invoices only: an invoice that is not
    marked paid, or whose payment time is not positive, contributes to no
    bar of any period; taking such invoices out of the list, wherever they
    stand, leaves every bar as it is. *)
Theorem analytics_count_paid_only (host : Dashboard.Host)
    (selectedPeriod : string) (invoiceList : list Dashboard.Invoice) :
  Dashboard.getAnalyticsData host selectedPeriod
    (List.filter (fun inv => Dashboard.i_isPaid inv
                             && (0 <? Dashboard.i_paidAt inv)) invoiceList)
  = Dashboard.getAnalyticsData host selectedPeriod invoiceList.
Proof.
  rewrite !getAnalyticsData_unfold. unfold Dashboard.aggregate.
  apply map_ext. intros d. f_equal. f_equal. apply bucket_of_paid.
Qed.

(** ** The dashboard panels *)

Section DashboardPanels.
Context {W : Type} (O : Oracle W) (X : DashboardFetch.Extra W) (lib : Lib)
  (env : Env) (c : DashboardFetch.Ctx) (w : W).

Let cn := DashboardFetch.cn env c.
Let contract := DashboardFetch.contract env c.
Let account := DashboardFetch.addr c.

Lemma dashUpdates_app t1 t2 :
  dashUpdates (t1 ++ t2) = dashUpdates t1 ++ dashUpdates t2.
Proof. apply omap_app. Qed.

Lemma dashRequests_app t1 t2 :
  dashRequests (t1 ++ t2) = dashRequests t1 ++ dashRequests t2.
Proof. apply omap_app. Qed.

Lemma unpaid_le (l : list Dashboard.Invoice) : (unpaid l <= length l)%nat.
Proof. apply List.filter_length_le. Qed.

(** The invoice reads of [fetchActiveInvoices]. *)
Lemma all_invoices (p : Provider) (hashes : list string) :
  let run :=
    DashboardFetch.all
      (map (fun h =>
              DashboardFetch.bind
                (DashboardFetch.ask p (DashboardFetch.ReqInvoice contract h)
                   (o_invoices O p contract h w))
                (fun inv =>
                   DashboardFetch.ret (Dashboard.mapInvoiceWithHash h inv)))
         hashes) in
  dashUpdates run.2 = []
  /\ dashRequests run.2
     = map (fun h => (p, DashboardFetch.ReqInvoice contract h)) hashes
  /\ forall l, run.1 = Ok l ->
       map Dashboard.i_hash l = hashes
       /\ Forall (fun i => exists raw,
                    o_invoices O p contract (Dashboard.i_hash i) w = Ok raw
                    /\ i = Dashboard.mapInvoiceWithHash (Dashboard.i_hash i) raw)
            l.
Proof.
  induction hashes as [|h rest IH].
  { cbn. split; [done|]. split; [done|]. intros l' [= <-]. by split. }
  cbn [map DashboardFetch.all]. cbv zeta in IH.
  destruct (DashboardFetch.all _) as [rs ts].
  destruct IH as (Hu & Hq & Hl). cbn [fst snd] in Hu, Hq, Hl.
  unfold DashboardFetch.bind, DashboardFetch.ask, DashboardFetch.ret.
  destruct (o_invoices O p contract h w) as [raw|e] eqn:Hraw; cbn [fst snd].
  - rewrite dashUpdates_app, dashRequests_app, Hu, Hq.
    split; [done|]. split; [done|].
    destruct rs as [l'|e]; [|done]. intros l [= <-].
    destruct (Hl l' eq_refl) as [Hh Hall]. split; [by cbn; rewrite Hh|].
    constructor; [|done]. exists raw. by cbn.
  - rewrite dashUpdates_app, dashRequests_app, Hu, Hq. by repeat split.
Qed.

(** The outer [try] of [fetchActiveInvoices]. *)
Lemma invoicesBody_run :
  let run := DashboardFetch.invoicesBody O X env c w in
  ((exists e, run.1 = Err e) /\ dashUpdates run.2 = [])
  \/ (run.1 = Ok false
      /\ dashUpdates run.2
         = [DashboardFetch.SetActiveInvoices (Some 0%nat);
            DashboardFetch.SetTotalInvoices (Some 0%nat);
            DashboardFetch.SetInvoiceList [];
            DashboardFetch.SetLoadingInvoices false])
  \/ (run.1 = Ok true
      /\ exists l,
           dashUpdates run.2
           = [DashboardFetch.SetActiveInvoices (Some (unpaid l));
              DashboardFetch.SetTotalInvoices (Some (length l));
              DashboardFetch.SetInvoiceList l]
           /\ (l <> [] ->
               exists network hashes,
                 o_getNetwork O Injected w = Ok network
                 /\ DashboardFetch.o_getInvoicesByMerchant X
                      (DashboardFetch.contractProvider network cn)
                      contract account w = Ok hashes
                 /\ map Dashboard.i_hash l = hashes
                 /\ Forall
                      (fun i => exists raw,
                         o_invoices O
                           (DashboardFetch.contractProvider network cn)
                           contract (Dashboard.i_hash i) w = Ok raw
                         /\ i = Dashboard.mapInvoiceWithHash
                                  (Dashboard.i_hash i) raw) l)).
Proof.
  intros run. subst run.
  unfold DashboardFetch.invoicesBody, DashboardFetch.listInvoices,
    DashboardFetch.noInvoices.
  fold cn contract account.
  unfold DashboardFetch.bind, DashboardFetch.try_catch, DashboardFetch.did,
    DashboardFetch.ask, DashboardFetch.ret.
  destruct (o_getNetwork O Injected w) as [network|e] eqn:Hn;
    [|left; eauto].
  destruct (negb (network =? Dashboard.chainId cn) && _);
    [right; left; by split|].
  set (p := DashboardFetch.contractProvider network cn).
  destruct (o_getCode O p contract w) as [code|e]; [|left; eauto].
  destruct (Js.streq code "0x"); [right; left; by split|].
  right. right.
  destruct (DashboardFetch.hasGetInvoicesByMerchant X); cbn [negb].
  2:{ cbn. split; [done|]. by exists []. }
  destruct (DashboardFetch.o_getInvoicesByMerchant X p contract account w)
    as [hashes|e] eqn:Hh.
  2:{ cbn. split; [done|]. by exists []. }
  pose proof (all_invoices p hashes) as Hall. cbv zeta in Hall.
  unfold DashboardFetch.bind, DashboardFetch.ask, DashboardFetch.ret in Hall.
  destruct (DashboardFetch.all _) as [[l|e] tl];
    destruct Hall as (Hu & _ & Hl); cbn [fst snd] in Hu, Hl.
  - cbn [fst snd]. split; [done|]. exists l.
    rewrite !dashUpdates_app, Hu. split; [done|].
    intros _. exists network, hashes. destruct (Hl l eq_refl). by repeat split.
  - cbn [fst snd]. split; [done|]. exists [].
    rewrite !dashUpdates_app, Hu. by split.
Qed.

(** X17. The invoice panel of the dashboard is always left consistent.
    [fetchActiveInvoices] never throws; a run that starts raises the
    loading flag, sets the two counters and the list once, and clears the
    flag. Either both counters are null and the list is empty, or the total
    is the length of the list and the active count is the number of its
    unpaid invoices; and a non-empty list holds, in the order of the
    merchant's hash list, what the contract answered for each hash. *)
Theorem fetchActiveInvoices_outcome :
  let run := DashboardFetch.fetchActiveInvoices O X env c w in
  run.1 = Ok tt
  /\ (dashUpdates run.2 = []
      \/ exists a n l,
           dashUpdates run.2
           = [DashboardFetch.SetLoadingInvoices true;
              DashboardFetch.SetActiveInvoices a;
              DashboardFetch.SetTotalInvoices n;
              DashboardFetch.SetInvoiceList l;
              DashboardFetch.SetLoadingInvoices false]
           /\ (a = None /\ n = None /\ l = []
               \/ a = Some (unpaid l) /\ n = Some (length l)
                  /\ (unpaid l <= length l)%nat
                  /\ (l <> [] ->
                      exists network hashes,
                        o_getNetwork O Injected w = Ok network
                        /\ DashboardFetch.o_getInvoicesByMerchant X
                             (DashboardFetch.contractProvider network cn)
                             contract account w = Ok hashes
                        /\ map Dashboard.i_hash l = hashes
                        /\ Forall
                             (fun i => exists raw,
                                o_invoices O
                                  (DashboardFetch.contractProvider network cn)
                                  contract (Dashboard.i_hash i) w = Ok raw
                                /\ i = Dashboard.mapInvoiceWithHash
                                         (Dashboard.i_hash i) raw) l))).
Proof.
  intros run. subst run. unfold DashboardFetch.fetchActiveInvoices.
  fold cn.
  destruct (negb (Js.truthy (DashboardFetch.c_address c)) || _ || _);
    [by split; [|left]|].
  pose proof invoicesBody_run as Hbody. cbv zeta in Hbody.
  unfold DashboardFetch.bind, DashboardFetch.try_catch, DashboardFetch.did,
    DashboardFetch.ret.
  destruct (DashboardFetch.invoicesBody O X env c w) as [r t].
  cbn [fst snd] in Hbody.
  destruct Hbody as [[[e ->] Hu]|[[-> Hu]|[-> (l & Hu & Hl)]]]; cbn [fst snd];
    (split; [done|]); right; rewrite ?dashUpdates_app, Hu.
  - exists None, None, []. split; [done|]. by left.
  - exists (Some 0%nat), (Some 0%nat), []. split; [done|]. right.
    by repeat split.
  - exists (Some (unpaid l)), (Some (length l)), l. split; [done|]. right.
    split; [done|]. split; [done|]. split; [apply unpaid_le|done].
Qed.

Lemma contractProvider_source (network : Z) (r : DashboardFetch.Request) :
  o_getNetwork O Injected w = Ok network ->
  negb (network =? Dashboard.chainId cn)
  && negb (DashboardFetch.c_chainId c =? Dashboard.chainId cn) = false ->
  r <> DashboardFetch.ReqNetwork ->
  dashboardSource O c w (DashboardFetch.contractProvider network cn, r).
Proof.
  intros Hn Hm Hr. unfold dashboardSource, DashboardFetch.contractProvider.
  cbn [fst snd].
  destruct (Z.eqb_spec network (Dashboard.chainId cn)) as [He|Hne];
    cbn [negb andb] in *; [by left|].
  apply negb_false_iff, Z.eqb_eq in Hm.
  destruct (Z.eqb_spec (Dashboard.chainId cn) 2810) as [H2|H2]; [|by left].
  right. split; [done|]. split; [done|]. split; [congruence|].
  exists network. split; [done|congruence].
Qed.

Ltac sources Hp :=
  cbn;
  repeat (apply Forall_cons_2; [first [by left | by apply Hp]|]);
  try apply Forall_nil_2.

Lemma fetchBalance_requests :
  Forall (dashboardSource O c w)
    (dashRequests (DashboardFetch.fetchBalance O X lib env c w).2).
Proof.
  unfold DashboardFetch.fetchBalance.
  destruct (negb (Js.truthy (DashboardFetch.c_address c)) || _);
    [constructor|].
  unfold DashboardFetch.balanceBody. fold cn.
  unfold DashboardFetch.bind, DashboardFetch.finally, DashboardFetch.try_catch,
    DashboardFetch.all2, DashboardFetch.did, DashboardFetch.ask,
    DashboardFetch.ret.
  destruct (o_getNetwork O Injected w) as [network|e] eqn:Hn;
    [|sources I].
  destruct (negb (network =? Dashboard.chainId cn) && _) eqn:Hm;
    [sources I|].
  pose proof (fun r => contractProvider_source network r Hn Hm) as Hp.
  destruct (network =? Dashboard.chainId cn).
  - destruct (o_getCode O Injected _ w) as [code|e]; [|sources Hp].
    destruct (Js.streq code "0x").
    + destruct (DashboardFetch.o_getBalance X Injected _ w); sources Hp.
    + destruct (o_balanceOf O _ _ _ w), (o_decimals O _ _ w); sources Hp.
  - destruct (o_balanceOf O _ _ _ w), (o_decimals O _ _ w); sources Hp.
Qed.

Lemma fetchActiveInvoices_requests :
  Forall (dashboardSource O c w)
    (dashRequests (DashboardFetch.fetchActiveInvoices O X env c w).2).
Proof.
  unfold DashboardFetch.fetchActiveInvoices. fold cn.
  destruct (negb (Js.truthy (DashboardFetch.c_address c)) || _ || _);
    [constructor|].
  unfold DashboardFetch.invoicesBody, DashboardFetch.listInvoices,
    DashboardFetch.noInvoices.
  fold cn contract account.
  unfold DashboardFetch.bind, DashboardFetch.try_catch, DashboardFetch.did,
    DashboardFetch.ask, DashboardFetch.ret.
  destruct (o_getNetwork O Injected w) as [network|e] eqn:Hn;
    [|sources I].
  destruct (negb (network =? Dashboard.chainId cn) && _) eqn:Hm;
    [sources I|].
  pose proof (fun r => contractProvider_source network r Hn Hm) as Hp.
  set (p := DashboardFetch.contractProvider network cn) in *.
  destruct (o_getCode O p contract w) as [code|e]; [|sources Hp].
  destruct (Js.streq code "0x"); [sources Hp|].
  destruct (DashboardFetch.hasGetInvoicesByMerchant X); cbn [negb];
    [|sources Hp].
  destruct (DashboardFetch.o_getInvoicesByMerchant X p contract account w)
    as [hashes|e]; [|sources Hp].
  pose proof (all_invoices p hashes) as Hall. cbv zeta in Hall.
  unfold DashboardFetch.bind, DashboardFetch.ask, DashboardFetch.ret in Hall.
  assert (Hreq : forall tl,
    dashRequests tl
    = map (fun h => (p, DashboardFetch.ReqInvoice contract h)) hashes ->
    Forall (dashboardSource O c w) (dashRequests tl)).
  { intros tl ->. apply Forall_forall. intros pr Hin.
    apply list_elem_of_fmap in Hin as (h & -> & _). by apply Hp. }
  destruct (DashboardFetch.all _) as [[l|e] tl];
    destruct Hall as (_ & Hq & _); cbn [fst snd] in Hq |- *;
    rewrite ?app_nil_r, ?dashRequests_app;
    repeat (apply Forall_app; split); try (by sources Hp);
    by apply Hreq.
Qed.


(** X19. On Base Sepolia the dashboard has no endpoint of its own: when
    the wallet library reports Base Sepolia while the injected provider
    reports another chain, [fetchActiveInvoices] still goes on, and asks
    that injected provider for the contract code; all requests of both
    effects go to it. *)
Theorem dashboard_asks_disagreeing_provider (network : Z) :
  DashboardFetch.c_chainId c = 84532 ->
  Js.truthy (DashboardFetch.c_address c) = true ->
  DashboardFetch.c_window_ethereum c = true ->
  Js.truthy (Dashboard.contractAddress cn) = true ->
  o_getNetwork O Injected w = Ok network ->
  network <> 84532 ->
  In (Injected, DashboardFetch.ReqCode contract)
    (dashRequests (DashboardFetch.fetchActiveInvoices O X env c w).2)
  /\ Forall (fun pr => pr.1 = Injected)
       (dashRequests (DashboardFetch.fetchBalance O X lib env c w).2
        ++ dashRequests (DashboardFetch.fetchActiveInvoices O X env c w).2).
Proof.
  intros Hc Ha He Hca Hn Hne. split.
  - assert (Hcn : Dashboard.chainId cn = 84532).
    { unfold cn, DashboardFetch.cn. rewrite Hc. reflexivity. }
    unfold DashboardFetch.fetchActiveInvoices. fold cn.
    rewrite Ha, He, Hca. cbn [negb orb].
    unfold DashboardFetch.invoicesBody. fold cn contract account.
    assert (Hp : DashboardFetch.contractProvider network cn = Injected).
    { unfold DashboardFetch.contractProvider. rewrite Hcn.
      by destruct (network =? 84532). }
    apply Z.eqb_neq in Hne.
    unfold DashboardFetch.bind, DashboardFetch.try_catch, DashboardFetch.did,
      DashboardFetch.ask, DashboardFetch.ret.
    rewrite Hn. cbv beta iota zeta. rewrite Hp, Hcn, Hc, Hne. cbn [negb andb].
    destruct (o_getCode O Injected contract w) as [code|e];
      [|cbn; auto].
    destruct (Js.streq code "0x"); [cbn; auto|].
    destruct (DashboardFetch.listInvoices O X env c w Injected) as [[[]|e] t];
      cbn; auto.
  - apply Forall_app. split.
    + eapply Forall_impl; [apply fetchBalance_requests|].
      intros pr [H|(_ & _ & H & _)]; [done|congruence].
    + eapply Forall_impl; [apply fetchActiveInvoices_requests|].
      intros pr [H|(_ & _ & H & _)]; [done|congruence].
Qed.


End DashboardPanels.

(** ** The automation page on a chain without an entry in its table *)

Section UnsupportedChain.
Context {W : Type} (O : Oracle W) (lib : Lib) (env : Env)
  (c : PaymentAutomation.Ctx).

Hypothesis not_morph : PaymentAutomation.c_chainId c <> 2810.
Hypothesis not_base : PaymentAutomation.c_chainId c <> 84532.

Lemma unsupported_resolves_to_base :
  PaymentAutomation.cn env c = PaymentAutomation.BASE_SEPOLIA env.
Proof.
  unfold PaymentAutomation.cn, PaymentAutomation.currentNetwork.
  cbn [Js.get PaymentAutomation.NETWORK_CONFIGS].
  destruct (Z.eqb_spec 2810 (PaymentAutomation.c_chainId c)); [congruence|].
  by destruct (Z.eqb_spec 84532 (PaymentAutomation.c_chainId c)).
Qed.

Lemma unsupported_no_signer (w : W) : signerAvailable O env c w = false.
Proof.
  unfold signerAvailable. rewrite unsupported_resolves_to_base.
  cbn [PaymentAutomation.chainId PaymentAutomation.BASE_SEPOLIA].
  destruct (Z.eqb_spec (PaymentAutomation.c_chainId c) 84532); [congruence|].
  by rewrite andb_false_r.
Qed.

Lemma unsupported_getSigner (w : W) :
  exists e, (PaymentAutomation.getSigner O env c w).1.1 = Err e.
Proof.
  pose proof (getSigner_result O env c w) as H.
  destruct (PaymentAutomation.getSigner O env c w).1.1 as [[]|e]; [|eauto].
  by rewrite unsupported_no_signer in H.
Qed.

Lemma unsupported_canExecute (pid : string) (w : W) :
  (PaymentAutomation.canExecutePayment O env c pid w).1.1 = Ok false.
Proof.
  rewrite canExecutePayment_result. f_equal. unfold canExecuteAt.
  rewrite unsupported_no_signer. by rewrite andb_false_r.
Qed.

Lemma unsupported_submitPayment (w : W) :
  sends (PaymentAutomation.submitPayment O lib env c w).2 = [].
Proof.
  destruct (inputInvalid lib env c) eqn:Hin;
    [by apply submitPayment_invalid_sends|].
  apply inputInvalid_false in Hin
    as (Hconn & Haddr & Hamt & Hnan & Hpos & Hvalid & Hinvalid & Hca).
  unfold PaymentAutomation.submitPayment.
  rewrite Hconn, Haddr, Hamt, Hnan, Hpos, Hvalid, Hinvalid, Hca.
  cbn [negb orb].
  rewrite (sends_bind_still (set_ _)) by apply still_set.
  cbn [fst snd set_ emit].
  rewrite sends_then_still by (intros; apply still_set).
  rewrite sends_try_catch_still
    by (intros e; unfold PaymentAutomation.submitFailed; still_auto).
  rewrite sends_bind_still by apply quiet_still, getSigner_quiet.
  by destruct (unsupported_getSigner w) as [e ->].
Qed.

Lemma unsupported_execute (pid : string) (w : W) :
  sends (AutomationExecute.executeScheduledPayment O lib env c pid w).2 = [].
Proof.
  unfold AutomationExecute.executeScheduledPayment.
  destruct (negb (PaymentAutomation.c_isConnected c) || _); [done|].
  rewrite (sends_bind_still (set_ _)) by apply still_set.
  cbn [fst snd set_ emit].
  rewrite sends_then_still
    by (intros []; [apply still_set|apply still_ret]).
  rewrite sends_try_catch_still
    by (intros e; apply still_bind; [apply executeFailed_still|];
        intros; apply still_ret).
  unfold AutomationExecute.executeBody.
  rewrite sends_bind_still by apply quiet_still, canExecutePayment_quiet.
  rewrite unsupported_canExecute. cbn [negb].
  apply (writes_none _ (fun _ => True)). writes_quiet.
Qed.

Lemma unsupported_autoLoop (payments : list PaymentData) (w : W) :
  sends (PaymentAutomation.autoLoop O env c payments w).2 = [].
Proof.
  revert w. induction payments as [|p rest IH]; intros w; [done|].
  cbn [PaymentAutomation.autoLoop].
  rewrite sends_bind_still
    by (unfold PaymentAutomation.isPaymentOverdue; still_auto).
  unfold PaymentAutomation.isPaymentOverdue at 1.
  unfold bind at 1, now, ret at 1. cbn [fst snd].
  rewrite sends_bind.
  destruct (PaymentAutomation.overdueAt _ _ && _).
  - rewrite sends_bind_still by apply quiet_still, getSigner_quiet.
    destruct (getSigner_quiet O env c w) as [Hw _].
    destruct (unsupported_getSigner w) as [e He]. rewrite He.
    unfold bind.
    destruct (PaymentAutomation.getSigner O env c w) as [[r w1] t1].
    cbn [fst snd] in He. by subst r.
  - unfold ret. cbn [fst snd]. rewrite sends_nil. apply IH.
Qed.

(** X21. On a chain that has no entry in the table of the automation page,
    the page resolves to the Base Sepolia configuration but cannot act:
    [getSigner] throws, [canExecutePayment] answers no for every payment,
    and submitting a payment, executing a scheduled payment and the
    auto-execution issue no write call. *)
Theorem automation_inert_on_unsupported_chain (w : W) :
  PaymentAutomation.cn env c = PaymentAutomation.BASE_SEPOLIA env
  /\ (exists e, (PaymentAutomation.getSigner O env c w).1.1 = Err e)
  /\ (forall pid,
        (PaymentAutomation.canExecutePayment O env c pid w).1.1 = Ok false)
  /\ sends (PaymentAutomation.submitPayment O lib env c w).2 = []
  /\ (forall pid,
        sends (AutomationExecute.executeScheduledPayment O lib env c pid w).2
        = [])
  /\ sends (PaymentAutomation.autoExecuteOverduePayments O env c w).2 = [].
Proof.
  split; [apply unsupported_resolves_to_base|].
  split; [apply unsupported_getSigner|].
  split; [intros pid; apply unsupported_canExecute|].
  split; [apply unsupported_submitPayment|].
  split; [intros pid; apply unsupported_execute|].
  unfold PaymentAutomation.autoExecuteOverduePayments.
  destruct (negb (PaymentAutomation.c_isConnected c) || _ || _); [done|].
  rewrite sends_try_catch_still by (intros; apply still_ret).
  apply unsupported_autoLoop.
Qed.

End UnsupportedChain.

(** ** The further properties on the simulated chain *)

Lemma submitPayment_rejects_invalid_input_witness :
  exists msg,
    PaymentAutomation.submitPayment Sim.oracle Sim.lib Sim.env
      SimMore.offline_page Sim.world0
    = (Ok tt, Sim.world0,
       [Set_ (SetIsLoading true); Toast TError msg; Set_ (SetIsLoading false)]).
Proof.
  apply (submitPayment_rejects_invalid_input Sim.oracle Sim.lib Sim.env
           SimMore.offline_page Sim.world0).
  reflexivity.
Defined.

Lemma submitPayment_checks_balance_first_witness :
  let t := (PaymentAutomation.submitPayment Sim.oracle Sim.lib Sim.env
              Sim.alice_page SimMore.poor_world).2 in
  sends t = []
  /\ List.filter is_allowance_read (reads t) = []
  /\ In (Transport, BalanceOf USDC_ADDRESS Sim.alice) (reads t)
  /\ exists msg, last (toasts t) = Some (TError, msg).
Proof.
  apply (submitPayment_checks_balance_first Sim.oracle Sim.lib Sim.env
           Sim.alice_page SimMore.poor_world 3000000 1000000).
  - vm_compute. reflexivity.
  - vm_compute. reflexivity.
  - reflexivity.
  - reflexivity.
  - lia.
Defined.

Lemma submitPayment_pays_only_with_allowance_witness :
  sends (PaymentAutomation.submitPayment SimMore.stubborn Sim.lib Sim.env
           Sim.alice_page Sim.world0).2
  = [Approve USDC_ADDRESS (Some "0xAutomationBase") 3000000]
  /\ Forall (fun tx => is_approve tx = true)
       (sends (PaymentAutomation.submitPayment SimMore.stubborn Sim.lib Sim.env
                 Sim.alice_page Sim.world0).2).
Proof.
  split; [vm_compute; reflexivity|].
  apply (submitPayment_pays_only_with_allowance SimMore.stubborn Sim.lib
           Sim.env Sim.alice_page Sim.world0).
  intros amountRaw w' a Hparse Ha.
  injection Hparse as <-. injection Ha as <-. vm_compute. reflexivity.
Defined.


Lemma handlePay_native_witness :
  let c := Sim.checkout 84532 (Some (mapInvoice SimMore.ethInvoice)) in
  let t := (InvoiceCheckout.handlePay Sim.oracle Sim.lib Sim.env c
              Sim.world0).2 in
  reads t = []
  /\ sends t = [PayInvoice (Some "0xPayrollBase") (Some "0xabc")
                  1000000000000000].
Proof.
  intros c.
  apply (handlePay_native Sim.oracle Sim.lib Sim.env c Sim.world0
           (mapInvoice SimMore.ethInvoice)); vm_compute; reflexivity.
Defined.

Lemma recipients_never_empty_witness :
  reachableRecipients [EmptyString; Sim.bob]
  /\ (0 < length [EmptyString; Sim.bob])%nat.
Proof.
  assert (H : reachableRecipients [EmptyString; Sim.bob]).
  { eapply rtc_l; [apply (step_add [EmptyString])|].
    eapply rtc_l; [|apply rtc_refl].
    apply (step_change 1 Sim.bob). reflexivity. }
  split; [exact H|]. apply (recipients_never_empty _ H).
Defined.

Lemma authorization_status_sound_witness :
  (AutomationExecute.loadAuthorizationStatus Sim.oracle Sim.env
     SimMore.carol_page Sim.world_pay).1.1 = Ok (Some (true, true))
  /\ (PaymentAutomation.canExecutePayment Sim.oracle Sim.env
        SimMore.carol_page "1" Sim.world_pay).1.1 = Ok true.
Proof.
  assert (H : (AutomationExecute.loadAuthorizationStatus Sim.oracle Sim.env
                 SimMore.carol_page Sim.world_pay).1.1
              = Ok (Some (true, true))) by (vm_compute; reflexivity).
  split; [exact H|].
  apply (proj2 (authorization_status_sound Sim.oracle Sim.env
                  SimMore.carol_page Sim.world_pay true true H)
           eq_refl "1" Sim.details1).
  vm_compute. reflexivity.
Defined.

Lemma handleSubmit_outcome_witness :
  let t := (CreateInvoice.handleSubmit Sim.oracle Sim.lib Sim.env
              SimMore.create_page Sim.world0).2 in
  let start := [SetIsSubmitting true; SetInvoiceCreated false;
                SetInvoiceHash EmptyString] in
  sends t = [CreateInvoiceTx (Some "0xPayrollBase") "0xhash" USDC_ADDRESS
               2000000 (Some 4) "memo" EmptyString "two dollars"]
  /\ ((updates t = start ++ [SetInvoiceCreated false; SetInvoiceHash EmptyString;
                              SetIsSubmitting false]
       /\ toasts t <> [] /\ exists msg, last (toasts t) = Some (TError, msg))
      \/ exists h wei tx,
           updates t = start ++ [SetInvoiceHash h; SetInvoiceCreated true;
                                 SetIsSubmitting false]
           /\ CreateInvoice.amountWei Sim.lib
                (CreateInvoice.formData SimMore.create_page) = Ok wei
           /\ sends t
              = [CreateInvoiceTx
                   (CreateInvoice.contractAddress
                      (CreateInvoice.currentNetwork Sim.env 84532)) h
                   (Js.or_else (Some USDC_ADDRESS)
                      (CreateInvoice.to_address
                         CreateInvoice.USDC_TOKEN_BASE_SEPOLIA))
                   wei (parseInt Sim.lib "IIII") "memo" EmptyString
                   "two dollars"]
           /\ In (Wait tx) t).
Proof.
  intros t start. split; [vm_compute; reflexivity|].
  apply (handleSubmit_outcome Sim.oracle Sim.lib Sim.env SimMore.create_page
           Sim.world0); reflexivity.
Defined.

Lemma dashboard_asks_disagreeing_provider_witness :
  o_getNetwork Sim.oracle Injected SimMore.world_on_mainnet = Ok 1
  /\ In (Injected, DashboardFetch.ReqCode "0xPayrollBase")
       (dashRequests
          (DashboardFetch.fetchActiveInvoices Sim.oracle SimMore.extra Sim.env
             SimMore.dashboard SimMore.world_on_mainnet).2)
  /\ Forall (fun pr => pr.1 = Injected)
       (dashRequests
          (DashboardFetch.fetchBalance Sim.oracle SimMore.extra Sim.lib Sim.env
             SimMore.dashboard SimMore.world_on_mainnet).2
        ++ dashRequests
             (DashboardFetch.fetchActiveInvoices Sim.oracle SimMore.extra
                Sim.env SimMore.dashboard SimMore.world_on_mainnet).2).
Proof.
  split; [reflexivity|].
  apply (dashboard_asks_disagreeing_provider Sim.oracle SimMore.extra Sim.lib
           Sim.env SimMore.dashboard SimMore.world_on_mainnet 1);
    try reflexivity.
  lia.
Defined.

Lemma automation_inert_on_unsupported_chain_witness :
  PaymentAutomation.cn Sim.env SimMore.mainnet_page
  = PaymentAutomation.BASE_SEPOLIA Sim.env
  /\ (exists e, (PaymentAutomation.getSigner Sim.oracle Sim.env
                   SimMore.mainnet_page Sim.world_pay).1.1 = Err e)
  /\ (forall pid,
        (PaymentAutomation.canExecutePayment Sim.oracle Sim.env
           SimMore.mainnet_page pid Sim.world_pay).1.1 = Ok false)
  /\ sends (PaymentAutomation.submitPayment Sim.oracle Sim.lib Sim.env
              SimMore.mainnet_page Sim.world_pay).2 = []
  /\ (forall pid,
        sends (AutomationExecute.executeScheduledPayment Sim.oracle Sim.lib
                 Sim.env SimMore.mainnet_page pid Sim.world_pay).2 = [])
  /\ sends (PaymentAutomation.autoExecuteOverduePayments Sim.oracle Sim.env
              SimMore.mainnet_page Sim.world_pay).2 = [].
Proof.
  apply (automation_inert_on_unsupported_chain Sim.oracle Sim.lib Sim.env
           SimMore.mainnet_page); cbn; lia.
Defined.
